(** * RFID access controller: tag store and access check

    A shallow embedding of the logical core of [Source/Access-Controller.py]
    (class [RFIDApp]): the JSON-backed allow-list ([load_tags_from_json],
    [save_tags_to_json], [add_tag_to_json], [remove_tag_from_json]) and the
    access check ([check_tag]).

    Python's [json] module, the file system, standard output, the serial
    port and the Qt widgets are the environment of that code.  The [json]
    module is an interface ([JsonLib]), with Python's encoder and decoder
    written out as its reference instance ([py_json]); the rest is a record
    of observable state ([state]) that the methods thread through a small
    state-and-exception monad ([M]).

    A Python [str] is a [string]; the tags handed to the methods are [str]
    (the digits typed by the reader, the text of a line edit or of a list
    item), the elements of the store are whatever [json.load] found in the
    file. *)

From Stdlib Require Import String Ascii List Bool ZArith NArith Lia.
From Stdlib Require Import DecimalString.
Import ListNotations.
Local Open Scope string_scope.

(* ------------------------------------------------------------------ *)
(** ** JSON values, as [json.load] builds them *)

#[local] Set Warnings "-register-all".

Inductive json : Type :=
| JNull                                   (* None *)
| JBool (b : bool)                        (* True / False *)
| JInt (n : Z)                            (* int *)
| JFloat (lit : string)                   (* float, held by its literal *)
| JStr (s : string)                       (* str *)
| JArr (items : list json)                (* list *)
| JObj (members : list (string * json)).  (* dict, in insertion order *)

(** The exceptions of the program.  [JSONDecodeError] and
    [UnicodeDecodeError] are subclasses of [ValueError]; [IOError] is
    [OSError]. *)
Inductive exn : Type :=
| JSONDecodeError | IOError | ValueError | RecursionError
| UnicodeDecodeError.

Definition exn_eqb (a b : exn) : bool :=
  match a, b with
  | JSONDecodeError, JSONDecodeError | IOError, IOError
  | ValueError, ValueError | RecursionError, RecursionError
  | UnicodeDecodeError, UnicodeDecodeError => true
  | _, _ => false
  end.

(** What a call comes to: the value it returns or the exception it
    raises. *)
Inductive outcome (A : Type) : Type :=
| Return (a : A)
| Raise (e : exn).
Arguments Return {A} a.
Arguments Raise {A} e.

(** The [json] module.  [json_loads] is what [json.load] returns on a file
    of the given content, [None] when it raises, and [json_error] is the
    exception it raises then: [JSONDecodeError] for a text that is not JSON,
    but also [ValueError] for an integer literal of more digits than
    [int] converts, [RecursionError] for a nesting deeper than the
    interpreter allows and [UnicodeDecodeError] for bytes that do not
    decode.  [json_dumps] is [json.dump(_, f, indent=2)].  The one law the
    tag store relies on is that a list of strings written by [json.dump] is
    read back by [json.load]. *)
Class JsonLib : Type := {
  json_loads : string -> option json;
  json_error : string -> exn;
  json_dumps : json -> string;
  loads_dumps_tags : forall tags : list string,
    json_loads (json_dumps (JArr (map JStr tags))) = Some (JArr (map JStr tags))
}.

(* ------------------------------------------------------------------ *)
(** ** A reference [json] module

    The encoder and the decoder of Python's [json] package, for a file
    whose bytes are the characters of its text (an ASCII file, as
    [json.dump] writes with the default [ensure_ascii], or a file read as
    Latin-1): [iterencode] is [json.dump(_, f, indent=2)] and [py_loads] is
    [json.load] with its default, strict decoder and CPython's default limit
    on the digits of an [int].

    The reference module serves the examples, whose files hold lists of
    ASCII strings.  It is Python's module within these bounds only:
    - a float is kept as the literal it was read from and written back as
      that literal, where [json.dump] writes the [repr] of the float;
    - a [\uXXXX] escape above 00FF has no character in [string] and is
      refused, where [json.load] reads it;
    - the depth of the nesting is not limited, where the interpreter raises
      [RecursionError] past its limit;
    - the bytes of the file are not decoded, so that there is no
      [UnicodeDecodeError].
    The theorems about the store are over the interface [JsonLib], which
    leaves all of this open. *)

Definition dquote : ascii := "034"%char.
Definition backslash : ascii := "092"%char.
Definition newline : string := String "010"%char "".

Definition hexdigit (n : N) : ascii :=
  ascii_of_N (if (n <? 10)%N then 48 + n else 87 + n)%N.

(** One character of [encode_basestring_ascii]: everything outside
    [' '..'~'], the quote and the backslash are escaped. *)
Definition escape_char (c : ascii) : string :=
  let n := N_of_ascii c in
  if Ascii.eqb c backslash then String backslash (String backslash "")
  else if Ascii.eqb c dquote then String backslash (String dquote "")
  else if (n =? 8)%N then String backslash "b"
  else if (n =? 12)%N then String backslash "f"
  else if (n =? 10)%N then String backslash "n"
  else if (n =? 13)%N then String backslash "r"
  else if (n =? 9)%N then String backslash "t"
  else if ((32 <=? n) && (n <=? 126))%N then String c ""
  else String backslash
         ("u00" ++ String (hexdigit (n / 16)) (String (hexdigit (n mod 16)) "")).

Fixpoint escape (s : string) : string :=
  match s with
  | "" => ""
  | String c r => escape_char c ++ escape r
  end.

Definition encode_basestring_ascii (s : string) : string :=
  String dquote (escape s ++ String dquote "").

Fixpoint spaces (n : nat) : string :=
  match n with
  | O => ""
  | S k => String " " (spaces k)
  end.

(** ['\n' + indent * level] for [indent=2] *)
Definition newline_indent (level : nat) : string :=
  newline ++ spaces (2 * level).

Definition string_of_Z (n : Z) : string :=
  DecimalString.NilZero.string_of_int (Z.to_int n).

Fixpoint iterencode (v : json) (level : nat) : string :=
  match v with
  | JNull => "null"
  | JBool true => "true"
  | JBool false => "false"
  | JInt n => string_of_Z n
  | JFloat lit => lit
  | JStr s => encode_basestring_ascii s
  | JArr [] => "[]"
  | JArr (x :: xs) =>
      "[" ++ newline_indent (S level) ++ iterencode x (S level)
      ++ (fix items (l : list json) : string :=
            match l with
            | [] => ""
            | y :: ys => "," ++ newline_indent (S level)
                         ++ iterencode y (S level) ++ items ys
            end) xs
      ++ newline_indent level ++ "]"
  | JObj [] => "{}"
  | JObj ((k, x) :: xs) =>
      "{" ++ newline_indent (S level)
      ++ encode_basestring_ascii k ++ ": " ++ iterencode x (S level)
      ++ (fix items (l : list (string * json)) : string :=
            match l with
            | [] => ""
            | (k', y) :: ys => "," ++ newline_indent (S level)
                               ++ encode_basestring_ascii k' ++ ": "
                               ++ iterencode y (S level) ++ items ys
            end) xs
      ++ newline_indent level ++ "}"
  end.

Definition py_dumps (v : json) : string := iterencode v 0.

(** The text [iterencode] writes after the first element of a list of
    strings, one level deep. *)
Fixpoint more_items (tags : list string) : string :=
  match tags with
  | [] => ""
  | t :: ts => "," ++ newline_indent 1 ++ encode_basestring_ascii t
               ++ more_items ts
  end.

(** *** Decoder *)

Definition is_ws (c : ascii) : bool :=
  let n := N_of_ascii c in
  ((n =? 32) || (n =? 9) || (n =? 10) || (n =? 13))%N.

Fixpoint skip_ws (s : string) : string :=
  match s with
  | "" => ""
  | String c r => if is_ws c then skip_ws r else s
  end.

Definition is_digit (c : ascii) : bool :=
  let n := N_of_ascii c in ((48 <=? n) && (n <=? 57))%N.

Definition hexval (c : ascii) : option N :=
  let n := N_of_ascii c in
  if ((48 <=? n) && (n <=? 57))%N then Some (n - 48)%N
  else if ((97 <=? n) && (n <=? 102))%N then Some (n - 87)%N
  else if ((65 <=? n) && (n <=? 70))%N then Some (n - 55)%N
  else None.

(** The character of [\uXXXX], when it has one in [string]. *)
Definition decode_uXXXX (h1 h2 h3 h4 : ascii) : option ascii :=
  match hexval h1, hexval h2, hexval h3, hexval h4 with
  | Some a, Some b, Some c, Some d =>
      if ((a =? 0) && (b =? 0))%N then Some (ascii_of_N (16 * c + d))
      else None
  | _, _, _, _ => None
  end.

Definition unescape (c : ascii) : option ascii :=
  if Ascii.eqb c dquote then Some dquote
  else if Ascii.eqb c backslash then Some backslash
  else if Ascii.eqb c "/" then Some "/"%char
  else if Ascii.eqb c "b" then Some "008"%char
  else if Ascii.eqb c "f" then Some "012"%char
  else if Ascii.eqb c "n" then Some "010"%char
  else if Ascii.eqb c "r" then Some "013"%char
  else if Ascii.eqb c "t" then Some "009"%char
  else None.

(** [py_scanstring], strict: from just after the opening quote to just after
    the closing one. *)
Fixpoint scanstring (s : string) : option (string * string) :=
  match s with
  | "" => None
  | String c r =>
      if Ascii.eqb c dquote then Some ("", r)
      else if Ascii.eqb c backslash then
        match r with
        | "" => None
        | String e r1 =>
            if Ascii.eqb e "u" then
              match r1 with
              | String h1 (String h2 (String h3 (String h4 r2))) =>
                  match decode_uXXXX h1 h2 h3 h4 with
                  | Some ch =>
                      match scanstring r2 with
                      | Some (str, rest) => Some (String ch str, rest)
                      | None => None
                      end
                  | None => None
                  end
              | _ => None
              end
            else
              match unescape e with
              | Some ch =>
                  match scanstring r1 with
                  | Some (str, rest) => Some (String ch str, rest)
                  | None => None
                  end
              | None => None
              end
        end
      else if (N_of_ascii c <? 32)%N then None
      else
        match scanstring r with
        | Some (str, rest) => Some (String c str, rest)
        | None => None
        end
  end.

(** The longest run of decimal digits at the head of [s], and what follows. *)
Fixpoint span_digits (s : string) : string * string :=
  match s with
  | "" => ("", "")
  | String c r =>
      if is_digit c then let (d, rest) := span_digits r in (String c d, rest)
      else ("", s)
  end.

Fixpoint Z_of_digits (acc : Z) (d : string) : Z :=
  match d with
  | "" => acc
  | String c r => Z_of_digits (10 * acc + Z.of_N (N_of_ascii c - 48)) r
  end.

(** [prefix p s]: what follows [p] at the head of [s]. *)
Fixpoint strip_prefix (p s : string) : option string :=
  match p, s with
  | "", _ => Some s
  | String a p', String b s' =>
      if Ascii.eqb a b then strip_prefix p' s' else None
  | String _ _, "" => None
  end.

(** The integer part of [NUMBER_RE], an optional minus then [0] or a run of
    digits that does not start with [0]: sign, digits, rest. *)
Definition match_integer (s : string) : option (bool * string * string) :=
  let (neg, s1) := match s with
                   | String c r => if Ascii.eqb c "-" then (true, r)
                                   else (false, s)
                   | "" => (false, s)
                   end in
  match s1 with
  | String c r =>
      if Ascii.eqb c "0" then Some (neg, "0", r)
      else if is_digit c then
        let (d, rest) := span_digits s1 in Some (neg, d, rest)
      else None
  | "" => None
  end.

(** The optional fraction of [NUMBER_RE]: a point and at least one digit. *)
Definition match_frac (s : string) : string * string :=
  match s with
  | String c r =>
      if Ascii.eqb c "." then
        match span_digits r with
        | ("", _) => ("", s)
        | (d, rest) => (String c d, rest)
        end
      else ("", s)
  | "" => ("", s)
  end.

(** The optional exponent of [NUMBER_RE]: [e] or [E], an optional sign and
    at least one digit. *)
Definition match_exp (s : string) : string * string :=
  match s with
  | String c r =>
      if Ascii.eqb c "e" || Ascii.eqb c "E" then
        let (sign, r1) :=
          match r with
          | String c' r' =>
              if Ascii.eqb c' "-" || Ascii.eqb c' "+" then (String c' "", r')
              else ("", r)
          | "" => ("", r)
          end in
        match span_digits r1 with
        | ("", _) => ("", s)
        | (d, rest) => (String c (sign ++ d), rest)
        end
      else ("", s)
  | "" => ("", s)
  end.

(** [sys.get_int_max_str_digits()], by default: [int] refuses to convert a
    decimal literal of more digits and raises [ValueError]. *)
Definition int_max_str_digits : nat := 4300.

(** [NUMBER_RE] and the conversion of its match to [int] or [float];
    [None] when the text does not start with a number. *)
Definition match_number (s : string) : option (outcome (json * string)) :=
  match match_integer s with
  | Some (neg, d, r) =>
      let (frac, r1) := match_frac r in
      let (exp, r2) := match_exp r1 in
      let sign := if neg then "-" else "" in
      match frac, exp with
      | "", "" =>
          if Nat.ltb int_max_str_digits (String.length d)
          then Some (Raise ValueError)
          else
            let n := Z_of_digits 0 d in
            Some (Return (JInt (if neg then - n else n)%Z, r2))
      | _, _ => Some (Return (JFloat (sign ++ d ++ frac ++ exp), r2))
      end
  | None => None
  end.

(** The values [scan_once] reads without recursion, other than strings:
    [null], [true], [false], a number, [NaN], [Infinity], [-Infinity]. *)
Definition scan_atom (s : string) : outcome (json * string) :=
  match strip_prefix "null" s, strip_prefix "true" s,
        strip_prefix "false" s with
  | Some rest, _, _ => Return (JNull, rest)
  | _, Some rest, _ => Return (JBool true, rest)
  | _, _, Some rest => Return (JBool false, rest)
  | None, None, None =>
      match match_number s with
      | Some res => res
      | None =>
          match strip_prefix "NaN" s, strip_prefix "Infinity" s,
                strip_prefix "-Infinity" s with
          | Some rest, _, _ => Return (JFloat "NaN", rest)
          | _, Some rest, _ => Return (JFloat "Infinity", rest)
          | _, _, Some rest => Return (JFloat "-Infinity", rest)
          | None, None, None => Raise JSONDecodeError
          end
      end
  end.

Definition scan_string (s : string) : outcome (json * string) :=
  match scanstring s with
  | Some (str, rest) => Return (JStr str, rest)
  | None => Raise JSONDecodeError
  end.

(** [dict(pairs)]: a repeated key keeps its first place and its last value. *)
Fixpoint dict_set (k : string) (v : json) (d : list (string * json))
  : list (string * json) :=
  match d with
  | [] => [(k, v)]
  | (k', v') :: rest =>
      if String.eqb k' k then (k', v) :: rest
      else (k', v') :: dict_set k v rest
  end.

Definition dict_of_pairs (pairs : list (string * json))
  : list (string * json) :=
  fold_left (fun d kv => dict_set (fst kv) (snd kv) d) pairs [].

(** [scan_once] with [JSONArray] and [JSONObject]; [JSONArray] and
    [JSONObject] start after the opening bracket, [array_items] at a value
    and [object_items] at a key.  A text that is not JSON raises
    [JSONDecodeError]; the [ValueError] of a number is raised where the
    number is read.  The decoder is not structurally recursive in the text:
    [fuel] bounds the depth of the calls, and [py_loads] gives it more than
    any text can use ([py_loads_enough_fuel]). *)
Fixpoint scan_once (fuel : nat) (s : string) : outcome (json * string) :=
  match fuel with
  | O => Raise JSONDecodeError
  | S fuel' =>
      match s with
      | "" => Raise JSONDecodeError
      | String c r =>
          if Ascii.eqb c dquote then scan_string r
          else if Ascii.eqb c "{" then JSONObject fuel' r
          else if Ascii.eqb c "[" then JSONArray fuel' r
          else scan_atom s
      end
  end

with JSONArray (fuel : nat) (s : string) : outcome (json * string) :=
  match fuel with
  | O => Raise JSONDecodeError
  | S fuel' =>
      match skip_ws s with
      | "" => Raise JSONDecodeError
      | String c rest =>
          if Ascii.eqb c "]" then Return (JArr [], rest)
          else
            match array_items fuel' (String c rest) with
            | Return (values, rest') => Return (JArr values, rest')
            | Raise e => Raise e
            end
      end
  end

with array_items (fuel : nat) (s : string) : outcome (list json * string) :=
  match fuel with
  | O => Raise JSONDecodeError
  | S fuel' =>
      match scan_once fuel' s with
      | Return (value, r) =>
          match skip_ws r with
          | "" => Raise JSONDecodeError
          | String c rest =>
              if Ascii.eqb c "]" then Return ([value], rest)
              else if Ascii.eqb c "," then
                match array_items fuel' (skip_ws rest) with
                | Return (values, rest') => Return (value :: values, rest')
                | Raise e => Raise e
                end
              else Raise JSONDecodeError
          end
      | Raise e => Raise e
      end
  end

with JSONObject (fuel : nat) (s : string) : outcome (json * string) :=
  match fuel with
  | O => Raise JSONDecodeError
  | S fuel' =>
      match skip_ws s with
      | "" => Raise JSONDecodeError
      | String c rest =>
          if Ascii.eqb c "}" then Return (JObj [], rest)
          else
            match object_items fuel' (String c rest) with
            | Return (pairs, rest') =>
                Return (JObj (dict_of_pairs pairs), rest')
            | Raise e => Raise e
            end
      end
  end

with object_items (fuel : nat) (s : string)
  : outcome (list (string * json) * string) :=
  match fuel with
  | O => Raise JSONDecodeError
  | S fuel' =>
      match s with
      | "" => Raise JSONDecodeError
      | String q r =>
          if Ascii.eqb q dquote then
            match scanstring r with
            | Some (key, r1) =>
                match skip_ws r1 with
                | "" => Raise JSONDecodeError
                | String c r2 =>
                    if Ascii.eqb c ":" then
                      match scan_once fuel' (skip_ws r2) with
                      | Return (value, r3) =>
                          match skip_ws r3 with
                          | "" => Raise JSONDecodeError
                          | String c' r4 =>
                              if Ascii.eqb c' "}" then
                                Return ([(key, value)], r4)
                              else if Ascii.eqb c' "," then
                                match object_items fuel' (skip_ws r4) with
                                | Return (pairs, rest) =>
                                    Return ((key, value) :: pairs, rest)
                                | Raise e => Raise e
                                end
                              else Raise JSONDecodeError
                          end
                      | Raise e => Raise e
                      end
                    else Raise JSONDecodeError
                end
            | None => Raise JSONDecodeError
            end
          else Raise JSONDecodeError
      end
  end.

(** [json.loads], that is [JSONDecoder.decode]: leading white space, one
    value, trailing white space, end of text. *)
Definition py_loads (s : string) : outcome json :=
  match scan_once (3 * String.length s + 3) (skip_ws s) with
  | Return (v, rest) =>
      match skip_ws rest with
      | "" => Return v
      | _ => Raise JSONDecodeError
      end
  | Raise e => Raise e
  end.

(** The two faces of [py_loads] in the interface. *)
Definition py_loads_value (s : string) : option json :=
  match py_loads s with
  | Return v => Some v
  | Raise _ => None
  end.

Definition py_loads_error (s : string) : exn :=
  match py_loads s with
  | Return _ => JSONDecodeError
  | Raise e => e
  end.

(* ------------------------------------------------------------------ *)
(** ** Observable state *)

(** Lines the program prints. *)
Inductive printed : Type :=
| ErrorLoadingTags (e : exn)    (* print(f"Error loading tags: {e}") *)
| ErrorSavingTags (e : exn).    (* print(f"Error saving tags: {e}") *)

(** How a write to the file goes wrong, when it does: [open] is refused and
    the file stays as it was, or the file is opened, and so emptied, and the
    write breaks off after [n] characters.  Both raise [IOError]. *)
Inductive write_fault : Type :=
| OpenRefused
| WriteCut (n : nat).

(** Calls on the serial connection [self.esp]. *)
Inductive serial_call : Type :=
| SerialWrite (data : string)
| SerialRead.

(** Calls into the presentation layer. *)
Inductive ui_call : Type :=
| ShowTagResult (text : string) (success : bool)
| AddActivity (message : string) (type_ : string).

Record state : Type := mkState {
  (* attributes of [self] *)
  allowed_tags : list json;
  esp : option string;               (* the open port, [None] when closed *)
  (* the file TAGS_FILE *)
  tags_file : option string;         (* its content; [None]: no such file *)
  can_read : bool;                   (* open(TAGS_FILE, 'r') succeeds *)
  on_write : option write_fault;     (* [None]: writing TAGS_FILE succeeds *)
  (* traces *)
  stdout : list printed;
  serial : list serial_call;
  ui : list ui_call
}.

Definition set_allowed_tags (l : list json) (s : state) : state :=
  mkState l (esp s)
          (tags_file s) (can_read s) (on_write s)
          (stdout s) (serial s) (ui s).

Definition set_tags_file (f : option string) (s : state) : state :=
  mkState (allowed_tags s) (esp s)
          f (can_read s) (on_write s)
          (stdout s) (serial s) (ui s).

Definition set_on_write (w : option write_fault) (s : state) : state :=
  mkState (allowed_tags s) (esp s)
          (tags_file s) (can_read s) w
          (stdout s) (serial s) (ui s).

Definition add_stdout (p : printed) (s : state) : state :=
  mkState (allowed_tags s) (esp s)
          (tags_file s) (can_read s) (on_write s)
          (stdout s ++ [p]) (serial s) (ui s).

Definition add_serial (c : serial_call) (s : state) : state :=
  mkState (allowed_tags s) (esp s)
          (tags_file s) (can_read s) (on_write s)
          (stdout s) (serial s ++ [c]) (ui s).

Definition add_ui (c : ui_call) (s : state) : state :=
  mkState (allowed_tags s) (esp s)
          (tags_file s) (can_read s) (on_write s)
          (stdout s) (serial s) (ui s ++ [c]).

(* ------------------------------------------------------------------ *)
(** ** The monad of methods: state, and exceptions that keep the state *)

Definition M (A : Type) : Type := state -> outcome A * state.

Definition ret {A} (a : A) : M A := fun s => (Return a, s).

Definition raise {A} (e : exn) : M A := fun s => (Raise e, s).

Definition bind {A B} (m : M A) (k : A -> M B) : M B :=
  fun s => match m s with
           | (Return a, s') => k a s'
           | (Raise e, s') => (Raise e, s')
           end.

(** [try: body  except (classes) as e: handler e] *)
Definition try_except {A} (body : M A) (catches : exn -> bool)
           (handler : exn -> M A) : M A :=
  fun s => match body s with
           | (Return a, s') => (Return a, s')
           | (Raise e, s') => if catches e then handler e s' else (Raise e, s')
           end.

Definition gets {A} (f : state -> A) : M A := fun s => (Return (f s), s).

Definition modify (f : state -> state) : M unit := fun s => (Return tt, f s).

Declare Scope py_scope.
Delimit Scope py_scope with py.
Notation "x <- m ;; k" := (bind m (fun x => k))
  (at level 61, m at next level, right associativity) : py_scope.
Notation "m ;;; k" := (bind m (fun _ => k))
  (at level 61, right associativity) : py_scope.
Local Open Scope py_scope.

(* ------------------------------------------------------------------ *)
(** ** Environment primitives *)

(** [os.path.exists(TAGS_FILE)] *)
Definition os_path_exists : M bool :=
  gets (fun s => match tags_file s with Some _ => true | None => false end).

(** [with open(TAGS_FILE, 'r') as f]: the file is opened, or [open] raises
    [IOError]; what is handed on is the content of the file, which
    [json.load] reads and decodes ([json_load]). *)
Definition open_r : M string :=
  fun s => match tags_file s with
           | Some text => if can_read s then (Return text, s)
                          else (Raise IOError, s)
           | None => (Raise IOError, s)
           end.

(** [with open(TAGS_FILE, 'w') as f: f.write(text)] *)
Definition open_w (text : string) : M unit :=
  fun s => match on_write s with
           | None => (Return tt, set_tags_file (Some text) s)
           | Some OpenRefused => (Raise IOError, s)
           | Some (WriteCut n) =>
               (Raise IOError, set_tags_file (Some (substring 0 n text)) s)
           end.

Definition print (p : printed) : M unit := modify (add_stdout p).

(** [self.esp.write(data)]: the call is recorded.  The device is taken to
    accept the write: pyserial raises [SerialException] when it does not,
    and nothing in [check_tag] or [eventFilter] catches it.  That outcome
    is left out, so that what is proved of [check_tag] and of its callers is
    proved of a device that accepts the write. *)
Definition esp_write (data : string) : M unit :=
  modify (add_serial (SerialWrite data)).

(** The two presentation methods [check_tag] calls are recorded with their
    arguments. *)
Definition show_tag_result (text : string) (success : bool) : M unit :=
  modify (add_ui (ShowTagResult text success)).

Definition add_activity (message type_ : string) : M unit :=
  modify (add_ui (AddActivity message type_)).

(* ------------------------------------------------------------------ *)
(** ** Python list operations on the store, for a [str] operand *)

(** [x == tag] for a [str] [tag]: a [str] equals only an equal [str]. *)
Definition eq_str (x : json) (tag : string) : bool :=
  match x with
  | JStr s => String.eqb s tag
  | _ => false
  end.

(** [tag in tags] *)
Definition py_in (tag : string) (tags : list json) : bool :=
  existsb (fun x => eq_str x tag) tags.

(** [tags.remove(tag)]: drops the first element equal to [tag];
    [None] stands for the [ValueError] of an absent [tag]. *)
Fixpoint list_remove (tag : string) (tags : list json) : option (list json) :=
  match tags with
  | [] => None
  | x :: rest =>
      if eq_str x tag then Some rest
      else match list_remove tag rest with
           | Some rest' => Some (x :: rest')
           | None => None
           end
  end.

(* ------------------------------------------------------------------ *)
(** ** The program *)

Definition BAUD_RATE : Z := 115200.
Definition TAGS_FILE : string := "allowed_tags.json".

Definition default_tags : list json :=
  [JStr "0001234567"; JStr "0009876543"; JStr "0005555555";
   JStr "12345"; JStr "67890"].

Section Program.
Context {J : JsonLib}.

(** [json.load(f)], for the content of [f]: the value read, or the exception
    of the [json] module, whichever it is. *)
Definition json_load (text : string) : M json :=
  match json_loads text with
  | Some v => ret v
  | None => raise (json_error text)
  end.

Definition save_tags_to_json (tags : list json) : M unit :=
  try_except
    (open_w (json_dumps (JArr tags)))
    (fun e => exn_eqb e IOError)
    (fun e => print (ErrorSavingTags e)).

Definition load_tags_from_json : M (list json) :=
  try_except
    (ex <- os_path_exists ;;
     if ex then
       text <- open_r ;;
       tags <- json_load text ;;
       match tags with
       | JArr l => ret l
       | _ => save_tags_to_json default_tags ;;; ret default_tags
       end
     else
       save_tags_to_json default_tags ;;; ret default_tags)
    (fun e => exn_eqb e JSONDecodeError || exn_eqb e IOError)
    (fun e =>
       print (ErrorLoadingTags e) ;;;
       save_tags_to_json default_tags ;;;
       ret default_tags).

Definition add_tag_to_json (tag : string) : M bool :=
  tags <- gets allowed_tags ;;
  if negb (py_in tag tags) then
    modify (set_allowed_tags (tags ++ [JStr tag])) ;;;
    tags' <- gets allowed_tags ;;
    save_tags_to_json tags' ;;;
    ret true
  else ret false.

Definition remove_tag_from_json (tag : string) : M bool :=
  tags <- gets allowed_tags ;;
  if py_in tag tags then
    match list_remove tag tags with
    | Some tags' =>
        modify (set_allowed_tags tags') ;;;
        tags'' <- gets allowed_tags ;;
        save_tags_to_json tags'' ;;;
        ret true
    | None => raise ValueError
    end
  else ret false.

Definition check_tag (tag : string) : M unit :=
  if String.eqb tag "" then
    show_tag_result "EMPTY TAG" false ;;;
    add_activity "❌ Empty tag" "error"
  else
    tags <- gets allowed_tags ;;
    if py_in tag tags then
      show_tag_result ("ACCESS GRANTED" ++ newline ++ tag) true ;;;
      port <- gets esp ;;
      match port with
      | Some _ => esp_write ("open" ++ newline)
      | None => ret tt
      end ;;;
      add_activity ("✅ Access granted: " ++ tag) "success"
    else
      show_tag_result ("ACCESS DENIED" ++ newline ++ tag) false ;;;
      add_activity ("❌ Access denied: " ++ tag) "error".

(** A run of [add_tag_to_json] calls, one per tag, in order. *)
Fixpoint add_each (tags : list string) : M unit :=
  match tags with
  | [] => ret tt
  | t :: ts => add_tag_to_json t ;;; add_each ts
  end.

End Program.

(** The exceptions the handler of [load_tags_from_json] catches, by the
    test written in that method: [except (json.JSONDecodeError, IOError)]. *)
Definition caught_on_load (e : exn) : bool :=
  exn_eqb e JSONDecodeError || exn_eqb e IOError.

(** [json.load] returns on the file, or raises an exception that
    [load_tags_from_json] catches. *)
Definition file_is_handled {J : JsonLib} (s : state) : Prop :=
  forall text,
    tags_file s = Some text -> can_read s = true ->
    json_loads text = None -> caught_on_load (json_error text) = true.

(** The sequence of tags in insertion order, as the round trip is stated:
    the tags of a store after [tags] are added to it one after the other,
    where a tag that the store does not hold yet goes to its end and a tag
    that it holds adds nothing.  This is what the methods are compared
    with, not a method of the program. *)
Fixpoint added (store tags : list string) : list string :=
  match tags with
  | [] => store
  | t :: ts =>
      added (if in_dec string_dec t store then store else store ++ [t]) ts
  end.

(** [s * n] *)
Fixpoint string_times (s : string) (n : nat) : string :=
  match n with
  | O => ""
  | S k => s ++ string_times s k
  end.

(** The state a method starts from in the examples: a store, a port, the
    file, whether it can be read and how writing it fails; nothing printed, sent or shown. *)
Definition start (store : list json) (port : option string)
           (file : option string) (readable : bool)
           (fault : option write_fault) : state :=
  mkState store port file readable fault [] [] [].

(** A store that holds the empty string as a tag, and a connected port. *)
Definition store_with_empty : state :=
  start [JStr ""; JStr "12345"] (Some "COM3")  None true None.

(** A [str] literal of JSON text. *)
Definition quoted (s : string) : string :=
  String dquote (s ++ String dquote "").

(* ------------------------------------------------------------------ *)
(** ** Runs of store operations *)

Section StoreRuns.
Context {J : JsonLib}.

Inductive store_op : Type :=
| OpAdd (tag : string)       (* add_tag_to_json(tag) *)
| OpRemove (tag : string).   (* remove_tag_from_json(tag) *)

Definition run_op (op : store_op) : M bool :=
  match op with
  | OpAdd tag => add_tag_to_json tag
  | OpRemove tag => remove_tag_from_json tag
  end.

(** The operations one after the other; their results are dropped. *)
Fixpoint run_ops (ops : list store_op) : M unit :=
  match ops with
  | [] => ret tt
  | op :: rest => run_op op ;;; run_ops rest
  end.

(** The file exists and [json.load] reads the store of the session from
    it. *)
Definition file_holds_store (s : state) : Prop :=
  exists text, tags_file s = Some text
               /\ json_loads text = Some (JArr (allowed_tags s)).

End StoreRuns.

(* ------------------------------------------------------------------ *)
(** ** The window: scanning mode, the keyboard and the settings panel *)

Definition set_esp (port : option string) (s : state) : state :=
  mkState (allowed_tags s) port
          (tags_file s) (can_read s) (on_write s)
          (stdout s) (serial s) (ui s).

(** The labels and the button whose text the methods set. *)
Inductive widget : Type :=
| scan_label | scan_icon | tag_display | status_indicator
| scan_control_btn | connection_status.

Inductive window_call : Type :=
| SetText (on : widget) (text : string)        (* on.setText(text) *)
| SetStyleSheet (on : widget)                  (* on.setStyleSheet(literal) *)
| ShowMessageDialog (title message : string) (is_error : bool)
| ConfirmDialog (message : string)             (* the dialog of removal *)
| PortOpen (port : string) (baud timeout : Z)  (* serial.Serial(...) *)
| PortClose (port : string)                    (* self.esp.close() *)
| Sleep.                                       (* time.sleep(0.5) *)

(** The window: [core] holds the attributes and the environment of the store
    methods; [port_items], [port_index] and [port_enabled] are the combo box
    [self.port_combo]; [new_tag_input] is the text of the line edit and
    [tag_list] the items of the list widget; [comports] (device and
    description of the ports [serial.tools.list_ports.comports()] lists) and
    [port_fails] ([str(e)] of the exception [serial.Serial] raises for a
    port, when it raises) belong to the environment; [calls] are the other
    calls made, in order. *)
Record window : Type := mkWindow {
  core : state;
  scanning_enabled : bool;
  buffer : string;
  port_items : list string;
  port_index : nat;
  port_enabled : bool;
  new_tag_input : string;
  tag_list : list string;
  comports : list (string * string);
  port_fails : string -> option string;
  calls : list window_call
}.

Definition set_core (x : state) (w : window) : window :=
  mkWindow x (scanning_enabled w) (buffer w) (port_items w) (port_index w)
    (port_enabled w) (new_tag_input w) (tag_list w) (comports w)
    (port_fails w) (calls w).

Definition set_scanning_enabled (x : bool) (w : window) : window :=
  mkWindow (core w) x (buffer w) (port_items w) (port_index w)
    (port_enabled w) (new_tag_input w) (tag_list w) (comports w)
    (port_fails w) (calls w).

Definition set_buffer (x : string) (w : window) : window :=
  mkWindow (core w) (scanning_enabled w) x (port_items w) (port_index w)
    (port_enabled w) (new_tag_input w) (tag_list w) (comports w)
    (port_fails w) (calls w).

Definition set_port_items (x : list string) (w : window) : window :=
  mkWindow (core w) (scanning_enabled w) (buffer w) x (port_index w)
    (port_enabled w) (new_tag_input w) (tag_list w) (comports w)
    (port_fails w) (calls w).

Definition set_port_index (x : nat) (w : window) : window :=
  mkWindow (core w) (scanning_enabled w) (buffer w) (port_items w) x
    (port_enabled w) (new_tag_input w) (tag_list w) (comports w)
    (port_fails w) (calls w).

Definition set_port_enabled (x : bool) (w : window) : window :=
  mkWindow (core w) (scanning_enabled w) (buffer w) (port_items w)
    (port_index w) x (new_tag_input w) (tag_list w) (comports w)
    (port_fails w) (calls w).

Definition set_new_tag_input (x : string) (w : window) : window :=
  mkWindow (core w) (scanning_enabled w) (buffer w) (port_items w)
    (port_index w) (port_enabled w) x (tag_list w) (comports w)
    (port_fails w) (calls w).

Definition set_tag_list (x : list string) (w : window) : window :=
  mkWindow (core w) (scanning_enabled w) (buffer w) (port_items w)
    (port_index w) (port_enabled w) (new_tag_input w) x (comports w)
    (port_fails w) (calls w).

Definition set_calls (x : list window_call) (w : window) : window :=
  mkWindow (core w) (scanning_enabled w) (buffer w) (port_items w)
    (port_index w) (port_enabled w) (new_tag_input w) (tag_list w)
    (comports w) (port_fails w) x.

Definition add_call (c : window_call) (w : window) : window :=
  set_calls (calls w ++ [c]) w.

(** Exceptions of the window methods: those of the store methods, the one
    of [serial.Serial] with its message, and the one of a Qt call handed an
    argument of the wrong type. *)
Inductive wexn : Type :=
| PyExn (e : exn)
| SerialException (msg : string)
| TypeError.

Inductive result (A : Type) : Type :=
| Done (a : A)
| Fail (e : wexn).
Arguments Done {A} a.
Arguments Fail {A} e.

Definition W (A : Type) : Type := window -> result A * window.

Definition wret {A} (a : A) : W A := fun w => (Done a, w).

Definition wraise {A} (e : wexn) : W A := fun w => (Fail e, w).

Definition wbind {A B} (m : W A) (k : A -> W B) : W B :=
  fun w => match m w with
           | (Done a, w') => k a w'
           | (Fail e, w') => (Fail e, w')
           end.

Definition wtry {A} (body : W A) (catches : wexn -> bool)
           (handler : wexn -> W A) : W A :=
  fun w => match body w with
           | (Done a, w') => (Done a, w')
           | (Fail e, w') => if catches e then handler e w' else (Fail e, w')
           end.

Definition wgets {A} (f : window -> A) : W A := fun w => (Done (f w), w).

Definition wmodify (f : window -> window) : W unit :=
  fun w => (Done tt, f w).

(** A store method, run on the [core] part of the window. *)
Definition lift {A} (m : M A) : W A :=
  fun w => match m (core w) with
           | (Return a, s') => (Done a, set_core s' w)
           | (Raise e, s') => (Fail (PyExn e), set_core s' w)
           end.

Declare Scope win_scope.
Delimit Scope win_scope with win.
Notation "x <- m ;; k" := (wbind m (fun x => k))
  (at level 61, m at next level, right associativity) : win_scope.
Notation "m ;;; k" := (wbind m (fun _ => k))
  (at level 61, right associativity) : win_scope.
Local Open Scope win_scope.

(** *** Python [str] operations the methods use *)

(** [sub in s] *)
Fixpoint contains (sub s : string) : bool :=
  if String.prefix sub s then true
  else match s with
       | "" => false
       | String _ r => contains sub r
       end.

(** [s.split(sep)[0]] for a non-empty [sep]: [s] up to the first [sep]. *)
Fixpoint before_sep (sep s : string) : string :=
  if String.prefix sep s then ""
  else match s with
       | "" => ""
       | String c r => String c (before_sep sep r)
       end.

(** [s.split(sep)] for a one-character [sep] *)
Fixpoint split_char (sep : ascii) (s : string) : list string :=
  match s with
  | "" => [""]
  | String c r =>
      if Ascii.eqb c sep then "" :: split_char sep r
      else match split_char sep r with
           | piece :: pieces => String c piece :: pieces
           | [] => [String c ""]
           end
  end.

(** [c.isspace()] for a character below 256 *)
Definition isspace (c : ascii) : bool :=
  let n := N_of_ascii c in
  (((9 <=? n) && (n <=? 13)) || ((28 <=? n) && (n <=? 32))
   || (n =? 133) || (n =? 160))%N.

Fixpoint lstrip (s : string) : string :=
  match s with
  | "" => ""
  | String c r => if isspace c then lstrip r else s
  end.

Fixpoint rstrip (s : string) : string :=
  match s with
  | "" => ""
  | String c r =>
      match rstrip r with
      | "" => if isspace c then "" else String c ""
      | r' => String c r'
      end
  end.

(** [s.strip()] *)
Definition strip (s : string) : string := rstrip (lstrip s).

(** *** Qt

    [event.key()] is an [int] and the members of [Qt.Key] are integers, so
    [Qt.Key.Key_0 <= key <= Qt.Key.Key_9] and [key == Qt.Key.Key_Return]
    compare integers.  The calls on the widgets ([setText], [setStyleSheet],
    [addItem] of a [str], [clear], [takeItem]) are taken to succeed. *)

Definition Key_0 : Z := 48.             (* Qt.Key.Key_0, 0x30 *)
Definition Key_9 : Z := 57.             (* Qt.Key.Key_9, 0x39 *)
Definition Key_Return : Z := 16777220.  (* Qt.Key.Key_Return, 0x01000004 *)

(** An event handed to [eventFilter]: a key press with [event.key()] and
    [event.text()], or an event of another type. *)
Inductive event : Type :=
| KeyPress (key : Z) (text : string)
| OtherEvent.

(** [self.port_combo.currentText()] *)
Definition currentText (w : window) : string :=
  nth (port_index w) (port_items w) "".

(** [self.port_combo.addItem(text)]: the first item of an empty combo box
    becomes the current one. *)
Definition combo_addItem (text : string) : W unit :=
  wmodify (fun w =>
             match port_items w with
             | [] => set_port_index 0 (set_port_items [text] w)
             | items => set_port_items (items ++ [text]) w
             end).

Definition set_text (on : widget) (text : string) : W unit :=
  wmodify (add_call (SetText on text)).

Definition set_style (on : widget) : W unit :=
  wmodify (add_call (SetStyleSheet on)).

(** [show_message_dialog] builds a dialog and runs it; the call is
    recorded. *)
Definition show_message_dialog (title message : string) (is_error : bool)
  : W unit :=
  wmodify (add_call (ShowMessageDialog title message is_error)).

(** [serial.Serial(port, baud, timeout=timeout)] *)
Definition serial_Serial (port : string) (baud timeout : Z) : W string :=
  wmodify (add_call (PortOpen port baud timeout)) ;;;
  fails <- wgets port_fails ;;
  match fails port with
  | Some msg => wraise (SerialException msg)
  | None => wret port
  end.

(** [str(e)]; only the message of [serial.Serial]'s exception is known. *)
Definition str_exn (e : wexn) : string :=
  match e with
  | SerialException msg => msg
  | _ => ""
  end.

(** *** The methods *)

Section Window.
Context {J : JsonLib}.

Definition enable_scanning : W unit :=
  com_text <- wgets currentText ;;
  if String.eqb com_text "" || contains "No ports" com_text then
    show_message_dialog "No Port" "Please select a valid COM port first."
      false
  else
    wtry
      (let port := before_sep " - " com_text in
       esp' <- serial_Serial port BAUD_RATE 1 ;;
       lift (modify (set_esp (Some esp'))) ;;;
       wmodify (add_call Sleep) ;;;
       wmodify (set_scanning_enabled true) ;;;
       set_text scan_label "SCANNING..." ;;;
       set_text scan_icon "🔍" ;;;
       set_text status_indicator "● Connected" ;;;
       set_style status_indicator ;;;
       set_text scan_control_btn "⏹ Stop Scanning" ;;;
       set_style scan_control_btn ;;;
       set_text connection_status ("Connected to " ++ port) ;;;
       set_style connection_status ;;;
       lift (add_activity "📡 Scanning started" "success"))
      (fun _ => true)
      (fun e =>
         set_text scan_label "CONNECTION FAILED" ;;;
         lift (add_activity
                 ("❌ Connection failed: " ++ substring 0 40 (str_exn e))
                 "error") ;;;
         show_message_dialog "Connection Error"
           ("Failed to connect:" ++ newline ++ str_exn e) true).

Definition disable_scanning : W unit :=
  wmodify (set_scanning_enabled false) ;;;
  port <- lift (gets esp) ;;
  match port with
  | Some p =>
      wmodify (add_call (PortClose p)) ;;;
      lift (modify (set_esp None))
  | None => wret tt
  end ;;;
  set_text scan_label "READY TO SCAN" ;;;
  set_text scan_icon "📱" ;;;
  set_text status_indicator "● Disconnected" ;;;
  set_style status_indicator ;;;
  set_text scan_control_btn "▶ Start Scanning" ;;;
  set_style scan_control_btn ;;;
  wmodify (set_buffer "") ;;;
  set_text tag_display "" ;;;
  lift (add_activity "⏹️ Scanning stopped" "info").

Definition toggle_scanning : W unit :=
  enabled <- wgets scanning_enabled ;;
  if enabled then disable_scanning else enable_scanning.

(** [eventFilter]; the value it returns is the one of
    [QMainWindow.eventFilter] and is left out. *)
Definition eventFilter (ev : event) : W unit :=
  enabled <- wgets scanning_enabled ;;
  match ev with
  | KeyPress key text =>
      if enabled then
        (if (Key_0 <=? key)%Z && (key <=? Key_9)%Z then
           buf <- wgets buffer ;;
           wmodify (set_buffer (buf ++ text)) ;;;
           buf' <- wgets buffer ;;
           set_text tag_display buf' ;;;
           set_text scan_icon "⌨️"
         else wret tt) ;;;
        (if (key =? Key_Return)%Z then
           tag <- wgets buffer ;;
           wmodify (set_buffer "") ;;;
           set_text tag_display "" ;;;
           lift (check_tag tag)
         else wret tt)
      else wret tt
  | OtherEvent => wret tt
  end.

Fixpoint for_each {A} (l : list A) (body : A -> W unit) : W unit :=
  match l with
  | [] => wret tt
  | x :: rest => body x ;;; for_each rest body
  end.

Definition refresh_ports : W unit :=
  wmodify (set_port_items []) ;;;
  ports <- wgets comports ;;
  match ports with
  | [] =>
      combo_addItem "No ports available" ;;;
      wmodify (set_port_enabled false)
  | _ =>
      for_each ports
        (fun p => combo_addItem (fst p ++ " - " ++ snd p)) ;;;
      wmodify (set_port_enabled true)
  end.

Definition add_new_tag : W unit :=
  text <- wgets new_tag_input ;;
  let tag := strip text in
  if String.eqb tag "" then
    show_message_dialog "Empty Tag" "Please enter a tag ID." false
  else
    tags <- lift (gets allowed_tags) ;;
    if py_in tag tags then
      show_message_dialog "Duplicate Tag" "This tag is already in the list."
        false
    else
      added <- lift (add_tag_to_json tag) ;;
      if added then
        items <- wgets tag_list ;;
        wmodify (set_tag_list (items ++ [tag])) ;;;
        wmodify (set_new_tag_input "") ;;;
        lift (add_activity ("➕ Tag added: " ++ tag) "info")
      else
        show_message_dialog "Error" "Failed to add tag to storage." false.

(** [self.tag_list.takeItem(row)] *)
Fixpoint take_item {A} (row : nat) (items : list A) : list A :=
  match items, row with
  | [], _ => []
  | _ :: rest, O => rest
  | x :: rest, S k => x :: take_item k rest
  end.

(** [on_yes], the slot of the YES button, for the selected item: its row
    and its text.  [except ValueError] catches [ValueError] and its
    subclasses. *)
Definition on_yes (row : nat) (tag : string) : W unit :=
  wtry
    (removed <- lift (remove_tag_from_json tag) ;;
     if removed then
       items <- wgets tag_list ;;
       wmodify (set_tag_list (take_item row items)) ;;;
       lift (add_activity ("🗑️ Tag removed: " ++ tag) "info")
     else
       lift (add_activity ("⚠️ Failed to remove: " ++ tag) "error"))
    (fun e => match e with
              | PyExn (ValueError | JSONDecodeError | UnicodeDecodeError) =>
                  true
              | _ => false
              end)
    (fun _ => wret tt).

(** [remove_selected_tag]: [current] is the row of
    [self.tag_list.currentItem()], if there is a current item, and [yes]
    tells whether the dialog is left by its YES button. *)
Definition remove_selected_tag (current : option nat) (yes : bool) : W unit :=
  items <- wgets tag_list ;;
  match current with
  | Some row =>
      match nth_error items row with
      | Some tag =>
          wmodify (add_call
                     (ConfirmDialog ("Remove tag '" ++ tag ++ "'?"))) ;;;
          if yes then on_yes row tag else wret tt
      | None => wret tt
      end
  | None => wret tt
  end.

Definition closeEvent : W unit :=
  port <- lift (gets esp) ;;
  match port with
  | Some p => wmodify (add_call (PortClose p))
  | None => wret tt
  end.

(** What can happen to the window between two of its states: an event
    reaches [eventFilter], a button is clicked, the user edits the tag input
    or picks a port, ports come and go. *)
Inductive action : Type :=
| Filter (ev : event)
| ClickScanControl                              (* toggle_scanning *)
| ClickRefresh                                  (* refresh_ports *)
| ClickAdd                                      (* add_new_tag *)
| ClickRemove (current : option nat) (yes : bool)
| EditTagInput (text : string)
| PickPort (index : nat)
| PortsChange (ports : list (string * string))
              (fails : string -> option string).

Definition set_ports (ports : list (string * string))
           (fails : string -> option string) (w : window) : window :=
  mkWindow (core w) (scanning_enabled w) (buffer w) (port_items w)
    (port_index w) (port_enabled w) (new_tag_input w) (tag_list w)
    ports fails (calls w).

Definition run_action (a : action) : W unit :=
  match a with
  | Filter ev => eventFilter ev
  | ClickScanControl => toggle_scanning
  | ClickRefresh => refresh_ports
  | ClickAdd => add_new_tag
  | ClickRemove current yes => remove_selected_tag current yes
  | EditTagInput text => wmodify (set_new_tag_input text)
  | PickPort index => wmodify (set_port_index index)
  | PortsChange ports fails => wmodify (set_ports ports fails)
  end.

End Window.

(** The text a run of events adds to the buffer: the texts of the presses
    of the keys [0] to [9]. *)
Definition digit_text (ev : event) : string :=
  match ev with
  | KeyPress key text =>
      if (Key_0 <=? key)%Z && (key <=? Key_9)%Z then text else ""
  | OtherEvent => ""
  end.

Fixpoint typed (evs : list event) : string :=
  match evs with
  | [] => ""
  | ev :: rest => digit_text ev ++ typed rest
  end.

Definition is_return (ev : event) : bool :=
  match ev with
  | KeyPress key _ => (key =? Key_Return)%Z
  | OtherEvent => false
  end.

(** The port is open exactly while scanning is on, and the buffer is empty
    while it is off. *)
Definition scanning_in_step (w : window) : Prop :=
  (scanning_enabled w = true -> esp (core w) <> None)
  /\ (scanning_enabled w = false ->
      esp (core w) = None /\ buffer w = ""%string).

(** The list widget shows the store: its items are the tags of the store,
    in order. *)
Definition list_shows_store (w : window) : Prop :=
  allowed_tags (core w) = map JStr (tag_list w).

(** A window for the examples: the default tags in the store and in the
    list, one port listed and selected, every port opening. *)
Definition example_window (scanning : bool) (port : option string)
           (typed_so_far : string) : window :=
  mkWindow (start default_tags port None true None) scanning typed_so_far
    ["COM3 - USB Serial"%string] 0 true ""
    ["0001234567"; "0009876543"; "0005555555"; "12345"; "67890"]%string
    [("COM3", "USB Serial")]%string (fun _ => None) [].

(** The presses of the keys [1] to [5], as a reader types [12345]. *)
Definition keys_12345 : list event :=
  [KeyPress 49 "1"; KeyPress 50 "2"; KeyPress 51 "3"; KeyPress 52 "4";
   KeyPress 53 "5"]%string.

(** *** The settings panel and start-up *)

Section SettingsPanel.
Context {J : JsonLib}.

(** What [self.tag_list.addItem(x)] does with an [x] that is not a [str]
    (Qt refuses an [int] with a [TypeError]) is left open: the methods below
    are written for any such behaviour. *)
Variable addItem_other : json -> W unit.

(** [self.tag_list.addItem(tag)] *)
Definition list_addItem (tag : json) : W unit :=
  match tag with
  | JStr s =>
      items <- wgets tag_list ;;
      wmodify (set_tag_list (items ++ [s]))
  | _ => addItem_other tag
  end.

Definition load_tags : W unit :=
  wmodify (set_tag_list []) ;;;
  tags <- lift (gets allowed_tags) ;;
  for_each tags list_addItem.

(** [open_settings_panel]; the change of page is left out. *)
Definition open_settings_panel : W unit :=
  refresh_ports ;;;
  load_tags.

(** [initUI], for the widgets the methods read: the combo box, the list and
    the line edit are created empty, in this order, with [refresh_ports] and
    [load_tags] called as each is ready; the layout, the labels, the style
    sheets and the connections of the signals are left out. *)
Definition initUI : W unit :=
  wmodify (set_port_enabled true) ;;;
  wmodify (set_port_items []) ;;;
  refresh_ports ;;;
  wmodify (set_tag_list []) ;;;
  load_tags ;;;
  wmodify (set_new_tag_input "").

(** [RFIDApp.__init__], run on a window of which only the environment (the
    file, the ports) counts. *)
Definition __init__ : W unit :=
  tags <- lift load_tags_from_json ;;
  lift (modify (set_allowed_tags tags)) ;;;
  wmodify (set_scanning_enabled false) ;;;
  wmodify (set_buffer "") ;;;
  lift (modify (set_esp None)) ;;;
  initUI.

(** The file, when it can be read and holds a JSON list, holds a list of
    strings. *)
Definition file_of_strings (s : state) : Prop :=
  forall text items,
    tags_file s = Some text -> can_read s = true ->
    json_loads text = Some (JArr items) ->
    exists l : list string, items = map JStr l.

End SettingsPanel.

(** The environment at start-up: the file and the ports; no attribute is
    set yet and nothing was called. *)
Definition before_start (file : option string) (readable : bool)
           (fault : option write_fault) (ports : list (string * string))
           (fails : string -> option string) : window :=
  mkWindow (start [] None file readable fault) false "" [] 0 true "" []
    ports fails [].

Local Close Scope win_scope.

(** *** The bodies of [add_activity] and [show_tag_result] *)

(** The colour [add_activity] gives an item, by [type_]. *)
Definition activity_color (type_ : string) : option string :=
  if String.eqb type_ "success" then Some "#1dd1a1"
  else if String.eqb type_ "error" then Some "#ff4757"
  else if String.eqb type_ "info" then Some "#70a1ff"
  else None.

(** [add_activity] on the items of [self.activity_list], each a text and a
    foreground colour; [timestamp] is [time.strftime("%H:%M:%S")]. *)
Definition activity_list_add (timestamp message type_ : string)
           (items : list (string * option string))
  : list (string * option string) :=
  let item := ("[" ++ timestamp ++ "] " ++ message, activity_color type_) in
  let items' := item :: items in
  if Nat.ltb 6 (List.length items') then take_item 6 items' else items'.

(** What [show_tag_result] puts on the labels: the text and colour of
    [scan_label], the text of [scan_icon] and the text of [tag_display];
    [None] stands for the [IndexError] of [text.split('\n')[1]]. *)
Record tag_result : Type := mkTagResult {
  result_status : string;
  result_color : string;
  result_icon : string;
  result_tag : string
}.

Definition show_tag_result_labels (text : string) (success : bool)
  : option tag_result :=
  let color := if success then "#1dd1a1" else "#ff4757" in
  let icon := if success then "✅" else "❌" in
  let status := if success then "ACCESS GRANTED" else "ACCESS DENIED" in
  if contains newline text then
    match nth_error (split_char "010"%char text) 1 with
    | Some tag_id => Some (mkTagResult status color icon tag_id)
    | None => None
    end
  else Some (mkTagResult status color icon "").


(* ------------------------------------------------------------------ *)
(** * The reference [json] module reads back the tag lists it writes *)

Lemma append_assoc (a b c : string) : (a ++ b) ++ c = a ++ (b ++ c).
Proof.
  induction a as [|x a IH]; simpl; [reflexivity | now rewrite IH].
Qed.

Lemma length_append (a b : string) :
  String.length (a ++ b) = String.length a + String.length b.
Proof.
  induction a as [|x a IH]; simpl; [reflexivity | now rewrite IH].
Qed.

(** Whatever [escape_char] writes for a character, [scanstring] reads as that
    character. *)
Lemma scanstring_escape_char (c : ascii) (tail : string) :
  scanstring (escape_char c ++ tail) =
  match scanstring tail with
  | Some (str, rest) => Some (String c str, rest)
  | None => None
  end.
Proof.
  destruct c as [[] [] [] [] [] [] [] []]; reflexivity.
Qed.

Lemma scanstring_escape (s rest : string) :
  scanstring (escape s ++ String dquote rest) = Some (s, rest).
Proof.
  induction s as [|c s IH]; simpl.
  - reflexivity.
  - rewrite append_assoc, scanstring_escape_char, IH. reflexivity.
Qed.

Lemma scan_once_string (fuel : nat) (s rest : string) :
  1 <= fuel ->
  scan_once fuel (encode_basestring_ascii s ++ rest) = Return (JStr s, rest).
Proof.
  intros Hfuel. destruct fuel as [|fuel]; [lia|].
  unfold encode_basestring_ascii. cbn [append scan_once].
  rewrite Ascii.eqb_refl. unfold scan_string.
  rewrite append_assoc. cbn [append].
  rewrite scanstring_escape. reflexivity.
Qed.

Lemma py_dumps_tags (t : string) (ts : list string) :
  py_dumps (JArr (map JStr (t :: ts))) =
  "[" ++ newline_indent 1 ++ encode_basestring_ascii t
  ++ more_items ts ++ newline_indent 0 ++ "]".
Proof.
  unfold py_dumps. cbn [iterencode map].
  match goal with
  | |- context [?F (map JStr ts)] =>
      assert (H : forall l, F (map JStr l) = more_items l)
  end.
  { induction l as [|u l IH]; cbn [map more_items]; [reflexivity|].
    rewrite IH. reflexivity. }
  rewrite H. reflexivity.
Qed.

Lemma skip_ws_indent_string (n : nat) (t rest : string) :
  skip_ws (newline_indent n ++ encode_basestring_ascii t ++ rest)
  = encode_basestring_ascii t ++ rest.
Proof.
  unfold newline_indent. cbn [newline append skip_ws].
  change (is_ws "010") with true. cbv iota.
  induction (2 * n) as [|k IH]; [reflexivity | exact IH].
Qed.

Lemma array_items_tags (ts : list string) :
  forall (t : string) (fuel : nat) (rest : string),
    2 + List.length ts <= fuel ->
    array_items fuel
      (encode_basestring_ascii t ++ more_items ts ++ newline_indent 0
       ++ String "]" rest)
    = Return (JStr t :: map JStr ts, rest).
Proof.
  induction ts as [|u ts IH]; intros t fuel rest Hfuel.
  - destruct fuel as [|fuel]; simpl in Hfuel; try lia.
    cbn [array_items]. rewrite scan_once_string by lia. reflexivity.
  - destruct fuel as [|fuel]; simpl in Hfuel; try lia.
    cbn [array_items]. rewrite scan_once_string by lia.
    cbn [more_items]. rewrite !append_assoc.
    cbn [append skip_ws]. change (is_ws ",") with false. cbv iota.
    change (Ascii.eqb "," "]") with false.
    change (Ascii.eqb "," ",") with true. cbv iota.
    rewrite skip_ws_indent_string.
    rewrite IH by lia. reflexivity.
Qed.

Lemma length_more_items (ts : list string) :
  List.length ts <= String.length (more_items ts).
Proof.
  induction ts as [|t ts IH]; simpl; [lia|].
  rewrite append_assoc, !length_append. lia.
Qed.

Lemma scan_once_array (fuel : nat) (r : string) :
  scan_once (S fuel) (String "[" r) = JSONArray fuel r.
Proof. reflexivity. Qed.

Lemma JSONArray_tags (fuel : nat) (t : string) (ts : list string)
      (rest : string) :
  3 + List.length ts <= fuel ->
  JSONArray fuel
    (newline_indent 1 ++ encode_basestring_ascii t ++ more_items ts
     ++ newline_indent 0 ++ String "]" rest)
  = Return (JArr (map JStr (t :: ts)), rest).
Proof.
  intros Hfuel. destruct fuel as [|fuel]; [lia|].
  cbn [JSONArray]. rewrite skip_ws_indent_string.
  unfold encode_basestring_ascii at 1. cbn [append].
  change (Ascii.eqb dquote "]") with false. cbv iota.
  change (String dquote ((escape t ++ String dquote "") ++ ?x))
    with (encode_basestring_ascii t ++ x).
  rewrite array_items_tags by lia. reflexivity.
Qed.

Theorem py_loads_dumps_tags (tags : list string) :
  py_loads (py_dumps (JArr (map JStr tags))) = Return (JArr (map JStr tags)).
Proof.
  destruct tags as [|t ts]; [reflexivity|].
  rewrite py_dumps_tags. unfold py_loads.
  set (body := newline_indent 1 ++ encode_basestring_ascii t
               ++ more_items ts ++ newline_indent 0 ++ "]").
  change ("[" ++ body) with (String "[" body).
  assert (Hlen : List.length ts <= String.length body).
  { unfold body. rewrite !length_append.
    pose proof (length_more_items ts). lia. }
  change (skip_ws (String "[" body)) with (String "[" body).
  cbn [String.length].
  replace (3 * S (String.length body) + 3)
    with (S (3 * String.length body + 5)) by lia.
  rewrite scan_once_array. unfold body in *.
  change "]" with (String "]" "").
  rewrite JSONArray_tags by lia. reflexivity.
Qed.

(* ------------------------------------------------------------------ *)
(** * The reference decoder never lacks fuel *)

Lemma skip_ws_length (s : string) :
  String.length (skip_ws s) <= String.length s.
Proof.
  induction s as [|c s IH]; cbn [skip_ws String.length]; [lia|].
  destruct (is_ws c); cbn [String.length]; lia.
Qed.

Lemma skip_ws_head (s : string) (c : ascii) (rest : string) :
  skip_ws s = String c rest -> String.length rest < String.length s.
Proof.
  intros H. pose proof (skip_ws_length s) as Hl. rewrite H in Hl.
  cbn [String.length] in Hl. lia.
Qed.

Lemma scanstring_length (n : nat) :
  forall s str r,
    String.length s <= n -> scanstring s = Some (str, r) ->
    String.length r < String.length s.
Proof.
  induction n as [|n IH]; intros s str r Hn H.
  - destruct s; [discriminate | cbn [String.length] in Hn; lia].
  - destruct s as [|c s]; [discriminate|].
    cbn [scanstring] in H. cbn [String.length] in *.
    destruct (Ascii.eqb c dquote).
    { injection H as _ <-. lia. }
    destruct (Ascii.eqb c backslash).
    { destruct s as [|e s1]; [discriminate|]. cbn [String.length] in *.
      destruct (Ascii.eqb e "u").
      - destruct s1 as [|h1 [|h2 [|h3 [|h4 r2]]]]; try discriminate.
        cbn [String.length] in *.
        destruct (decode_uXXXX h1 h2 h3 h4); [|discriminate].
        destruct (scanstring r2) as [[str' rest']|] eqn:Hr; [|discriminate].
        injection H as _ <-. apply IH in Hr; lia.
      - destruct (unescape e); [|discriminate].
        destruct (scanstring s1) as [[str' rest']|] eqn:Hr; [|discriminate].
        injection H as _ <-. apply IH in Hr; lia. }
    destruct (N_of_ascii c <? 32)%N; [discriminate|].
    destruct (scanstring s) as [[str' rest']|] eqn:Hr; [|discriminate].
    injection H as _ <-. apply IH in Hr; lia.
Qed.

Lemma span_digits_length (s : string) :
  forall d r, span_digits s = (d, r) -> String.length r <= String.length s.
Proof.
  induction s as [|c s IH]; intros d r H; cbn [span_digits] in H.
  - injection H as _ <-. lia.
  - destruct (is_digit c).
    + destruct (span_digits s) as [d' r'] eqn:Hs. injection H as _ <-.
      specialize (IH d' r' eq_refl). cbn [String.length]. lia.
    + injection H as _ <-. lia.
Qed.

Lemma strip_prefix_length (p : string) :
  forall s r, strip_prefix p s = Some r ->
              String.length s = String.length p + String.length r.
Proof.
  induction p as [|a p IH]; intros s r H.
  - destruct s; injection H as <-; reflexivity.
  - destruct s as [|b s]; [discriminate|]. cbn [strip_prefix] in H.
    destruct (Ascii.eqb a b); [|discriminate].
    apply IH in H. cbn [String.length]. lia.
Qed.

Lemma match_integer_length (s : string) neg d r :
  match_integer s = Some (neg, d, r) -> String.length r < String.length s.
Proof.
  unfold match_integer. intros H.
  assert (Hgen : forall s1 n,
             String.length s1 <= String.length s ->
             match s1 with
             | "" => None
             | String c r0 =>
                 if Ascii.eqb c "0" then Some (n, "0"%string, r0)
                 else if is_digit c then
                   let (d0, rest) := span_digits s1 in Some (n, d0, rest)
                 else None
             end = Some (neg, d, r) ->
             String.length r < String.length s).
  { intros s1 n Hle H1. destruct s1 as [|c r0]; [discriminate|].
    cbn [String.length] in Hle.
    destruct (Ascii.eqb c "0").
    - injection H1 as _ _ <-. lia.
    - destruct (is_digit c) eqn:Hd; [|discriminate].
      cbn [span_digits] in H1. rewrite Hd in H1.
      destruct (span_digits r0) as [d' r'] eqn:Hs.
      injection H1 as _ _ <-. apply span_digits_length in Hs. lia. }
  destruct s as [|c s']; [discriminate|].
  destruct (Ascii.eqb c "-").
  - apply (Hgen s' true); [cbn [String.length]; lia | exact H].
  - apply (Hgen (String c s') false); [lia | exact H].
Qed.

Lemma match_frac_length (s f r : string) :
  match_frac s = (f, r) -> String.length r <= String.length s.
Proof.
  unfold match_frac. intros H. destruct s as [|c s'].
  - injection H as _ <-. lia.
  - destruct (Ascii.eqb c ".").
    + destruct (span_digits s') as [d rest] eqn:Hs.
      apply span_digits_length in Hs. cbn [String.length].
      destruct d; injection H as _ <-; cbn [String.length]; lia.
    + injection H as _ <-. lia.
Qed.

Lemma match_exp_length (s e r : string) :
  match_exp s = (e, r) -> String.length r <= String.length s.
Proof.
  unfold match_exp. intros H. destruct s as [|c s'].
  - injection H as _ <-. lia.
  - destruct (Ascii.eqb c "e" || Ascii.eqb c "E").
    + destruct s' as [|c' r'];
        [|destruct (Ascii.eqb c' "-" || Ascii.eqb c' "+")];
        cbv beta iota in H;
        match type of H with
        | context [span_digits ?x] =>
            destruct (span_digits x) as [d rest] eqn:Hs
        end;
        apply span_digits_length in Hs;
        destruct d; injection H as _ <-; cbn [String.length] in *; lia.
    + injection H as _ <-. lia.
Qed.

Lemma match_number_length (s : string) (v : json) (r : string) :
  match_number s = Some (Return (v, r)) ->
  String.length r < String.length s.
Proof.
  unfold match_number. intros H.
  destruct (match_integer s) as [[[neg d] r0]|] eqn:Hi; [|discriminate].
  apply match_integer_length in Hi.
  destruct (match_frac r0) as [frac r1] eqn:Hf.
  apply match_frac_length in Hf.
  destruct (match_exp r1) as [exp r2] eqn:He.
  apply match_exp_length in He.
  destruct frac; destruct exp;
    try destruct (Nat.ltb int_max_str_digits (String.length d));
    try discriminate; injection H as _ <-; lia.
Qed.

Lemma scan_atom_length (s : string) (v : json) (r : string) :
  scan_atom s = Return (v, r) -> String.length r < String.length s.
Proof.
  unfold scan_atom. intros H.
  repeat match type of H with
         | context [strip_prefix ?p s] =>
             let Hp := fresh "Hp" in
             destruct (strip_prefix p s) eqn:Hp;
             [apply strip_prefix_length in Hp; cbn [String.length] in Hp|]
         | context [match_number s] =>
             let Hm := fresh "Hm" in
             destruct (match_number s) as [[[v' r']|e]|] eqn:Hm;
             [apply match_number_length in Hm| |]
         end;
    try discriminate; injection H as _ <-; lia.
Qed.

(** A successful run of the decoder consumes text, and succeeds the same way
    with any fuel above three units per character consumed. *)
Lemma decoder_fuel (fuel : nat) :
  (forall s v r,
      scan_once fuel s = Return (v, r) ->
      String.length r < String.length s
      /\ forall f, 3 * (String.length s - String.length r) <= f ->
                   scan_once f s = Return (v, r))
  /\ (forall s v r,
         JSONArray fuel s = Return (v, r) ->
         String.length r < String.length s
         /\ forall f, 3 * (String.length s - String.length r) + 2 <= f ->
                      JSONArray f s = Return (v, r))
  /\ (forall s vs r,
         array_items fuel s = Return (vs, r) ->
         String.length r < String.length s
         /\ forall f, 3 * (String.length s - String.length r) + 1 <= f ->
                      array_items f s = Return (vs, r))
  /\ (forall s v r,
         JSONObject fuel s = Return (v, r) ->
         String.length r < String.length s
         /\ forall f, 3 * (String.length s - String.length r) + 2 <= f ->
                      JSONObject f s = Return (v, r))
  /\ (forall s ps r,
         object_items fuel s = Return (ps, r) ->
         String.length r < String.length s
         /\ forall f, 3 * (String.length s - String.length r) + 1 <= f ->
                      object_items f s = Return (ps, r)).
Proof.
  induction fuel as [|fuel [IHscan [IHarr [IHitems [IHobj IHpairs]]]]].
  { repeat split; intros; discriminate. }
  split; [|split; [|split; [|split]]].
  - (* scan_once *)
    intros s v r H. destruct s as [|c s0]; [discriminate|].
    cbn [scan_once] in H. cbn [String.length].
    destruct (Ascii.eqb c dquote) eqn:Eq.
    { unfold scan_string in H.
      destruct (scanstring s0) as [[str rest]|] eqn:Hs; [|discriminate].
      injection H as <- <-.
      pose proof (scanstring_length _ _ _ _ (le_n _) Hs) as Hl.
      split; [lia|]. intros f Hf. destruct f as [|f]; [lia|].
      cbn [scan_once]. rewrite Eq. unfold scan_string. now rewrite Hs. }
    destruct (Ascii.eqb c "{") eqn:Eo.
    { destruct (IHobj _ _ _ H) as [Hl Hf]. split; [lia|].
      intros f Hle. destruct f as [|f]; [lia|].
      cbn [scan_once]. rewrite Eq, Eo. apply Hf. lia. }
    destruct (Ascii.eqb c "[") eqn:Ea.
    { destruct (IHarr _ _ _ H) as [Hl Hf]. split; [lia|].
      intros f Hle. destruct f as [|f]; [lia|].
      cbn [scan_once]. rewrite Eq, Eo, Ea. apply Hf. lia. }
    pose proof (scan_atom_length _ _ _ H) as Hl.
    cbn [String.length] in Hl. split; [lia|].
    intros f Hle. destruct f as [|f]; [lia|].
    cbn [scan_once]. rewrite Eq, Eo, Ea. exact H.
  - (* JSONArray *)
    intros s v r H. cbn [JSONArray] in H.
    destruct (skip_ws s) as [|c rest] eqn:Hw; [discriminate|].
    pose proof (skip_ws_head _ _ _ Hw) as Hrest.
    destruct (Ascii.eqb c "]") eqn:Ec.
    { injection H as <- <-. split; [lia|].
      intros f Hle. destruct f as [|f]; [lia|].
      cbn [JSONArray]. now rewrite Hw, Ec. }
    destruct (array_items fuel (String c rest)) as [[vs r']|e] eqn:Hi;
      [|discriminate].
    injection H as <- <-. destruct (IHitems _ _ _ Hi) as [Hl Hf].
    cbn [String.length] in Hl, Hf. split; [lia|].
    intros f Hle. destruct f as [|f]; [lia|].
    cbn [JSONArray]. rewrite Hw, Ec, Hf by lia. reflexivity.
  - (* array_items *)
    intros s vs r H. cbn [array_items] in H.
    destruct (scan_once fuel s) as [[value r1]|e] eqn:Hv; [|discriminate].
    destruct (IHscan _ _ _ Hv) as [Hl1 Hf1].
    destruct (skip_ws r1) as [|c rest] eqn:Hw; [discriminate|].
    pose proof (skip_ws_head _ _ _ Hw) as Hrest.
    destruct (Ascii.eqb c "]") eqn:Ec.
    { injection H as <- <-. split; [lia|].
      intros f Hle. destruct f as [|f]; [lia|].
      cbn [array_items]. rewrite Hf1 by lia. now rewrite Hw, Ec. }
    destruct (Ascii.eqb c ",") eqn:Ek; [|discriminate].
    destruct (array_items fuel (skip_ws rest)) as [[vs' r']|e] eqn:Hi;
      [|discriminate].
    injection H as <- <-. destruct (IHitems _ _ _ Hi) as [Hl Hf].
    pose proof (skip_ws_length rest) as Hrest'. split; [lia|].
    intros f Hle. destruct f as [|f]; [lia|].
    cbn [array_items]. rewrite Hf1 by lia. rewrite Hw, Ec, Ek.
    rewrite Hf by lia. reflexivity.
  - (* JSONObject *)
    intros s v r H. cbn [JSONObject] in H.
    destruct (skip_ws s) as [|c rest] eqn:Hw; [discriminate|].
    pose proof (skip_ws_head _ _ _ Hw) as Hrest.
    destruct (Ascii.eqb c "}") eqn:Ec.
    { injection H as <- <-. split; [lia|].
      intros f Hle. destruct f as [|f]; [lia|].
      cbn [JSONObject]. now rewrite Hw, Ec. }
    destruct (object_items fuel (String c rest)) as [[ps r']|e] eqn:Hi;
      [|discriminate].
    injection H as <- <-. destruct (IHpairs _ _ _ Hi) as [Hl Hf].
    cbn [String.length] in Hl, Hf. split; [lia|].
    intros f Hle. destruct f as [|f]; [lia|].
    cbn [JSONObject]. rewrite Hw, Ec, Hf by lia. reflexivity.
  - (* object_items *)
    intros s ps r H. destruct s as [|q s0]; [discriminate|].
    cbn [object_items] in H. cbn [String.length].
    destruct (Ascii.eqb q dquote) eqn:Eq; [|discriminate].
    destruct (scanstring s0) as [[key r1]|] eqn:Hs; [|discriminate].
    pose proof (scanstring_length _ _ _ _ (le_n _) Hs) as Hkey.
    destruct (skip_ws r1) as [|c r2] eqn:Hw1; [discriminate|].
    pose proof (skip_ws_head _ _ _ Hw1) as Hr2.
    destruct (Ascii.eqb c ":") eqn:Ec; [|discriminate].
    destruct (scan_once fuel (skip_ws r2)) as [[value r3]|e] eqn:Hv;
      [|discriminate].
    destruct (IHscan _ _ _ Hv) as [Hl3 Hf3].
    pose proof (skip_ws_length r2) as Hr2'.
    destruct (skip_ws r3) as [|c' r4] eqn:Hw3; [discriminate|].
    pose proof (skip_ws_head _ _ _ Hw3) as Hr4.
    destruct (Ascii.eqb c' "}") eqn:Ee.
    { injection H as <- <-. split; [lia|].
      intros f Hle. destruct f as [|f]; [lia|].
      cbn [object_items]. rewrite Eq, Hs, Hw1, Ec.
      rewrite Hf3 by lia. now rewrite Hw3, Ee. }
    destruct (Ascii.eqb c' ",") eqn:Ek; [|discriminate].
    destruct (object_items fuel (skip_ws r4)) as [[ps' r']|e] eqn:Hi;
      [|discriminate].
    injection H as <- <-. destruct (IHpairs _ _ _ Hi) as [Hl Hf].
    pose proof (skip_ws_length r4) as Hr4'. split; [lia|].
    intros f Hle. destruct f as [|f]; [lia|].
    cbn [object_items]. rewrite Eq, Hs, Hw1, Ec.
    rewrite Hf3 by lia. rewrite Hw3, Ee, Ek.
    rewrite Hf by lia. reflexivity.
Qed.

Lemma scan_string_raises (s : string) (e : exn) :
  scan_string s = Raise e -> e = JSONDecodeError.
Proof.
  unfold scan_string. destruct (scanstring s) as [[str rest]|];
    [discriminate | now intros [= <-]].
Qed.

(** An exception other than [JSONDecodeError] is raised the same way with
    any fuel above three units per character of the text. *)
Lemma decoder_fuel_raise (fuel : nat) :
  (forall s e,
      scan_once fuel s = Raise e -> e <> JSONDecodeError ->
      forall f, 3 * String.length s <= f -> scan_once f s = Raise e)
  /\ (forall s e,
         JSONArray fuel s = Raise e -> e <> JSONDecodeError ->
         forall f, 3 * String.length s + 2 <= f -> JSONArray f s = Raise e)
  /\ (forall s e,
         array_items fuel s = Raise e -> e <> JSONDecodeError ->
         forall f, 3 * String.length s + 1 <= f ->
                   array_items f s = Raise e)
  /\ (forall s e,
         JSONObject fuel s = Raise e -> e <> JSONDecodeError ->
         forall f, 3 * String.length s + 2 <= f -> JSONObject f s = Raise e)
  /\ (forall s e,
         object_items fuel s = Raise e -> e <> JSONDecodeError ->
         forall f, 3 * String.length s + 1 <= f ->
                   object_items f s = Raise e).
Proof.
  induction fuel as [|fuel [IHscan [IHarr [IHitems [IHobj IHpairs]]]]].
  { repeat split; intros s e H He; cbn in H; injection H as <-;
      now elim He. }
  destruct (decoder_fuel fuel) as [Hscan _].
  split; [|split; [|split; [|split]]].
  - (* scan_once *)
    intros s e H He f Hf. destruct s as [|c s0].
    { cbn in H. injection H as <-. now elim He. }
    cbn [scan_once] in H. cbn [String.length] in Hf.
    destruct f as [|f]; [lia|]. cbn [scan_once].
    destruct (Ascii.eqb c dquote).
    { apply scan_string_raises in H. now elim He. }
    destruct (Ascii.eqb c "{"); [apply (IHobj _ _ H He); lia|].
    destruct (Ascii.eqb c "["); [apply (IHarr _ _ H He); lia|].
    exact H.
  - (* JSONArray *)
    intros s e H He f Hf. cbn [JSONArray] in H.
    destruct f as [|f]; [lia|]. cbn [JSONArray].
    pose proof (skip_ws_length s) as Hs.
    destruct (skip_ws s) as [|c rest] eqn:Hw.
    { injection H as <-. now elim He. }
    destruct (Ascii.eqb c "]"); [discriminate|].
    destruct (array_items fuel (String c rest)) as [[vs r']|e'] eqn:Hi;
      [discriminate|].
    injection H as ->.
    rewrite (IHitems _ _ Hi He) by lia. reflexivity.
  - (* array_items *)
    intros s e H He f Hf. cbn [array_items] in H.
    destruct f as [|f]; [lia|]. cbn [array_items].
    destruct (scan_once fuel s) as [[value r1]|e'] eqn:Hv.
    + destruct (Hscan _ _ _ Hv) as [Hl1 Hf1]. rewrite Hf1 by lia.
      destruct (skip_ws r1) as [|c rest] eqn:Hw.
      { injection H as <-. now elim He. }
      pose proof (skip_ws_head _ _ _ Hw) as Hrest.
      pose proof (skip_ws_length rest) as Hrest'.
      destruct (Ascii.eqb c "]"); [discriminate|].
      destruct (Ascii.eqb c ",").
      * destruct (array_items fuel (skip_ws rest)) as [[vs' r']|e'] eqn:Hi;
          [discriminate|].
        injection H as ->.
        rewrite (IHitems _ _ Hi He) by lia. reflexivity.
      * injection H as <-. now elim He.
    + injection H as ->. rewrite (IHscan _ _ Hv He) by lia. reflexivity.
  - (* JSONObject *)
    intros s e H He f Hf. cbn [JSONObject] in H.
    destruct f as [|f]; [lia|]. cbn [JSONObject].
    pose proof (skip_ws_length s) as Hs.
    destruct (skip_ws s) as [|c rest] eqn:Hw.
    { injection H as <-. now elim He. }
    destruct (Ascii.eqb c "}"); [discriminate|].
    destruct (object_items fuel (String c rest)) as [[ps r']|e'] eqn:Hi;
      [discriminate|].
    injection H as ->.
    rewrite (IHpairs _ _ Hi He) by lia. reflexivity.
  - (* object_items *)
    intros s e H He f Hf. destruct s as [|q s0].
    { cbn in H. injection H as <-. now elim He. }
    cbn [object_items] in H. cbn [String.length] in Hf.
    destruct f as [|f]; [lia|]. cbn [object_items].
    destruct (Ascii.eqb q dquote);
      [|injection H as <-; now elim He].
    destruct (scanstring s0) as [[key r1]|] eqn:Hs;
      [|injection H as <-; now elim He].
    pose proof (scanstring_length _ _ _ _ (le_n _) Hs) as Hkey.
    destruct (skip_ws r1) as [|c r2] eqn:Hw1;
      [injection H as <-; now elim He|].
    pose proof (skip_ws_head _ _ _ Hw1) as Hr2.
    pose proof (skip_ws_length r2) as Hr2'.
    destruct (Ascii.eqb c ":"); [|injection H as <-; now elim He].
    destruct (scan_once fuel (skip_ws r2)) as [[value r3]|e'] eqn:Hv.
    + destruct (Hscan _ _ _ Hv) as [Hl3 Hf3]. rewrite Hf3 by lia.
      destruct (skip_ws r3) as [|c' r4] eqn:Hw3;
        [injection H as <-; now elim He|].
      pose proof (skip_ws_head _ _ _ Hw3) as Hr4.
      pose proof (skip_ws_length r4) as Hr4'.
      destruct (Ascii.eqb c' "}"); [discriminate|].
      destruct (Ascii.eqb c' ",").
      * destruct (object_items fuel (skip_ws r4)) as [[ps' r']|e'] eqn:Hi;
          [discriminate|].
        injection H as ->.
        rewrite (IHpairs _ _ Hi He) by lia. reflexivity.
      * injection H as <-. now elim He.
    + injection H as ->. rewrite (IHscan _ _ Hv He) by lia. reflexivity.
Qed.

(** If the decoder can read a text with some fuel, [py_loads] reads it, and
    if it raises another exception than [JSONDecodeError] with some fuel,
    [py_loads] raises it: a [JSONDecodeError] of [py_loads] is a text that
    is not JSON, never a lack of fuel. *)
Theorem py_loads_enough_fuel (fuel : nat) (s : string) (v : json)
        (rest : string) :
  scan_once fuel (skip_ws s) = Return (v, rest) ->
  skip_ws rest = ""%string ->
  py_loads s = Return v.
Proof.
  intros Hscan Hrest.
  destruct (proj1 (decoder_fuel fuel) _ _ _ Hscan) as [Hl Hf].
  pose proof (skip_ws_length s) as Hs.
  unfold py_loads. rewrite Hf by lia. now rewrite Hrest.
Qed.

Theorem py_loads_raises (fuel : nat) (s : string) (e : exn) :
  scan_once fuel (skip_ws s) = Raise e -> e <> JSONDecodeError ->
  py_loads s = Raise e.
Proof.
  intros Hscan He.
  pose proof (skip_ws_length s) as Hs.
  unfold py_loads.
  rewrite (proj1 (decoder_fuel_raise fuel) _ _ Hscan He) by lia.
  reflexivity.
Qed.

(** The reference module as an instance of the interface. *)
Lemma py_loads_value_dumps_tags (tags : list string) :
  py_loads_value (py_dumps (JArr (map JStr tags)))
  = Some (JArr (map JStr tags)).
Proof.
  unfold py_loads_value. now rewrite py_loads_dumps_tags.
Qed.

#[export] Instance py_json : JsonLib := {|
  json_loads := py_loads_value;
  json_error := py_loads_error;
  json_dumps := py_dumps;
  loads_dumps_tags := py_loads_value_dumps_tags
|}.

(* ------------------------------------------------------------------ *)
(** * The tag store and the access check *)

Local Open Scope list_scope.

Section StoreFacts.
Context {J : JsonLib}.

(** ** Membership and removal *)

Lemma py_in_In (tag : string) (tags : list json) :
  py_in tag tags = true <-> In (JStr tag) tags.
Proof.
  unfold py_in. rewrite existsb_exists. split.
  - intros [x [Hx Heq]]. destruct x; try discriminate.
    apply String.eqb_eq in Heq. now subst.
  - intros Hin. exists (JStr tag). split; [assumption|].
    apply String.eqb_refl.
Qed.

Lemma py_in_not_In (tag : string) (tags : list json) :
  py_in tag tags = false <-> ~ In (JStr tag) tags.
Proof.
  rewrite <- py_in_In. destruct (py_in tag tags); split; intros H;
    try reflexivity; try discriminate; try (intros H'; discriminate).
  exfalso. now apply H.
Qed.

Lemma eq_str_true (x : json) (tag : string) :
  eq_str x tag = true <-> x = JStr tag.
Proof.
  destruct x; simpl; split; intros H; try discriminate.
  - apply String.eqb_eq in H. now subst.
  - injection H as ->. apply String.eqb_refl.
Qed.

(** [tags.remove(tag)] on a list that holds [tag] cuts out its first
    occurrence, and nothing else. *)
Lemma list_remove_present (tag : string) (tags : list json) :
  In (JStr tag) tags ->
  exists before after,
    tags = before ++ JStr tag :: after /\
    ~ In (JStr tag) before /\
    list_remove tag tags = Some (before ++ after).
Proof.
  induction tags as [|x tags IH]; intros Hin; [destruct Hin|].
  simpl. destruct (eq_str x tag) eqn:Hx.
  - apply eq_str_true in Hx. subst x.
    exists [], tags. repeat split; auto.
  - destruct Hin as [Heq | Hin].
    + subst x. simpl in Hx. rewrite String.eqb_refl in Hx. discriminate.
    + destruct (IH Hin) as [before [after [Htags [Hnot Hrem]]]].
      exists (x :: before), after. rewrite Hrem, Htags.
      repeat split; auto.
      intros [Heq | Hin']; [|contradiction].
      subst x. simpl in Hx. rewrite String.eqb_refl in Hx. discriminate.
Qed.

Lemma list_remove_absent (tag : string) (tags : list json) :
  ~ In (JStr tag) tags -> list_remove tag tags = None.
Proof.
  induction tags as [|x tags IH]; intros Hnot; [reflexivity|].
  simpl. destruct (eq_str x tag) eqn:Hx.
  - apply eq_str_true in Hx. subst x. exfalso. apply Hnot. now left.
  - rewrite IH; [reflexivity|]. intros Hin. apply Hnot. now right.
Qed.

Lemma NoDup_cut {A} (before after : list A) (x : A) :
  NoDup (before ++ x :: after) ->
  NoDup (before ++ after) /\ ~ In x (before ++ after).
Proof.
  intros H. split.
  - eapply NoDup_remove_1; eassumption.
  - eapply NoDup_remove_2; eassumption.
Qed.

Lemma NoDup_snoc {A} (l : list A) (x : A) :
  NoDup l -> ~ In x l -> NoDup (l ++ [x]).
Proof.
  intros Hl Hx. induction Hl as [|y l Hy Hl IH]; simpl.
  - constructor; [intros []|constructor].
  - constructor.
    + rewrite in_app_iff. intros [H | [H | []]]; [contradiction|].
      subst. apply Hx. now left.
    + apply IH. intros H. apply Hx. now right.
Qed.

(** ** The methods, case by case *)

(** Unfolds the monad and the primitives, then uses the given facts about
    the state one after the other. *)
Ltac run_method :=
  unfold load_tags_from_json, add_tag_to_json, remove_tag_from_json,
    json_load, try_except, bind, os_path_exists, open_r, raise, print,
    gets, modify, ret;
  cbv beta iota.

Ltac given H := repeat (rewrite H; cbv beta iota).

Lemma save_tags_to_json_eq (tags : list json) (s : state) :
  save_tags_to_json tags s =
  (Return tt,
   match on_write s with
   | None => set_tags_file (Some (json_dumps (JArr tags))) s
   | Some OpenRefused => add_stdout (ErrorSavingTags IOError) s
   | Some (WriteCut n) =>
       add_stdout (ErrorSavingTags IOError)
         (set_tags_file (Some (substring 0 n (json_dumps (JArr tags)))) s)
   end).
Proof.
  unfold save_tags_to_json, try_except, open_w.
  destruct (on_write s) as [[|n]|]; reflexivity.
Qed.

Lemma load_missing (s : state) :
  tags_file s = None ->
  load_tags_from_json s =
  (Return default_tags, snd (save_tags_to_json default_tags s)).
Proof.
  intros Hfile.
  run_method. given Hfile. given save_tags_to_json_eq. reflexivity.
Qed.

Lemma load_array (s : state) (text : string) (items : list json) :
  tags_file s = Some text -> can_read s = true ->
  json_loads text = Some (JArr items) ->
  load_tags_from_json s = (Return items, s).
Proof.
  intros Hfile Hread Hjson.
  run_method. given Hfile. given Hread. given Hjson. reflexivity.
Qed.

Lemma load_not_array (s : state) (text : string) (v : json) :
  tags_file s = Some text -> can_read s = true ->
  json_loads text = Some v -> (forall items, v <> JArr items) ->
  load_tags_from_json s =
  (Return default_tags, snd (save_tags_to_json default_tags s)).
Proof.
  intros Hfile Hread Hjson Hv.
  run_method. given Hfile. given Hread. given Hjson.
  destruct v; try (given save_tags_to_json_eq; reflexivity).
  exfalso. now apply (Hv items).
Qed.

(** [json.load] raises: an exception of the handler's classes is printed
    and the defaults are saved and returned; any other goes through, with
    nothing printed or written. *)
Lemma load_json_raises (s : state) (text : string) :
  tags_file s = Some text -> can_read s = true ->
  json_loads text = None ->
  load_tags_from_json s =
  if caught_on_load (json_error text)
  then (Return default_tags,
        snd (save_tags_to_json default_tags
               (add_stdout (ErrorLoadingTags (json_error text)) s)))
  else (Raise (json_error text), s).
Proof.
  intros Hfile Hread Hjson.
  run_method. given Hfile. given Hread. given Hjson.
  unfold caught_on_load.
  destruct (exn_eqb (json_error text) JSONDecodeError
            || exn_eqb (json_error text) IOError); [|reflexivity].
  given save_tags_to_json_eq. reflexivity.
Qed.

Lemma load_unreadable (s : state) (text : string) :
  tags_file s = Some text -> can_read s = false ->
  load_tags_from_json s =
  (Return default_tags,
   snd (save_tags_to_json default_tags
          (add_stdout (ErrorLoadingTags IOError) s))).
Proof.
  intros Hfile Hread.
  run_method. given Hfile. given Hread.
  cbn [exn_eqb orb]. given save_tags_to_json_eq. reflexivity.
Qed.

Lemma add_tag_present (tag : string) (s : state) :
  In (JStr tag) (allowed_tags s) ->
  add_tag_to_json tag s = (Return false, s).
Proof.
  intros Hin. apply py_in_In in Hin.
  run_method. given Hin. reflexivity.
Qed.

Lemma add_tag_absent (tag : string) (s : state) :
  ~ In (JStr tag) (allowed_tags s) ->
  add_tag_to_json tag s =
  (Return true,
   snd (save_tags_to_json (allowed_tags s ++ [JStr tag])
          (set_allowed_tags (allowed_tags s ++ [JStr tag]) s))).
Proof.
  intros Hin. apply py_in_not_In in Hin.
  run_method. given Hin. cbn [negb allowed_tags set_allowed_tags].
  given save_tags_to_json_eq. reflexivity.
Qed.

Lemma remove_tag_absent (tag : string) (s : state) :
  ~ In (JStr tag) (allowed_tags s) ->
  remove_tag_from_json tag s = (Return false, s).
Proof.
  intros Hin. apply py_in_not_In in Hin.
  run_method. given Hin. reflexivity.
Qed.

Lemma remove_tag_present (tag : string) (s : state) (tags' : list json) :
  In (JStr tag) (allowed_tags s) ->
  list_remove tag (allowed_tags s) = Some tags' ->
  remove_tag_from_json tag s =
  (Return true,
   snd (save_tags_to_json tags' (set_allowed_tags tags' s))).
Proof.
  intros Hin Hrem. apply py_in_In in Hin.
  run_method. given Hin. given Hrem. cbn [allowed_tags set_allowed_tags].
  given save_tags_to_json_eq. reflexivity.
Qed.

Lemma In_map_JStr (t : string) (l : list string) :
  In (JStr t) (map JStr l) <-> In t l.
Proof.
  rewrite in_map_iff. split.
  - intros [x [Heq Hin]]. injection Heq as ->. assumption.
  - intros Hin. now exists t.
Qed.

(** ** The access check *)

(** C1: the access check on the empty string rejects with the "EMPTY TAG"
    result, whatever the store holds (an empty-string entry included) and
    without touching the serial line; on a non-empty tag of the store it
    grants; on a non-empty tag outside the store it denies.  The "EMPTY TAG"
    result differs from both results of every non-empty tag. *)
Theorem check_tag_policy (tag : string) (s : state) :
  (tag = "" ->
   check_tag tag s =
   (Return tt,
    add_ui (AddActivity "❌ Empty tag" "error")
      (add_ui (ShowTagResult "EMPTY TAG" false) s)))
  /\ (tag <> "" -> In (JStr tag) (allowed_tags s) ->
      check_tag tag s =
      (Return tt,
       add_ui (AddActivity ("✅ Access granted: " ++ tag)%string "success")
         ((match esp s with
           | Some _ => add_serial (SerialWrite ("open" ++ newline)%string)
           | None => fun s' => s'
           end)
            (add_ui
               (ShowTagResult ("ACCESS GRANTED" ++ newline ++ tag)%string true)
               s))))
  /\ (tag <> "" -> ~ In (JStr tag) (allowed_tags s) ->
      check_tag tag s =
      (Return tt,
       add_ui (AddActivity ("❌ Access denied: " ++ tag)%string "error")
         (add_ui
            (ShowTagResult ("ACCESS DENIED" ++ newline ++ tag)%string false)
            s)))
  /\ (forall other : string,
        ShowTagResult "EMPTY TAG" false
        <> ShowTagResult ("ACCESS GRANTED" ++ newline ++ other)%string true
        /\ ShowTagResult "EMPTY TAG" false
           <> ShowTagResult ("ACCESS DENIED" ++ newline ++ other)%string false
        /\ AddActivity "❌ Empty tag" "error"
           <> AddActivity ("❌ Access denied: " ++ other)%string "error").
Proof.
  repeat split.
  - intros ->. reflexivity.
  - intros Hne Hin. apply py_in_In in Hin.
    apply String.eqb_neq in Hne.
    unfold check_tag. rewrite Hne.
    unfold bind, gets, show_tag_result, esp_write, add_activity, modify, ret.
    cbv beta iota. rewrite Hin. cbn [esp add_ui].
    destruct (esp s); reflexivity.
  - intros Hne Hin. apply py_in_not_In in Hin.
    apply String.eqb_neq in Hne.
    unfold check_tag. rewrite Hne.
    unfold bind, gets, show_tag_result, add_activity, modify, ret.
    cbv beta iota. rewrite Hin. reflexivity.
  - discriminate.
  - discriminate.
  - discriminate.
Qed.

(** C8: on a grant with the serial connection open, the program writes
    [open] and a newline to the connection, once, and makes no other call on
    it: nothing is read back. *)
Theorem grant_writes_open (tag port : string) (s : state) :
  tag <> "" -> In (JStr tag) (allowed_tags s) -> esp s = Some port ->
  fst (check_tag tag s) = Return tt
  /\ serial (snd (check_tag tag s))
     = serial s ++ [SerialWrite ("open" ++ newline)%string]
  /\ esp (snd (check_tag tag s)) = Some port.
Proof.
  intros Hne Hin Hesp. apply py_in_In in Hin.
  apply String.eqb_neq in Hne.
  unfold check_tag. rewrite Hne.
  unfold bind, gets, show_tag_result, esp_write, add_activity, modify, ret.
  cbv beta iota. rewrite Hin. cbn [esp add_ui]. rewrite Hesp.
  repeat split. assumption.
Qed.

(** ** The tag store *)

(** C2: [add_tag_to_json] returns [False] and changes nothing when the tag
    is in the store; otherwise it returns [True], the store is the old store
    with the tag at its end, and the whole new store is handed to
    [save_tags_to_json], which leaves it as the text of the file when the
    file can be written. *)
Theorem add_tag_to_json_spec (tag : string) (s : state) :
  (In (JStr tag) (allowed_tags s) ->
   add_tag_to_json tag s = (Return false, s))
  /\ (~ In (JStr tag) (allowed_tags s) ->
      let store := allowed_tags s ++ [JStr tag] in
      let s' := snd (add_tag_to_json tag s) in
      fst (add_tag_to_json tag s) = Return true
      /\ allowed_tags s' = store
      /\ s' = snd (save_tags_to_json store (set_allowed_tags store s))
      /\ (on_write s = None ->
          tags_file s' = Some (json_dumps (JArr store)))).
Proof.
  split.
  - apply add_tag_present.
  - intros Hnot store s'. subst s'. rewrite (add_tag_absent tag s Hnot).
    fold store. rewrite save_tags_to_json_eq. cbn [fst snd].
    cbn [on_write set_allowed_tags].
    repeat split.
    + destruct (on_write s) as [[|n]|]; reflexivity.
    + intros ->. reflexivity.
Qed.

(** C3, amended: [remove_tag_from_json] returns [False] and changes nothing
    when the tag is not in the store; otherwise it returns [True], the store
    is the old store without the first occurrence of the tag, and the whole
    new store is handed to [save_tags_to_json], which leaves it as the text
    of the file when the file can be written.  The tag is still in the new
    store exactly when the old store held it more than once; it is gone
    from a store without duplicates. *)
Theorem remove_tag_from_json_spec (tag : string) (s : state) :
  (~ In (JStr tag) (allowed_tags s) ->
   remove_tag_from_json tag s = (Return false, s))
  /\ (In (JStr tag) (allowed_tags s) ->
      exists before after,
        let store := before ++ after in
        let s' := snd (remove_tag_from_json tag s) in
        allowed_tags s = before ++ JStr tag :: after
        /\ ~ In (JStr tag) before
        /\ fst (remove_tag_from_json tag s) = Return true
        /\ allowed_tags s' = store
        /\ s' = snd (save_tags_to_json store (set_allowed_tags store s))
        /\ (on_write s = None ->
            tags_file s' = Some (json_dumps (JArr store)))
        /\ (In (JStr tag) store <-> In (JStr tag) after)
        /\ (NoDup (allowed_tags s) -> ~ In (JStr tag) store)).
Proof.
  split.
  - apply remove_tag_absent.
  - intros Hin.
    destruct (list_remove_present tag (allowed_tags s) Hin)
      as [before [after [Hstore [Hnot Hrem]]]].
    exists before, after. intros store s'. subst s'.
    rewrite (remove_tag_present tag s store Hin Hrem).
    rewrite save_tags_to_json_eq. cbn [fst snd].
    cbn [on_write set_allowed_tags].
    repeat split; try assumption.
    + destruct (on_write s) as [[|n]|]; reflexivity.
    + intros ->. reflexivity.
    + intros H. apply in_app_or in H. destruct H as [H|H];
        [contradiction | exact H].
    + intros H. apply in_or_app. now right.
    + intros Hnd. rewrite Hstore in Hnd.
      apply NoDup_cut in Hnd. apply Hnd.
Qed.

(** ** Loading *)

Lemma default_tags_strings :
  default_tags =
  map JStr ["0001234567"; "0009876543"; "0005555555"; "12345"; "67890"]%string.
Proof. reflexivity. Qed.

Lemma NoDup_default_tags : NoDup default_tags.
Proof.
  unfold default_tags.
  repeat (constructor; [simpl; intuition discriminate|]). constructor.
Qed.

(** What [load_tags_from_json] returns is the list in the file or the
    default tags. *)
Lemma load_returned (s : state) (tags : list json) :
  fst (load_tags_from_json s) = Return tags ->
  tags = default_tags
  \/ exists text, tags_file s = Some text /\ can_read s = true
                  /\ json_loads text = Some (JArr tags).
Proof.
  destruct (tags_file s) as [text|] eqn:Hfile.
  - destruct (can_read s) eqn:Hread.
    + destruct (json_loads text) as [v|] eqn:Hjson.
      * destruct v as [|b|n|lit|str|items|members];
          try (rewrite (load_not_array s text _ Hfile Hread Hjson)
                 by discriminate;
               intros [= <-]; now left).
        rewrite (load_array s text items Hfile Hread Hjson).
        intros [= <-]. right. now exists text.
      * rewrite (load_json_raises s text Hfile Hread Hjson).
        destruct (caught_on_load (json_error text)); [|discriminate].
        intros [= <-]. now left.
    + rewrite (load_unreadable s text Hfile Hread).
      intros [= <-]. now left.
  - rewrite (load_missing s Hfile). intros [= <-]. now left.
Qed.

(** It returns whenever [json.load] returns or raises an exception of the
    handler's classes. *)
Lemma load_returns (s : state) :
  file_is_handled s ->
  exists tags, fst (load_tags_from_json s) = Return tags.
Proof.
  intros Hok.
  destruct (tags_file s) as [text|] eqn:Hfile.
  - destruct (can_read s) eqn:Hread.
    + destruct (json_loads text) as [v|] eqn:Hjson.
      * destruct v as [|b|n|lit|str|items|members];
          try (rewrite (load_not_array s text _ Hfile Hread Hjson)
                 by discriminate;
               now exists default_tags).
        rewrite (load_array s text items Hfile Hread Hjson).
        now exists items.
      * rewrite (load_json_raises s text Hfile Hread Hjson).
        rewrite (Hok text Hfile Hread Hjson). now exists default_tags.
    + rewrite (load_unreadable s text Hfile Hread).
      now exists default_tags.
  - rewrite (load_missing s Hfile). now exists default_tags.
Qed.

(** C6: when the file is missing, [load_tags_from_json] returns the default
    tags and hands them to [save_tags_to_json]; when the file can be written
    it then exists, its text is the default list, and [json.load] reads that
    text back as the default list. *)
Theorem load_missing_file (s : state) :
  tags_file s = None ->
  load_tags_from_json s =
  (Return default_tags, snd (save_tags_to_json default_tags s))
  /\ (on_write s = None ->
      tags_file (snd (load_tags_from_json s))
      = Some (json_dumps (JArr default_tags))
      /\ json_loads (json_dumps (JArr default_tags))
         = Some (JArr default_tags)).
Proof.
  intros Hfile. rewrite (load_missing s Hfile). split; [reflexivity|].
  intros Hwrite. rewrite save_tags_to_json_eq, Hwrite. split.
  - reflexivity.
  - rewrite default_tags_strings. apply loads_dumps_tags.
Qed.

(** C7, on the code: when the file exists and can be read and [json.load]
    returns a value that is not a list, or raises [JSONDecodeError] (or
    another exception the handler catches), [load_tags_from_json] returns
    the default tags and hands them to [save_tags_to_json], after printing
    the error if there was one, and when the file can be written its text
    is then the default list.  But when [json.load] raises any other
    exception ([ValueError] for an integer of more than 4300 digits,
    [RecursionError], [UnicodeDecodeError]), [load_tags_from_json] raises
    it: the file keeps its content, nothing is printed, and no default is
    saved or returned. *)
Theorem load_not_a_list (s : state) (text : string) :
  tags_file s = Some text -> can_read s = true ->
  (forall items, json_loads text <> Some (JArr items)) ->
  (forall v, json_loads text = Some v ->
             load_tags_from_json s
             = (Return default_tags,
                snd (save_tags_to_json default_tags s)))
  /\ (json_loads text = None ->
      caught_on_load (json_error text) = true ->
      load_tags_from_json s
      = (Return default_tags,
         snd (save_tags_to_json default_tags
                (add_stdout (ErrorLoadingTags (json_error text)) s))))
  /\ (json_loads text = None ->
      caught_on_load (json_error text) = false ->
      load_tags_from_json s = (Raise (json_error text), s))
  /\ (fst (load_tags_from_json s) = Return default_tags ->
      on_write s = None ->
      tags_file (snd (load_tags_from_json s))
      = Some (json_dumps (JArr default_tags))).
Proof.
  intros Hfile Hread Hnot.
  split; [|split; [|split]].
  - intros v Hjson.
    apply (load_not_array s text v Hfile Hread Hjson).
    intros items ->. now apply (Hnot items).
  - intros Hjson Herr.
    rewrite (load_json_raises s text Hfile Hread Hjson), Herr. reflexivity.
  - intros Hjson Herr.
    rewrite (load_json_raises s text Hfile Hread Hjson), Herr. reflexivity.
  - intros Hret Hwrite.
    destruct (json_loads text) as [v|] eqn:Hjson.
    + rewrite (load_not_array s text v Hfile Hread Hjson).
      * rewrite save_tags_to_json_eq, Hwrite. reflexivity.
      * intros items ->. now apply (Hnot items).
    + rewrite (load_json_raises s text Hfile Hread Hjson) in Hret |- *.
      destruct (caught_on_load (json_error text)); [|discriminate].
      rewrite save_tags_to_json_eq. cbn [on_write add_stdout snd].
      rewrite Hwrite. reflexivity.
Qed.

(** C10: when the text of the file is any JSON list, [load_tags_from_json]
    returns exactly that list and leaves the file, and everything else, as
    it was. *)
Theorem load_any_list (s : state) (text : string) (items : list json) :
  tags_file s = Some text -> can_read s = true ->
  json_loads text = Some (JArr items) ->
  load_tags_from_json s = (Return items, s).
Proof.
  apply load_array.
Qed.

(** ** Duplicates *)

Lemma add_tag_NoDup (tag : string) (s : state) :
  NoDup (allowed_tags s) ->
  NoDup (allowed_tags (snd (add_tag_to_json tag s))).
Proof.
  intros Hnd. destruct (py_in tag (allowed_tags s)) eqn:Hin.
  - apply py_in_In in Hin. rewrite (add_tag_present tag s Hin). assumption.
  - apply py_in_not_In in Hin. rewrite (add_tag_absent tag s Hin).
    rewrite save_tags_to_json_eq. cbn [snd on_write set_allowed_tags].
    destruct (on_write s) as [[|n]|];
      cbn [allowed_tags set_tags_file add_stdout];
      now apply NoDup_snoc.
Qed.

Lemma remove_tag_NoDup (tag : string) (s : state) :
  NoDup (allowed_tags s) ->
  NoDup (allowed_tags (snd (remove_tag_from_json tag s))).
Proof.
  intros Hnd. destruct (py_in tag (allowed_tags s)) eqn:Hin.
  - apply py_in_In in Hin.
    destruct (list_remove_present tag (allowed_tags s) Hin)
      as [before [after [Hstore [_ Hrem]]]].
    rewrite (remove_tag_present tag s _ Hin Hrem).
    rewrite save_tags_to_json_eq. cbn [snd on_write set_allowed_tags].
    rewrite Hstore in Hnd. apply NoDup_cut in Hnd.
    destruct (on_write s) as [[|n]|];
      cbn [allowed_tags set_tags_file add_stdout];
      apply Hnd.
  - apply py_in_not_In in Hin. rewrite (remove_tag_absent tag s Hin).
    assumption.
Qed.

(** C5, amended: [add_tag_to_json] and [remove_tag_from_json] keep a
    duplicate-free store duplicate-free; [load_tags_from_json] returns a
    duplicate-free list whenever the file does not itself hold a list with
    duplicates (the default tags are duplicate-free): every list it returns
    is duplicate-free, and it does return one whenever [json.load] returns
    or raises an exception of the handler's classes. *)
Theorem store_stays_duplicate_free :
  (forall tag s, NoDup (allowed_tags s) ->
                 NoDup (allowed_tags (snd (add_tag_to_json tag s))))
  /\ (forall tag s, NoDup (allowed_tags s) ->
                    NoDup (allowed_tags (snd (remove_tag_from_json tag s))))
  /\ (forall s,
        (forall text items, tags_file s = Some text ->
                            json_loads text = Some (JArr items) ->
                            NoDup items) ->
        (forall tags, fst (load_tags_from_json s) = Return tags ->
                      NoDup tags)
        /\ (file_is_handled s ->
            exists tags, fst (load_tags_from_json s) = Return tags
                         /\ NoDup tags)).
Proof.
  split; [exact add_tag_NoDup | split; [exact remove_tag_NoDup|]].
  intros s Hfile.
  assert (Hnd : forall tags, fst (load_tags_from_json s) = Return tags ->
                             NoDup tags).
  { intros tags Hload.
    destruct (load_returned s tags Hload) as [-> | [text [Ht [_ Hj]]]].
    - apply NoDup_default_tags.
    - eapply Hfile; eassumption. }
  split; [exact Hnd|].
  intros Hok. destruct (load_returns s Hok) as [tags Hload].
  exists tags. split; [exact Hload | now apply Hnd].
Qed.

(** ** Write failures *)

(** With a failing write, [add_tag_to_json] and [remove_tag_from_json]
    come to what they come to when the write goes through, but for the
    printed line. *)
Lemma write_failure_same_outcome
      (fault : write_fault) (tag : string) (s : state) :
  let ok := set_on_write None s in
  let bad := set_on_write (Some fault) s in
  (fst (add_tag_to_json tag bad) = fst (add_tag_to_json tag ok)
   /\ (exists b, fst (add_tag_to_json tag bad) = Return b)
   /\ allowed_tags (snd (add_tag_to_json tag bad))
      = allowed_tags (snd (add_tag_to_json tag ok))
   /\ In (JStr tag) (allowed_tags (snd (add_tag_to_json tag bad)))
   /\ stdout (snd (add_tag_to_json tag bad))
      = (if py_in tag (allowed_tags s) then stdout s
         else stdout s ++ [ErrorSavingTags IOError]))
  /\ (fst (remove_tag_from_json tag bad) = fst (remove_tag_from_json tag ok)
      /\ (exists b, fst (remove_tag_from_json tag bad) = Return b)
      /\ allowed_tags (snd (remove_tag_from_json tag bad))
         = allowed_tags (snd (remove_tag_from_json tag ok))
      /\ stdout (snd (remove_tag_from_json tag bad))
         = (if py_in tag (allowed_tags s)
            then stdout s ++ [ErrorSavingTags IOError]
            else stdout s)).
Proof.
  intros ok bad.
  assert (Hok : allowed_tags ok = allowed_tags s) by reflexivity.
  assert (Hbad : allowed_tags bad = allowed_tags s) by reflexivity.
  destruct (py_in tag (allowed_tags s)) eqn:Hin.
  - pose proof (proj1 (py_in_In _ _) Hin) as HIn. split.
    + rewrite (add_tag_present tag ok), (add_tag_present tag bad)
        by (rewrite ?Hok, ?Hbad; assumption).
      repeat split; [now exists false | assumption].
    + destruct (list_remove_present tag (allowed_tags s) HIn)
        as [before [after [_ [_ Hrem]]]].
      rewrite (remove_tag_present tag ok (before ++ after)),
        (remove_tag_present tag bad (before ++ after))
        by (rewrite ?Hok, ?Hbad; assumption).
      rewrite !save_tags_to_json_eq.
      destruct fault as [|n]; (repeat split; now exists true).
  - pose proof (proj1 (py_in_not_In _ _) Hin) as HIn. split.
    + rewrite (add_tag_absent tag ok), (add_tag_absent tag bad)
        by (rewrite ?Hok, ?Hbad; assumption).
      rewrite !save_tags_to_json_eq.
      destruct fault as [|n];
        (repeat split; [now exists true|]; cbn; apply in_or_app;
         right; now left).
    + rewrite (remove_tag_absent tag ok), (remove_tag_absent tag bad)
        by (rewrite ?Hok, ?Hbad; assumption).
      repeat split. now exists false.
Qed.

(** C9: whichever way the write to the file fails, [add_tag_to_json] and
    [remove_tag_from_json] return what they return when the write goes
    through, and raise nothing; the store in memory is the same as in that
    case, and it is updated: a new tag is at its end and [True] is returned,
    the first occurrence of a tag it held is cut out of it and [True] is
    returned (the tag is then gone from a store without duplicates), and
    the store is unchanged, with [False] returned, when there was nothing to
    add or to remove; and the one trace of the failure is a printed
    line. *)
Theorem write_failure_is_only_printed
        (fault : write_fault) (tag : string) (s : state) :
  let ok := set_on_write None s in
  let bad := set_on_write (Some fault) s in
  (fst (add_tag_to_json tag bad) = fst (add_tag_to_json tag ok)
   /\ (exists b, fst (add_tag_to_json tag bad) = Return b)
   /\ allowed_tags (snd (add_tag_to_json tag bad))
      = allowed_tags (snd (add_tag_to_json tag ok))
   /\ In (JStr tag) (allowed_tags (snd (add_tag_to_json tag bad)))
   /\ stdout (snd (add_tag_to_json tag bad))
      = (if py_in tag (allowed_tags s) then stdout s
         else stdout s ++ [ErrorSavingTags IOError]))
  /\ (fst (remove_tag_from_json tag bad) = fst (remove_tag_from_json tag ok)
      /\ (exists b, fst (remove_tag_from_json tag bad) = Return b)
      /\ allowed_tags (snd (remove_tag_from_json tag bad))
         = allowed_tags (snd (remove_tag_from_json tag ok))
      /\ stdout (snd (remove_tag_from_json tag bad))
         = (if py_in tag (allowed_tags s)
            then stdout s ++ [ErrorSavingTags IOError]
            else stdout s))
  /\ (~ In (JStr tag) (allowed_tags s) ->
      fst (add_tag_to_json tag bad) = Return true
      /\ allowed_tags (snd (add_tag_to_json tag bad))
         = allowed_tags s ++ [JStr tag]
      /\ remove_tag_from_json tag bad = (Return false, bad))
  /\ (In (JStr tag) (allowed_tags s) ->
      add_tag_to_json tag bad = (Return false, bad)
      /\ fst (remove_tag_from_json tag bad) = Return true
      /\ exists before after,
           allowed_tags s = before ++ JStr tag :: after
           /\ ~ In (JStr tag) before
           /\ allowed_tags (snd (remove_tag_from_json tag bad))
              = before ++ after
           /\ (NoDup (allowed_tags s) ->
               ~ In (JStr tag)
                   (allowed_tags (snd (remove_tag_from_json tag bad))))).
Proof.
  intros ok bad.
  destruct (write_failure_same_outcome fault tag s) as [Hadd Hremove].
  split; [exact Hadd|]. split; [exact Hremove|].
  assert (Hbad : allowed_tags bad = allowed_tags s) by reflexivity.
  split.
  - intros Hnot.
    rewrite (add_tag_absent tag bad) by (rewrite Hbad; exact Hnot).
    rewrite (remove_tag_absent tag bad) by (rewrite Hbad; exact Hnot).
    rewrite save_tags_to_json_eq. cbn [fst snd].
    split; [reflexivity|]. split; [|reflexivity].
    destruct fault as [|n]; reflexivity.
  - intros Hin.
    rewrite (add_tag_present tag bad) by (rewrite Hbad; exact Hin).
    split; [reflexivity|].
    destruct (list_remove_present tag (allowed_tags s) Hin)
      as [before [after [Hstore [Hnot Hrem]]]].
    rewrite (remove_tag_present tag bad (before ++ after))
      by (rewrite ?Hbad; assumption).
    rewrite save_tags_to_json_eq. cbn [fst snd].
    split; [reflexivity|].
    exists before, after.
    assert (Hnew : allowed_tags
                     (match on_write (set_allowed_tags (before ++ after) bad)
                      with
                      | Some OpenRefused =>
                          add_stdout (ErrorSavingTags IOError)
                            (set_allowed_tags (before ++ after) bad)
                      | Some (WriteCut n) =>
                          add_stdout (ErrorSavingTags IOError)
                            (set_tags_file
                               (Some (substring 0 n
                                        (json_dumps (JArr (before ++ after)))))
                               (set_allowed_tags (before ++ after) bad))
                      | None =>
                          set_tags_file
                            (Some (json_dumps (JArr (before ++ after))))
                            (set_allowed_tags (before ++ after) bad)
                      end) = before ++ after).
    { destruct fault as [|n]; reflexivity. }
    split; [exact Hstore|]. split; [exact Hnot|]. split; [exact Hnew|].
    intros Hnd. rewrite Hnew. rewrite Hstore in Hnd.
    apply NoDup_cut in Hnd. apply Hnd.
Qed.

(** ** Round trip through the file *)

(** What [save_tags_to_json] writes for a list of tags,
    [load_tags_from_json] returns, without touching the file again. *)
Lemma load_saved_tags (tags : list string) (s : state) :
  tags_file s = Some (json_dumps (JArr (map JStr tags))) ->
  can_read s = true ->
  load_tags_from_json s = (Return (map JStr tags), s).
Proof.
  intros Hfile Hread.
  apply (load_array s _ _ Hfile Hread), loads_dumps_tags.
Qed.

Lemma add_each_cons (t : string) (ts : list string) (s : state) (b : bool) :
  fst (add_tag_to_json t s) = Return b ->
  add_each (t :: ts) s = add_each ts (snd (add_tag_to_json t s)).
Proof.
  cbn [add_each]. unfold bind.
  destruct (add_tag_to_json t s) as [o s1]. cbn [fst snd].
  intros ->. reflexivity.
Qed.

Lemma add_tag_saved (tag : string) (s : state) :
  ~ In (JStr tag) (allowed_tags s) -> on_write s = None ->
  add_tag_to_json tag s =
  (Return true,
   set_tags_file (Some (json_dumps (JArr (allowed_tags s ++ [JStr tag]))))
     (set_allowed_tags (allowed_tags s ++ [JStr tag]) s)).
Proof.
  intros Hnot Hwrite.
  rewrite (add_tag_absent tag s Hnot), save_tags_to_json_eq.
  cbn [snd on_write set_allowed_tags]. rewrite Hwrite. reflexivity.
Qed.

Lemma added_fresh (tags : list string) :
  forall old, NoDup (old ++ tags) -> added old tags = old ++ tags.
Proof.
  induction tags as [|t ts IH]; intros old Hnd; cbn [added].
  - now rewrite app_nil_r.
  - destruct (in_dec string_dec t old) as [Hin|Hnot].
    + exfalso. apply NoDup_remove_2 in Hnd. apply Hnd.
      apply in_or_app. now left.
    + rewrite IH by now rewrite <- app_assoc.
      now rewrite <- app_assoc.
Qed.

Lemma added_prefix (tags : list string) :
  forall old, exists new, added old tags = old ++ new.
Proof.
  induction tags as [|t ts IH]; intros old; cbn [added].
  - exists []. now rewrite app_nil_r.
  - destruct (in_dec string_dec t old) as [Hin|Hnot].
    + apply IH.
    + destruct (IH (old ++ [t])) as [new Hnew].
      exists (t :: new). rewrite Hnew, <- app_assoc. reflexivity.
Qed.

Lemma added_In (tags : list string) :
  forall old t, In t (added old tags) <-> In t old \/ In t tags.
Proof.
  induction tags as [|u ts IH]; intros old t; cbn [added].
  - cbn. tauto.
  - rewrite IH. destruct (in_dec string_dec u old) as [Hin|Hnot]; cbn [In].
    + split; [tauto|]. intros [H | [<- | H]]; tauto.
    + rewrite in_app_iff. cbn [In]. tauto.
Qed.

Lemma added_NoDup (tags : list string) :
  forall old, NoDup old -> NoDup (added old tags).
Proof.
  induction tags as [|u ts IH]; intros old Hnd; cbn [added];
    [exact Hnd|].
  destruct (in_dec string_dec u old) as [Hin|Hnot]; apply IH;
    [exact Hnd | now apply NoDup_snoc].
Qed.

(** Adding any tags, with a file that can be written: no call raises, the
    store is the old store with the tags it did not hold at its end, in the
    order of their first addition, and the file holds the store as soon as
    one tag went in (or if it held the store before). *)
Lemma add_each_any (tags : list string) :
  forall (old : list string) (s : state),
    allowed_tags s = map JStr old -> on_write s = None ->
    let s' := snd (add_each tags s) in
    fst (add_each tags s) = Return tt
    /\ allowed_tags s' = map JStr (added old tags)
    /\ can_read s' = can_read s
    /\ on_write s' = None
    /\ ((exists t, In t tags /\ ~ In t old)
        \/ tags_file s = Some (json_dumps (JArr (map JStr old))) ->
        tags_file s'
        = Some (json_dumps (JArr (map JStr (added old tags))))).
Proof.
  induction tags as [|t ts IH]; intros old s Hstore Hwrite.
  - cbn. repeat split; try assumption.
    intros [[t [[] _]] | Hfile]. exact Hfile.
  - cbn [added]. destruct (in_dec string_dec t old) as [Hin|Hnot].
    + assert (Hpresent : In (JStr t) (allowed_tags s))
        by now rewrite Hstore, In_map_JStr.
      pose proof (add_tag_present t s Hpresent) as Hadd.
      rewrite (add_each_cons t ts s false) by now rewrite Hadd.
      rewrite Hadd. cbn [snd].
      destruct (IH old s Hstore Hwrite) as [Hret [Hst [Hrd [Hwr Hfile]]]].
      repeat split; try assumption.
      intros H. apply Hfile.
      destruct H as [[u [[<- | Hu] Hnew]] | H];
        [contradiction | left; now exists u | now right].
    + assert (Habsent : ~ In (JStr t) (allowed_tags s))
        by now rewrite Hstore, In_map_JStr.
      pose proof (add_tag_saved t s Habsent Hwrite) as Hadd.
      rewrite (add_each_cons t ts s true) by now rewrite Hadd.
      rewrite Hadd. cbn [snd]. rewrite Hstore.
      set (s1 := set_tags_file _ _).
      assert (Hstore1 : allowed_tags s1 = map JStr (old ++ [t])).
      { unfold s1. cbn. now rewrite map_app. }
      destruct (IH (old ++ [t]) s1 Hstore1 Hwrite)
        as [Hret [Hst [Hrd [Hwr Hfile]]]].
      repeat split; try assumption.
      intros _. apply Hfile. right.
      unfold s1. cbn. now rewrite map_app.
Qed.

(** C4: any tags, added one after the other to a store of tags, with a file
    that can be read and written.  No addition raises, and the store is the
    old store followed by the tags it did not hold, in the order in which
    they were first added ([added]; for tags that are new and distinct, the
    old store followed by the tags).  Saving that store writes it to the
    file, and loading the file then returns exactly that list, whatever the
    store in memory is at that time (as after a restart), and changes
    nothing; since every addition that goes in saves, the same holds
    without the extra saving as soon as one tag went in. *)
Theorem tags_added_then_reloaded (old tags : list string) (s : state)
        (memory : list json) :
  allowed_tags s = map JStr old ->
  can_read s = true -> on_write s = None ->
  let s' := snd (add_each tags s) in
  let saved := snd (save_tags_to_json (allowed_tags s') s') in
  let restarted := set_allowed_tags memory saved in
  fst (add_each tags s) = Return tt
  /\ allowed_tags s' = map JStr (added old tags)
  /\ (exists new, added old tags = old ++ new)
  /\ (forall t, In t (added old tags) <-> In t old \/ In t tags)
  /\ (NoDup old -> NoDup (added old tags))
  /\ (NoDup (old ++ tags) -> added old tags = old ++ tags)
  /\ tags_file saved = Some (json_dumps (JArr (map JStr (added old tags))))
  /\ load_tags_from_json restarted
     = (Return (map JStr (added old tags)), restarted)
  /\ ((exists t, In t tags /\ ~ In t old) ->
      load_tags_from_json (set_allowed_tags memory s')
      = (Return (map JStr (added old tags)), set_allowed_tags memory s')).
Proof.
  intros Hstore Hread Hwrite s' saved restarted.
  destruct (add_each_any tags old s Hstore Hwrite)
    as [Hret [Hst [Hrd [Hwr Hfile]]]].
  fold s' in Hst, Hrd, Hwr, Hfile.
  assert (Hsaved : tags_file saved
                   = Some (json_dumps (JArr (map JStr (added old tags))))).
  { unfold saved. rewrite save_tags_to_json_eq, Hwr, Hst. reflexivity. }
  split; [exact Hret|]. split; [exact Hst|].
  split; [apply added_prefix|]. split; [apply added_In|].
  split; [apply added_NoDup|]. split; [apply added_fresh|].
  split; [exact Hsaved|]. split.
  - apply load_saved_tags.
    + exact Hsaved.
    + unfold restarted, saved. rewrite save_tags_to_json_eq, Hwr. cbn.
      congruence.
  - intros Hnew. apply load_saved_tags.
    + cbn. apply Hfile. now left.
    + cbn. congruence.
Qed.

End StoreFacts.

(* ------------------------------------------------------------------ *)
(** * The theorems at work, with the reference [json] module *)

Lemma check_tag_policy_witness :
  In (JStr "") (allowed_tags store_with_empty)
  /\ check_tag "" store_with_empty =
     (Return tt,
      mkState [JStr ""; JStr "12345"] (Some "COM3") None true None [] []
        [ShowTagResult "EMPTY TAG" false; AddActivity "❌ Empty tag" "error"])
  /\ serial (snd (check_tag "12345" store_with_empty))
     = [SerialWrite ("open" ++ newline)]
  /\ ui (snd (check_tag "12345" store_with_empty))
     = [ShowTagResult ("ACCESS GRANTED" ++ newline ++ "12345") true;
        AddActivity "✅ Access granted: 12345" "success"]
  /\ serial (snd (check_tag "67890" store_with_empty)) = []
  /\ ui (snd (check_tag "67890" store_with_empty))
     = [ShowTagResult ("ACCESS DENIED" ++ newline ++ "67890") false;
        AddActivity "❌ Access denied: 67890" "error"].
Proof.
  destruct (check_tag_policy "" store_with_empty) as [Hempty _].
  destruct (check_tag_policy "12345" store_with_empty) as [_ [Hgrant _]].
  destruct (check_tag_policy "67890" store_with_empty) as [_ [_ [Hdeny _]]].
  rewrite (Hempty eq_refl).
  rewrite Hgrant; [|discriminate | simpl; auto].
  rewrite Hdeny; [|discriminate | simpl; intuition discriminate].
  repeat split. simpl. auto.
Defined.

Lemma grant_writes_open_witness :
  let s := start default_tags (Some "COM3") None true None in
  "12345" <> "" /\ In (JStr "12345") (allowed_tags s)
  /\ esp s = Some "COM3"
  /\ fst (check_tag "12345" s) = Return tt
  /\ serial (snd (check_tag "12345" s)) = [SerialWrite ("open" ++ newline)]
  /\ esp (snd (check_tag "12345" s)) = Some "COM3".
Proof.
  intros s.
  assert (Hne : "12345" <> "") by discriminate.
  assert (Hin : In (JStr "12345") (allowed_tags s)) by (simpl; auto).
  split; [exact Hne|]. split; [exact Hin|]. split; [reflexivity|].
  exact (grant_writes_open "12345" "COM3" s Hne Hin eq_refl).
Defined.

Lemma add_tag_to_json_spec_witness :
  let s := start default_tags None None true None in
  add_tag_to_json "12345" s = (Return false, s)
  /\ fst (add_tag_to_json "424242" s) = Return true
  /\ allowed_tags (snd (add_tag_to_json "424242" s))
     = default_tags ++ [JStr "424242"]
  /\ tags_file (snd (add_tag_to_json "424242" s))
     = Some (json_dumps (JArr (default_tags ++ [JStr "424242"]))).
Proof.
  intros s.
  destruct (add_tag_to_json_spec "12345" s) as [Hpresent _].
  destruct (add_tag_to_json_spec "424242" s) as [_ Habsent].
  split; [apply Hpresent; simpl; auto|].
  destruct Habsent as [Hret [Hstore [_ Hfile]]];
    [simpl; intuition discriminate|].
  repeat apply conj; [exact Hret | exact Hstore | exact (Hfile eq_refl)].
Defined.

Lemma remove_tag_from_json_spec_witness :
  let s := start default_tags None None true None in
  remove_tag_from_json "424242" s = (Return false, s)
  /\ exists before after,
       default_tags = before ++ JStr "12345" :: after
       /\ fst (remove_tag_from_json "12345" s) = Return true
       /\ allowed_tags (snd (remove_tag_from_json "12345" s))
          = before ++ after
       /\ tags_file (snd (remove_tag_from_json "12345" s))
          = Some (json_dumps (JArr (before ++ after)))
       /\ ~ In (JStr "12345") (before ++ after).
Proof.
  intros s.
  destruct (remove_tag_from_json_spec "424242" s) as [Habsent _].
  destruct (remove_tag_from_json_spec "12345" s) as [_ Hpresent].
  split; [apply Habsent; simpl; intuition discriminate|].
  destruct Hpresent as [before [after H]]; [simpl; auto|].
  destruct H as [Hold [_ [Hret [Hstore [_ [Hfile [_ Hgone]]]]]]].
  exists before, after.
  repeat apply conj;
    [exact Hold | exact Hret | exact Hstore | exact (Hfile eq_refl)
    | exact (Hgone NoDup_default_tags)].
Defined.

(** C3, as stated, fails: a file that holds a tag twice is loaded as it is,
    and from that store [remove_tag_from_json] returns [True] and leaves
    the tag in the store, where the access check still grants it. *)
Lemma remove_leaves_tag_in_store :
  let text := ("[" ++ quoted "12345" ++ ", " ++ quoted "67890" ++ ", "
               ++ quoted "12345" ++ "]")%string in
  let store := [JStr "12345"; JStr "67890"; JStr "12345"] in
  let s := start store (Some "COM3"%string) (Some text) true None in
  let s' := snd (remove_tag_from_json "12345" s) in
  fst (load_tags_from_json (start [] None (Some text) true None))
  = Return store
  /\ fst (remove_tag_from_json "12345" s) = Return true
  /\ allowed_tags s' = [JStr "67890"; JStr "12345"]
  /\ In (JStr "12345") (allowed_tags s')
  /\ serial (snd (check_tag "12345" s'))
     = [SerialWrite ("open" ++ newline)%string].
Proof.
  repeat apply conj; try (vm_compute; reflexivity).
  right. now left.
Qed.

Lemma tags_added_then_reloaded_witness :
  let s := start [JStr "111"] None None true None in
  let tags := ["222"; "111"; "333"; "222"]%string in
  let s' := snd (add_each tags s) in
  let restarted := set_allowed_tags [JStr "999"] s' in
  fst (add_each tags s) = Return tt
  /\ added ["111"%string] tags = ["111"; "222"; "333"]%string
  /\ allowed_tags s' = [JStr "111"; JStr "222"; JStr "333"]
  /\ load_tags_from_json restarted
     = (Return [JStr "111"; JStr "222"; JStr "333"], restarted).
Proof.
  intros s tags s' restarted.
  destruct (tags_added_then_reloaded ["111"%string] tags s [JStr "999"]
              eq_refl eq_refl eq_refl)
    as [Hret [Hstore [_ [_ [_ [_ [_ [_ Hload]]]]]]]].
  split; [exact Hret|]. split; [reflexivity|]. split; [exact Hstore|].
  apply Hload. exists "222"%string. split; [cbn; tauto|].
  cbn. intros [H | []]. discriminate H.
Defined.

Lemma write_failure_is_only_printed_witness :
  let bad := start default_tags None (Some "[]"%string) true
               (Some OpenRefused) in
  let cut := start default_tags None (Some "[]"%string) true
               (Some (WriteCut 3)) in
  add_tag_to_json "424242" bad
  = (Return true,
     add_stdout (ErrorSavingTags IOError)
       (set_allowed_tags (default_tags ++ [JStr "424242"]) bad))
  /\ fst (remove_tag_from_json "12345" cut) = Return true
  /\ allowed_tags (snd (remove_tag_from_json "12345" cut))
     = [JStr "0001234567"; JStr "0009876543"; JStr "0005555555";
        JStr "67890"]
  /\ tags_file (snd (remove_tag_from_json "12345" cut))
     = Some ("[" ++ newline ++ " ")%string
  /\ stdout (snd (remove_tag_from_json "12345" cut))
     = [ErrorSavingTags IOError].
Proof.
  intros bad cut.
  destruct (write_failure_is_only_printed OpenRefused "424242" bad)
    as [_ [_ [Hadd _]]].
  destruct (write_failure_is_only_printed (WriteCut 3) "12345" cut)
    as [_ [[_ [_ [_ Hout]]] [_ Hremove]]].
  destruct Hadd as [Hret [Hstore _]]; [cbn; intuition discriminate|].
  destruct Hremove as [_ [Hret' _]]; [cbn; tauto|].
  split; [vm_compute; reflexivity|]. split; [exact Hret'|].
  split; [vm_compute; reflexivity|]. split; [vm_compute; reflexivity|].
  exact Hout.
Defined.

(** C5, as stated, fails: a file that holds the same tag twice is loaded as
    it is. *)
Lemma load_returns_duplicates :
  let text := ("[" ++ quoted "12345" ++ ", " ++ quoted "12345" ++ "]")%string in
  let s := start [] None (Some text) true None in
  load_tags_from_json s = (Return [JStr "12345"; JStr "12345"], s)
  /\ ~ NoDup [JStr "12345"; JStr "12345"].
Proof.
  split.
  - vm_compute. reflexivity.
  - intros H. inversion H as [|x l Hnot _]. apply Hnot. now left.
Qed.

Lemma store_stays_duplicate_free_witness :
  let s := start default_tags None None true None in
  NoDup (allowed_tags s)
  /\ NoDup (allowed_tags (snd (add_tag_to_json "424242" s)))
  /\ NoDup (allowed_tags (snd (remove_tag_from_json "12345" s)))
  /\ exists tags, fst (load_tags_from_json s) = Return tags /\ NoDup tags.
Proof.
  intros s.
  destruct (@store_stays_duplicate_free py_json) as [Hadd [Hremove Hload]].
  repeat apply conj.
  - exact NoDup_default_tags.
  - exact (Hadd "424242" s NoDup_default_tags).
  - exact (Hremove "12345" s NoDup_default_tags).
  - apply (Hload s).
    + intros text items Hfile. discriminate Hfile.
    + intros text Hfile. discriminate Hfile.
Defined.

Lemma load_missing_file_witness :
  let s := start [] None None true None in
  tags_file s = None /\ on_write s = None
  /\ fst (load_tags_from_json s) = Return default_tags
  /\ tags_file (snd (load_tags_from_json s))
     = Some (json_dumps (JArr default_tags))
  /\ json_loads (json_dumps (JArr default_tags)) = Some (JArr default_tags).
Proof.
  intros s.
  destruct (load_missing_file s eq_refl) as [Hload Hfile].
  destruct (Hfile eq_refl) as [Htext Hback].
  repeat apply conj;
    [reflexivity | reflexivity | exact (f_equal fst Hload)
    | exact Htext | exact Hback].
Defined.

Lemma load_not_a_list_witness :
  let object := ("{" ++ quoted "tags" ++ ": []}")%string in
  let s := start [] None (Some object) true None in
  let broken := start [] None (Some "[1, 2") true None in
  let long := string_times "1" 4301 in
  let huge := start [] None (Some long) true None in
  json_loads object = Some (JObj [("tags"%string, JArr [])])
  /\ load_tags_from_json s
     = (Return default_tags,
        set_tags_file (Some (json_dumps (JArr default_tags))) s)
  /\ json_loads "[1, 2" = None
  /\ json_error "[1, 2" = JSONDecodeError
  /\ load_tags_from_json broken
     = (Return default_tags,
        set_tags_file (Some (json_dumps (JArr default_tags)))
          (add_stdout (ErrorLoadingTags JSONDecodeError) broken))
  /\ json_loads long = None
  /\ json_error long = ValueError
  /\ load_tags_from_json huge = (Raise ValueError, huge).
Proof.
  intros object s broken long huge.
  assert (Hobject : json_loads object = Some (JObj [("tags"%string, JArr [])]))
    by (vm_compute; reflexivity).
  assert (Hbroken : json_loads "[1, 2" = None) by (vm_compute; reflexivity).
  assert (Hbroken' : json_error "[1, 2" = JSONDecodeError)
    by (vm_compute; reflexivity).
  assert (Hlong : json_loads long = None) by (vm_compute; reflexivity).
  assert (Hlong' : json_error long = ValueError) by (vm_compute; reflexivity).
  assert (Hs : forall items, json_loads object <> Some (JArr items))
    by (intros items; rewrite Hobject; discriminate).
  assert (Hb : forall items, json_loads "[1, 2" <> Some (JArr items))
    by (intros items; rewrite Hbroken; discriminate).
  assert (Hl : forall items, json_loads long <> Some (JArr items))
    by (intros items; rewrite Hlong; discriminate).
  destruct (load_not_a_list s object eq_refl eq_refl Hs) as [Hvalue _].
  destruct (load_not_a_list broken "[1, 2" eq_refl eq_refl Hb)
    as [_ [Hcaught _]].
  destruct (load_not_a_list huge long eq_refl eq_refl Hl)
    as [_ [_ [Hraised _]]].
  split; [exact Hobject|]. split; [exact (Hvalue _ Hobject)|].
  split; [exact Hbroken|]. split; [exact Hbroken'|].
  split.
  { rewrite (Hcaught Hbroken) by (rewrite Hbroken'; reflexivity).
    rewrite Hbroken'. reflexivity. }
  split; [exact Hlong|]. split; [exact Hlong'|].
  rewrite (Hraised Hlong) by (rewrite Hlong'; reflexivity).
  rewrite Hlong'. reflexivity.
Defined.

Lemma load_any_list_witness :
  let text := ("[1, " ++ quoted "a" ++ ", " ++ quoted "a" ++ ", null, []]")%string in
  let s := start [] None (Some text) true None in
  let empty := start [] None (Some "[]") true (Some OpenRefused) in
  json_loads text = Some (JArr [JInt 1; JStr "a"; JStr "a"; JNull; JArr []])
  /\ load_tags_from_json s
     = (Return [JInt 1; JStr "a"; JStr "a"; JNull; JArr []], s)
  /\ load_tags_from_json empty = (Return [], empty).
Proof.
  intros text s empty.
  assert (Htext : json_loads text
                  = Some (JArr [JInt 1; JStr "a"; JStr "a"; JNull; JArr []]))
    by (vm_compute; reflexivity).
  repeat apply conj.
  - exact Htext.
  - exact (load_any_list s text _ eq_refl eq_refl Htext).
  - apply (load_any_list empty "[]" []); reflexivity.
Defined.

(* ------------------------------------------------------------------ *)
(** * More on the tag store and the access check *)

Section MoreStoreFacts.
Context {J : JsonLib}.

Lemma check_tag_empty (s : state) :
  check_tag "" s =
  (Return tt,
   add_ui (AddActivity "❌ Empty tag" "error")
     (add_ui (ShowTagResult "EMPTY TAG" false) s)).
Proof. reflexivity. Qed.

Lemma check_tag_granted (tag : string) (s : state) :
  tag <> ""%string -> In (JStr tag) (allowed_tags s) ->
  check_tag tag s =
  (Return tt,
   add_ui (AddActivity ("✅ Access granted: " ++ tag)%string "success")
     ((match esp s with
       | Some _ => add_serial (SerialWrite ("open" ++ newline)%string)
       | None => fun s' => s'
       end)
        (add_ui
           (ShowTagResult ("ACCESS GRANTED" ++ newline ++ tag)%string true)
           s))).
Proof.
  intros Hne Hin. apply py_in_In in Hin. apply String.eqb_neq in Hne.
  unfold check_tag. rewrite Hne.
  unfold bind, gets, show_tag_result, esp_write, add_activity, modify, ret.
  cbv beta iota. rewrite Hin. cbn [esp add_ui].
  destruct (esp s); reflexivity.
Qed.

Lemma check_tag_denied (tag : string) (s : state) :
  tag <> ""%string -> ~ In (JStr tag) (allowed_tags s) ->
  check_tag tag s =
  (Return tt,
   add_ui (AddActivity ("❌ Access denied: " ++ tag)%string "error")
     (add_ui
        (ShowTagResult ("ACCESS DENIED" ++ newline ++ tag)%string false)
        s)).
Proof.
  intros Hne Hin. apply py_in_not_In in Hin. apply String.eqb_neq in Hne.
  unfold check_tag. rewrite Hne.
  unfold bind, gets, show_tag_result, add_activity, modify, ret.
  cbv beta iota. rewrite Hin. reflexivity.
Qed.

(** What the access check leaves alone, and what it sends. *)
Lemma check_tag_frame (tag : string) (s : state) :
  let s' := snd (check_tag tag s) in
  fst (check_tag tag s) = Return tt
  /\ allowed_tags s' = allowed_tags s
  /\ esp s' = esp s
  /\ tags_file s' = tags_file s
  /\ stdout s' = stdout s
  /\ serial s' =
     serial s ++
     (if negb (String.eqb tag "") && py_in tag (allowed_tags s)
      then match esp s with
           | Some _ => [SerialWrite ("open" ++ newline)%string]
           | None => []
           end
      else []).
Proof.
  destruct (String.eqb tag "") eqn:Hempty.
  - apply String.eqb_eq in Hempty. subst tag. rewrite check_tag_empty.
    cbn. rewrite app_nil_r. repeat split.
  - apply String.eqb_neq in Hempty.
    destruct (py_in tag (allowed_tags s)) eqn:Hin.
    + pose proof (proj1 (py_in_In _ _) Hin) as HIn.
      rewrite (check_tag_granted tag s Hempty HIn).
      destruct (esp s) eqn:He; cbn; rewrite ?app_nil_r, ?He; repeat split.
    + pose proof (proj1 (py_in_not_In _ _) Hin) as HIn.
      rewrite (check_tag_denied tag s Hempty HIn).
      cbn. rewrite app_nil_r. repeat split.
Qed.

(** X1: the access check never raises, leaves the store, the port, the file
    and the printed lines as they are, and the only call it can make on the
    serial connection is one write of [open] and a newline, made exactly
    when the tag is non-empty, in the store, and the port is open. *)
Theorem check_tag_effects (tag : string) (s : state) :
  let s' := snd (check_tag tag s) in
  fst (check_tag tag s) = Return tt
  /\ allowed_tags s' = allowed_tags s
  /\ esp s' = esp s
  /\ tags_file s' = tags_file s
  /\ stdout s' = stdout s
  /\ serial s' =
     serial s ++
     (if negb (String.eqb tag "") && py_in tag (allowed_tags s)
      then match esp s with
           | Some _ => [SerialWrite ("open" ++ newline)%string]
           | None => []
           end
      else []).
Proof.
  exact (check_tag_frame tag s).
Qed.

(** What [save_tags_to_json] leaves alone. *)
Lemma save_keeps (tags : list json) (s : state) :
  let s' := snd (save_tags_to_json tags s) in
  fst (save_tags_to_json tags s) = Return tt
  /\ allowed_tags s' = allowed_tags s /\ esp s' = esp s
  /\ serial s' = serial s /\ ui s' = ui s
  /\ can_read s' = can_read s /\ on_write s' = on_write s.
Proof.
  rewrite save_tags_to_json_eq. cbn [fst snd].
  destruct (on_write s) as [[|n]|] eqn:Hw; cbn; rewrite ?Hw; repeat split.
Qed.

Lemma print_then_save_keeps (p : printed) (tags : list json) (s : state) :
  let s' := snd (save_tags_to_json tags (add_stdout p s)) in
  allowed_tags s' = allowed_tags s /\ esp s' = esp s
  /\ serial s' = serial s /\ ui s' = ui s
  /\ can_read s' = can_read s /\ on_write s' = on_write s.
Proof.
  destruct (save_keeps tags (add_stdout p s)) as [_ H]. exact H.
Qed.

(** X2: what [load_tags_from_json] comes to.  It leaves the store
    attribute, the port and the serial line alone.  What it returns is the
    list in the file or the default tags.  The only exceptions it raises
    are those of [json.load] that its handler does not catch (neither
    [JSONDecodeError] nor [IOError]: the [ValueError] of an integer of too
    many digits, [RecursionError], [UnicodeDecodeError]), and then nothing
    at all has changed: nothing printed, nothing written.  It returns
    whenever [json.load] returns or raises an exception the handler
    catches. *)
Theorem load_outcomes (s : state) :
  allowed_tags (snd (load_tags_from_json s)) = allowed_tags s
  /\ esp (snd (load_tags_from_json s)) = esp s
  /\ serial (snd (load_tags_from_json s)) = serial s
  /\ (forall tags,
         fst (load_tags_from_json s) = Return tags ->
         tags = default_tags
         \/ exists text, tags_file s = Some text /\ can_read s = true
                         /\ json_loads text = Some (JArr tags))
  /\ (forall e,
         fst (load_tags_from_json s) = Raise e ->
         caught_on_load e = false
         /\ snd (load_tags_from_json s) = s
         /\ exists text, tags_file s = Some text /\ can_read s = true
                         /\ json_loads text = None /\ json_error text = e)
  /\ (file_is_handled s ->
      exists tags, fst (load_tags_from_json s) = Return tags).
Proof.
  assert (Hsave : forall s0,
             allowed_tags s0 = allowed_tags s -> esp s0 = esp s ->
             serial s0 = serial s ->
             let s' := snd (save_tags_to_json default_tags s0) in
             allowed_tags s' = allowed_tags s /\ esp s' = esp s
             /\ serial s' = serial s).
  { intros s0 Ha He Hs s'.
    destruct (save_keeps default_tags s0) as [_ [Ha' [He' [Hs' _]]]].
    fold s' in Ha', He', Hs'. rewrite Ha', He', Hs'. now repeat split. }
  assert (Hframe : allowed_tags (snd (load_tags_from_json s))
                   = allowed_tags s
                   /\ esp (snd (load_tags_from_json s)) = esp s
                   /\ serial (snd (load_tags_from_json s)) = serial s).
  { destruct (tags_file s) as [text|] eqn:Hfile.
    - destruct (can_read s) eqn:Hread.
      + destruct (json_loads text) as [v|] eqn:Hjson.
        * destruct v as [|b|n|lit|str|items|members];
            try (rewrite (load_not_array s text _ Hfile Hread Hjson)
                   by discriminate; now apply Hsave).
          rewrite (load_array s text items Hfile Hread Hjson).
          now repeat split.
        * rewrite (load_json_raises s text Hfile Hread Hjson).
          destruct (caught_on_load (json_error text));
            [now apply Hsave | now repeat split].
      + rewrite (load_unreadable s text Hfile Hread). now apply Hsave.
    - rewrite (load_missing s Hfile). now apply Hsave. }
  destruct Hframe as [Ha [He Hs]].
  split; [exact Ha|]. split; [exact He|]. split; [exact Hs|].
  split; [exact (load_returned s)|].
  split; [|exact (load_returns s)].
  intros e Hraise.
  destruct (tags_file s) as [text|] eqn:Hfile.
  - destruct (can_read s) eqn:Hread.
    + destruct (json_loads text) as [v|] eqn:Hjson.
      * destruct v as [|b|n|lit|str|items|members];
          try (rewrite (load_not_array s text _ Hfile Hread Hjson) in Hraise
                 by discriminate; discriminate).
        rewrite (load_array s text items Hfile Hread Hjson) in Hraise.
        discriminate.
      * rewrite (load_json_raises s text Hfile Hread Hjson) in Hraise |- *.
        destruct (caught_on_load (json_error text)) eqn:Hc; [discriminate|].
        injection Hraise as <-.
        split; [exact Hc|]. split; [reflexivity|]. now exists text.
    + rewrite (load_unreadable s text Hfile Hread) in Hraise. discriminate.
  - rewrite (load_missing s Hfile) in Hraise. discriminate.
Qed.

(** X3: a file that exists but cannot be read is treated like a broken
    one: [load_tags_from_json] prints the error, returns the default tags
    and, when the file can be written, overwrites it with the default
    list. *)
Theorem load_unreadable_file (s : state) (text : string) :
  tags_file s = Some text -> can_read s = false ->
  fst (load_tags_from_json s) = Return default_tags
  /\ stdout (snd (load_tags_from_json s))
     = stdout s ++ [ErrorLoadingTags IOError]
       ++ match on_write s with
          | None => []
          | Some _ => [ErrorSavingTags IOError]
          end
  /\ (on_write s = None ->
      tags_file (snd (load_tags_from_json s))
      = Some (json_dumps (JArr default_tags))).
Proof.
  intros Hfile Hread. rewrite (load_unreadable s text Hfile Hread).
  rewrite save_tags_to_json_eq. cbn [on_write add_stdout fst snd].
  destruct (on_write s) as [[|n]|]; cbn; rewrite <- ?app_assoc;
    repeat split; try discriminate.
Qed.

(** X4: loading settles the file.  When the file can be read and written,
    a second [load_tags_from_json] returns what the first returned and
    changes nothing. *)
Theorem load_twice (s : state) :
  can_read s = true -> on_write s = None ->
  let s1 := snd (load_tags_from_json s) in
  load_tags_from_json s1 = (fst (load_tags_from_json s), s1).
Proof.
  intros Hread Hwrite s1. subst s1.
  assert (Hdefault : forall s0,
             can_read s0 = true -> on_write s0 = None ->
             let s1 := snd (save_tags_to_json default_tags s0) in
             load_tags_from_json s1 = (Return default_tags, s1)).
  { intros s0 Hr Hw s1. subst s1. rewrite save_tags_to_json_eq, Hw.
    cbn [snd]. rewrite default_tags_strings.
    apply load_saved_tags; [reflexivity | exact Hr]. }
  destruct (tags_file s) as [text|] eqn:Hfile.
  - destruct (json_loads text) as [v|] eqn:Hjson.
    + destruct v;
        try (rewrite (load_not_array s text _ Hfile Hread Hjson)
               by discriminate;
             cbn [fst snd]; now apply Hdefault).
      rewrite (load_array s text items Hfile Hread Hjson). cbn [fst snd].
      apply (load_array s text items Hfile Hread Hjson).
    + rewrite (load_json_raises s text Hfile Hread Hjson).
      destruct (caught_on_load (json_error text)) eqn:Hcaught; cbn [fst snd].
      * now apply Hdefault.
      * rewrite (load_json_raises s text Hfile Hread Hjson), Hcaught.
        reflexivity.
  - rewrite (load_missing s Hfile). cbn [fst snd]. now apply Hdefault.
Qed.

Lemma list_remove_last (tag : string) (tags : list json) :
  ~ In (JStr tag) tags -> list_remove tag (tags ++ [JStr tag]) = Some tags.
Proof.
  induction tags as [|x tags IH]; intros Hnot; simpl.
  - now rewrite String.eqb_refl.
  - destruct (eq_str x tag) eqn:Hx.
    + apply eq_str_true in Hx. subst x. exfalso. apply Hnot. now left.
    + rewrite IH; [reflexivity|]. intros H. apply Hnot. now right.
Qed.

(** What [add_tag_to_json] and [remove_tag_from_json] leave alone. *)
Lemma add_tag_keeps (tag : string) (s : state) :
  let s' := snd (add_tag_to_json tag s) in
  fst (add_tag_to_json tag s) = Return (negb (py_in tag (allowed_tags s)))
  /\ allowed_tags s'
     = (if py_in tag (allowed_tags s) then allowed_tags s
        else allowed_tags s ++ [JStr tag])
  /\ esp s' = esp s /\ serial s' = serial s /\ ui s' = ui s
  /\ can_read s' = can_read s /\ on_write s' = on_write s.
Proof.
  destruct (py_in tag (allowed_tags s)) eqn:Hin.
  - apply py_in_In in Hin. rewrite (add_tag_present tag s Hin).
    repeat split.
  - apply py_in_not_In in Hin. rewrite (add_tag_absent tag s Hin).
    destruct (save_keeps (allowed_tags s ++ [JStr tag])
                (set_allowed_tags (allowed_tags s ++ [JStr tag]) s))
      as [_ [Ha [He [Hs [Hu [Hr Hw]]]]]].
    cbn [fst snd negb]. rewrite Ha, He, Hs, Hu, Hr, Hw. repeat split.
Qed.

Lemma remove_tag_keeps (tag : string) (s : state) :
  let s' := snd (remove_tag_from_json tag s) in
  fst (remove_tag_from_json tag s) = Return (py_in tag (allowed_tags s))
  /\ list_remove tag (allowed_tags s)
     = (if py_in tag (allowed_tags s) then Some (allowed_tags s') else None)
  /\ (py_in tag (allowed_tags s) = false -> allowed_tags s' = allowed_tags s)
  /\ esp s' = esp s /\ serial s' = serial s /\ ui s' = ui s
  /\ can_read s' = can_read s /\ on_write s' = on_write s.
Proof.
  destruct (py_in tag (allowed_tags s)) eqn:Hin.
  - apply py_in_In in Hin.
    destruct (list_remove_present tag (allowed_tags s) Hin)
      as [before [after [_ [_ Hrem]]]].
    rewrite (remove_tag_present tag s _ Hin Hrem).
    destruct (save_keeps (before ++ after)
                (set_allowed_tags (before ++ after) s))
      as [_ [Ha [He [Hs [Hu [Hr Hw]]]]]].
    cbn [fst snd]. rewrite Ha, He, Hs, Hu, Hr, Hw, Hrem.
    repeat split. discriminate.
  - apply py_in_not_In in Hin. rewrite (remove_tag_absent tag s Hin).
    rewrite (list_remove_absent tag _ Hin). repeat split.
Qed.

(** X5: adding a tag that was not in the store and removing it again gives
    back the store as it was, element for element; both calls return
    [True]; and when the file can be written it ends up holding that
    store. *)
Theorem add_then_remove (tag : string) (s : state) :
  ~ In (JStr tag) (allowed_tags s) ->
  let s1 := snd (add_tag_to_json tag s) in
  let s2 := snd (remove_tag_from_json tag s1) in
  fst (add_tag_to_json tag s) = Return true
  /\ fst (remove_tag_from_json tag s1) = Return true
  /\ allowed_tags s2 = allowed_tags s
  /\ (on_write s = None ->
      tags_file s2 = Some (json_dumps (JArr (allowed_tags s)))).
Proof.
  intros Hnot s1 s2.
  destruct (add_tag_keeps tag s) as [Hret [Hstore [_ [_ [_ [_ Hw]]]]]].
  fold s1 in Hstore, Hw.
  pose proof (proj2 (py_in_not_In _ _) Hnot) as Hnin.
  rewrite Hnin in Hret, Hstore. cbn [negb] in Hret.
  assert (Hin : In (JStr tag) (allowed_tags s1)).
  { rewrite Hstore. apply in_or_app. right. now left. }
  assert (Hrem : list_remove tag (allowed_tags s1) = Some (allowed_tags s)).
  { rewrite Hstore. now apply list_remove_last. }
  subst s2. rewrite (remove_tag_present tag s1 _ Hin Hrem).
  rewrite save_tags_to_json_eq. cbn [fst snd on_write set_allowed_tags].
  rewrite Hw. repeat split; try assumption.
  - destruct (on_write s) as [[|n]|]; reflexivity.
  - intros ->. reflexivity.
Qed.

(** X6: a tag that was just added is granted: after [add_tag_to_json] of a
    non-empty tag (whether it was new or already there, and whether or not
    the file could be written), the access check on it grants, and with the
    port open it sends [open] and a newline. *)
Theorem added_tag_is_granted (tag port : string) (s : state) :
  tag <> ""%string -> esp s = Some port ->
  let s1 := snd (add_tag_to_json tag s) in
  let s2 := snd (check_tag tag s1) in
  In (JStr tag) (allowed_tags s1)
  /\ ui s2 = ui s ++ [ShowTagResult ("ACCESS GRANTED" ++ newline ++ tag)%string
                        true;
                      AddActivity ("✅ Access granted: " ++ tag)%string
                        "success"]
  /\ serial s2 = serial s ++ [SerialWrite ("open" ++ newline)%string].
Proof.
  intros Hne Hesp s1 s2.
  destruct (add_tag_keeps tag s) as [_ [Hstore [He [Hs [Hu _]]]]].
  fold s1 in Hstore, He, Hs, Hu.
  assert (Hin : In (JStr tag) (allowed_tags s1)).
  { rewrite Hstore. destruct (py_in tag (allowed_tags s)) eqn:Hin.
    - now apply py_in_In.
    - apply in_or_app. right. now left. }
  split; [exact Hin|]. subst s2.
  rewrite (check_tag_granted tag s1 Hne Hin). rewrite He, Hesp.
  cbn. rewrite Hu, Hs, <- app_assoc. repeat split.
Qed.

(** X7: a tag removed from a duplicate-free store is denied: after
    [remove_tag_from_json] of a non-empty tag, the access check on it denies
    and sends nothing. *)
Theorem removed_tag_is_denied (tag : string) (s : state) :
  tag <> ""%string -> NoDup (allowed_tags s) ->
  let s1 := snd (remove_tag_from_json tag s) in
  let s2 := snd (check_tag tag s1) in
  ~ In (JStr tag) (allowed_tags s1)
  /\ ui s2 = ui s ++ [ShowTagResult ("ACCESS DENIED" ++ newline ++ tag)%string
                        false;
                      AddActivity ("❌ Access denied: " ++ tag)%string "error"]
  /\ serial s2 = serial s.
Proof.
  intros Hne Hnd s1 s2.
  destruct (remove_tag_keeps tag s) as [_ [Hrem [Hsame [_ [Hs [Hu _]]]]]].
  fold s1 in Hrem, Hsame, Hs, Hu.
  assert (Hin : ~ In (JStr tag) (allowed_tags s1)).
  { destruct (py_in tag (allowed_tags s)) eqn:Hin.
    - apply py_in_In in Hin.
      destruct (list_remove_present tag (allowed_tags s) Hin)
        as [before [after [Hstore [_ Hrem']]]].
      rewrite Hrem' in Hrem. injection Hrem as <-.
      rewrite Hstore in Hnd. apply NoDup_cut in Hnd. apply Hnd.
    - rewrite (Hsame eq_refl). now apply py_in_not_In. }
  split; [exact Hin|]. subst s2.
  rewrite (check_tag_denied tag s1 Hne Hin).
  cbn. rewrite Hu, Hs, <- app_assoc. repeat split.
Qed.

Lemma list_remove_second (tag : string) (before after : list json) :
  In (JStr tag) after ->
  exists rest,
    list_remove tag (before ++ JStr tag :: after) = Some rest
    /\ In (JStr tag) rest
    /\ List.length rest + 1 = List.length (before ++ JStr tag :: after).
Proof.
  intros Hafter. induction before as [|x before IH]; cbn [app list_remove].
  - cbn [eq_str]. rewrite String.eqb_refl. exists after.
    repeat split; [assumption | cbn; lia].
  - destruct (eq_str x tag) eqn:Hx.
    + exists (before ++ JStr tag :: after). repeat split; [|cbn; lia].
      apply in_or_app. right. now left.
    + destruct IH as [rest [Hrem [Hin Hlen]]]. rewrite Hrem.
      exists (x :: rest). repeat split; [now right | cbn; lia].
Qed.

(** X8: [remove_tag_from_json] removes one occurrence only.  When the store
    holds the tag twice (as a file edited by hand can make it), the call
    returns [True], the store is one element shorter, the tag is still in
    it, and the access check still grants it. *)
Theorem remove_leaves_second_copy (tag : string) (s : state)
        (before after : list json) :
  tag <> ""%string ->
  allowed_tags s = before ++ JStr tag :: after ->
  In (JStr tag) after ->
  let s1 := snd (remove_tag_from_json tag s) in
  fst (remove_tag_from_json tag s) = Return true
  /\ In (JStr tag) (allowed_tags s1)
  /\ List.length (allowed_tags s1) + 1 = List.length (allowed_tags s)
  /\ ui (snd (check_tag tag s1))
     = ui s ++ [ShowTagResult ("ACCESS GRANTED" ++ newline ++ tag)%string
                  true;
                AddActivity ("✅ Access granted: " ++ tag)%string "success"].
Proof.
  intros Hne Hstore Hafter s1.
  assert (Hin : In (JStr tag) (allowed_tags s)).
  { rewrite Hstore. apply in_or_app. right. now left. }
  destruct (list_remove_second tag before after Hafter)
    as [rest [Hrem [Hrest Hlen]]].
  rewrite <- Hstore in Hrem, Hlen.
  destruct (remove_tag_keeps tag s) as [Hret [Hrem' [_ [_ [_ [Hu _]]]]]].
  fold s1 in Hrem', Hu.
  rewrite (proj2 (py_in_In _ _) Hin) in Hret, Hrem'.
  rewrite Hrem in Hrem'. injection Hrem' as Hs1.
  assert (Hin1 : In (JStr tag) (allowed_tags s1)) by now rewrite <- Hs1.
  split; [exact Hret|]. split; [exact Hin1|].
  split; [now rewrite <- Hs1|].
  rewrite (check_tag_granted tag s1 Hne Hin1).
  destruct (esp s1); cbn; rewrite Hu, <- app_assoc; reflexivity.
Qed.

Lemma list_remove_strings (tag : string) (l : list string) (rest : list json) :
  list_remove tag (map JStr l) = Some rest -> exists l', rest = map JStr l'.
Proof.
  revert rest. induction l as [|t l IH]; intros rest H; [discriminate|].
  cbn [map list_remove eq_str] in H. destruct (String.eqb t tag).
  - injection H as <-. now exists l.
  - destruct (list_remove tag (map JStr l)) as [r|]; [|discriminate].
    injection H as <-. destruct (IH r eq_refl) as [l' ->].
    now exists (t :: l').
Qed.

Lemma saved_file_holds_store (l : list string) (s : state) :
  allowed_tags s = map JStr l ->
  tags_file s = Some (json_dumps (JArr (map JStr l))) ->
  file_holds_store s.
Proof.
  intros Hstore Hfile. exists (json_dumps (JArr (map JStr l))).
  split; [exact Hfile|]. rewrite Hstore. apply loads_dumps_tags.
Qed.

(** One operation on a store of strings whose file is in step and can be
    written leaves such a store and such a file. *)
Lemma run_op_in_step (op : store_op) (l : list string) (s : state) :
  allowed_tags s = map JStr l -> on_write s = None -> file_holds_store s ->
  let s' := snd (run_op op s) in
  (exists b, fst (run_op op s) = Return b)
  /\ (exists l', allowed_tags s' = map JStr l')
  /\ on_write s' = None /\ can_read s' = can_read s
  /\ file_holds_store s'.
Proof.
  intros Hstore Hwrite Hfile. destruct op as [tag|tag]; cbn [run_op].
  - destruct (py_in tag (allowed_tags s)) eqn:Hin.
    + apply py_in_In in Hin. rewrite (add_tag_present tag s Hin).
      cbn [fst snd]. repeat split; eauto.
    + apply py_in_not_In in Hin. rewrite (add_tag_saved tag s Hin Hwrite).
      cbn [fst snd]. split; [now exists true|].
      assert (Hnew : allowed_tags s ++ [JStr tag] = map JStr (l ++ [tag])).
      { rewrite Hstore, map_app. reflexivity. }
      split; [exists (l ++ [tag]); exact Hnew|].
      split; [exact Hwrite|]. split; [reflexivity|].
      apply (saved_file_holds_store (l ++ [tag])); cbn; now rewrite Hnew.
  - destruct (py_in tag (allowed_tags s)) eqn:Hin.
    + apply py_in_In in Hin.
      destruct (list_remove_present tag (allowed_tags s) Hin)
        as [before [after [_ [_ Hrem]]]].
      rewrite (remove_tag_present tag s _ Hin Hrem).
      rewrite save_tags_to_json_eq. cbn [fst snd on_write set_allowed_tags].
      rewrite Hwrite. rewrite Hstore in Hrem.
      destruct (list_remove_strings tag l _ Hrem) as [l' Hl'].
      split; [now exists true|]. split; [exists l'; exact Hl'|].
      split; [exact Hwrite|]. split; [reflexivity|].
      apply (saved_file_holds_store l'); cbn; now rewrite Hl'.
    + apply py_in_not_In in Hin. rewrite (remove_tag_absent tag s Hin).
      cbn [fst snd]. repeat split; eauto.
Qed.

Lemma run_ops_cons (op : store_op) (ops : list store_op) (s : state)
      (b : bool) :
  fst (run_op op s) = Return b ->
  run_ops (op :: ops) s = run_ops ops (snd (run_op op s)).
Proof.
  cbn [run_ops]. unfold bind.
  destruct (run_op op s) as [o s1]. cbn [fst snd].
  intros ->. reflexivity.
Qed.

(** X9: the file follows the store.  From a store of tags that the file
    holds, with a file that can be written, any run of additions and
    removals ends without an exception, with a store of tags that the file
    holds; if the file can be read, loading it then returns exactly the
    store in memory and changes nothing. *)
Theorem run_ops_file_in_step (ops : list store_op) :
  forall (l : list string) (s : state),
    allowed_tags s = map JStr l -> on_write s = None ->
    file_holds_store s ->
    let s' := snd (run_ops ops s) in
    fst (run_ops ops s) = Return tt
    /\ (exists l', allowed_tags s' = map JStr l')
    /\ file_holds_store s'
    /\ (can_read s = true ->
        load_tags_from_json s' = (Return (allowed_tags s'), s')).
Proof.
  induction ops as [|op ops IH]; intros l s Hstore Hwrite Hfile.
  - cbn. split; [reflexivity|]. split; [now exists l|].
    split; [exact Hfile|]. intros Hread.
    destruct Hfile as [text [Ht Hj]]. now apply (load_array s text).
  - destruct (run_op_in_step op l s Hstore Hwrite Hfile)
      as [[b Hret] [[l1 Hl1] [Hw1 [Hr1 Hf1]]]].
    rewrite (run_ops_cons op ops s b Hret).
    destruct (IH l1 _ Hl1 Hw1 Hf1) as [Hret' [Hl' [Hf' Hload]]].
    split; [exact Hret'|]. split; [exact Hl'|]. split; [exact Hf'|].
    intros Hread. apply Hload. now rewrite Hr1.
Qed.

(** X10: every save writes the whole store, so a later save makes up for a
    failed one.  A new tag added while the file cannot be written, then
    another new tag added once it can: the file holds the store with both
    tags at its end. *)
Theorem later_save_makes_up (fault : write_fault) (t1 t2 : string)
        (s : state) :
  ~ In (JStr t1) (allowed_tags s) -> ~ In (JStr t2) (allowed_tags s) ->
  t1 <> t2 ->
  let s1 := snd (add_tag_to_json t1 (set_on_write (Some fault) s)) in
  let s2 := snd (add_tag_to_json t2 (set_on_write None s1)) in
  fst (add_tag_to_json t1 (set_on_write (Some fault) s)) = Return true
  /\ fst (add_tag_to_json t2 (set_on_write None s1)) = Return true
  /\ allowed_tags s2 = allowed_tags s ++ [JStr t1; JStr t2]
  /\ tags_file s2
     = Some (json_dumps (JArr (allowed_tags s ++ [JStr t1; JStr t2]))).
Proof.
  intros H1 H2 Hne s1 s2.
  destruct (add_tag_keeps t1 (set_on_write (Some fault) s))
    as [Hret [Hstore _]].
  fold s1 in Hstore. cbn [allowed_tags set_on_write] in Hret, Hstore.
  rewrite (proj2 (py_in_not_In _ _) H1) in Hret, Hstore.
  assert (Hnot : ~ In (JStr t2) (allowed_tags (set_on_write None s1))).
  { cbn [allowed_tags set_on_write]. rewrite Hstore, in_app_iff.
    intros [H | [H | []]]; [contradiction|].
    injection H as H. contradiction. }
  subst s2. rewrite (add_tag_saved t2 _ Hnot eq_refl).
  cbn [fst snd allowed_tags set_on_write set_allowed_tags set_tags_file
       tags_file].
  rewrite Hstore, <- app_assoc. cbn [app]. repeat split. exact Hret.
Qed.

End MoreStoreFacts.

(* ------------------------------------------------------------------ *)
(** * The window *)

Section WindowFacts.
Context {J : JsonLib}.

Local Open Scope win_scope.

(** ** The keyboard *)

Lemma append_nil_r (s : string) : (s ++ "")%string = s.
Proof.
  induction s as [|c s IH]; cbn; [reflexivity | now rewrite IH].
Qed.

Lemma eventFilter_idle (ev : event) (w : window) :
  scanning_enabled w = false -> eventFilter ev w = (Done tt, w).
Proof.
  intros Hoff. unfold eventFilter, wbind, wgets. rewrite Hoff.
  destruct ev; reflexivity.
Qed.

Lemma for_each_cons {A} (x : A) (rest : list A) (body : A -> W unit)
      (w : window) :
  fst (body x w) = Done tt ->
  for_each (x :: rest) body w = for_each rest body (snd (body x w)).
Proof.
  cbn [for_each]. unfold wbind. destruct (body x w) as [r w1].
  cbn [fst snd]. intros ->. reflexivity.
Qed.

Lemma for_each_app {A} (l1 l2 : list A) (body : A -> W unit) (w : window) :
  fst (for_each l1 body w) = Done tt ->
  for_each (l1 ++ l2) body w = for_each l2 body (snd (for_each l1 body w)).
Proof.
  revert w. induction l1 as [|x l1 IH]; intros w H; [reflexivity|].
  cbn [List.app for_each] in *. unfold wbind in *.
  destruct (body x w) as [[[]|e] w1]; [|discriminate].
  now apply IH.
Qed.

(** A key other than Return, while scanning: a digit key adds its text to
    the buffer, and nothing else of the state moves but the labels. *)
Lemma eventFilter_key (ev : event) (w : window) :
  scanning_enabled w = true -> is_return ev = false ->
  let w' := snd (eventFilter ev w) in
  fst (eventFilter ev w) = Done tt
  /\ buffer w' = (buffer w ++ digit_text ev)%string
  /\ core w' = core w /\ scanning_enabled w' = true.
Proof.
  intros Hon Hret. unfold eventFilter, wbind, wgets. rewrite Hon.
  destruct ev as [key text|]; cbn [is_return digit_text] in *.
  - rewrite Hret.
    destruct ((Key_0 <=? key)%Z && (key <=? Key_9)%Z); cbn.
    + repeat split. exact Hon.
    + rewrite append_nil_r. repeat split. exact Hon.
  - cbn. rewrite append_nil_r. repeat split. exact Hon.
Qed.

(** Return, while scanning: the buffer is handed to [check_tag] and
    emptied. *)
Lemma eventFilter_return (text : string) (w : window) :
  scanning_enabled w = true ->
  eventFilter (KeyPress Key_Return text) w =
  (Done tt,
   set_core (snd (check_tag (buffer w) (core w)))
     (add_call (SetText tag_display "") (set_buffer "" w))).
Proof.
  intros Hon. unfold eventFilter, wbind, wgets. rewrite Hon.
  cbn -[check_tag]. unfold lift. cbn -[check_tag].
  destruct (check_tag_frame (buffer w) (core w)) as [Hret _].
  destruct (check_tag (buffer w) (core w)) as [o s'].
  cbn [fst snd] in *. subst o. reflexivity.
Qed.

Lemma keys_typed (evs : list event) :
  forall w : window,
    scanning_enabled w = true ->
    forallb (fun ev => negb (is_return ev)) evs = true ->
    let w' := snd (for_each evs eventFilter w) in
    fst (for_each evs eventFilter w) = Done tt
    /\ buffer w' = (buffer w ++ typed evs)%string
    /\ core w' = core w /\ scanning_enabled w' = true.
Proof.
  induction evs as [|ev evs IH]; intros w Hon Hevs.
  - cbn. rewrite append_nil_r. repeat split. exact Hon.
  - cbn [forallb] in Hevs. apply andb_true_iff in Hevs.
    destruct Hevs as [Hev Hevs]. apply negb_true_iff in Hev.
    destruct (eventFilter_key ev w Hon Hev) as [Hret [Hbuf [Hcore Hon']]].
    rewrite (for_each_cons ev evs eventFilter w Hret).
    destruct (IH _ Hon' Hevs) as [Hret' [Hbuf' [Hcore' Hon'']]].
    cbn [typed]. rewrite Hbuf', Hbuf, Hcore', Hcore, append_assoc.
    repeat split; assumption.
Qed.

Lemma return_after_keys (evs : list event) (text : string) (w : window) :
  scanning_enabled w = true ->
  forallb (fun ev => negb (is_return ev)) evs = true ->
  let run := for_each (evs ++ [KeyPress Key_Return text]) eventFilter w in
  fst run = Done tt
  /\ core (snd run)
     = snd (check_tag (buffer w ++ typed evs)%string (core w))
  /\ buffer (snd run) = ""%string
  /\ scanning_enabled (snd run) = true.
Proof.
  intros Hon Hevs run. subst run.
  destruct (keys_typed evs w Hon Hevs) as [Hret [Hbuf [Hcore Hon']]].
  rewrite (for_each_app evs _ eventFilter w Hret).
  rewrite for_each_cons
    by (rewrite (eventFilter_return text _ Hon'); reflexivity).
  rewrite (eventFilter_return text _ Hon'). cbn [for_each]. unfold wret.
  cbn [fst snd core buffer scanning_enabled set_core add_call set_calls
       set_buffer].
  rewrite Hbuf, Hcore. repeat split. exact Hon'.
Qed.

(** X11: what is typed is what is checked.  While scanning, after any run
    of events without a Return, a press of Return hands [check_tag] the
    buffer followed by the texts of the presses of the keys [0] to [9], in
    order (the other keys and events add nothing), and empties the buffer;
    scanning goes on.  With a device that accepts the write of a grant, as
    [esp_write] takes it, and Qt calls that succeed, no exception is
    raised. *)
Theorem keys_then_return (evs : list event) (text : string) (w : window) :
  scanning_enabled w = true ->
  forallb (fun ev => negb (is_return ev)) evs = true ->
  let run := for_each (evs ++ [KeyPress Key_Return text]) eventFilter w in
  fst run = Done tt
  /\ core (snd run)
     = snd (check_tag (buffer w ++ typed evs)%string (core w))
  /\ buffer (snd run) = ""%string
  /\ scanning_enabled (snd run) = true.
Proof.
  exact (return_after_keys evs text w).
Qed.

(** X12: while scanning is off, the keyboard does nothing: whatever events
    reach [eventFilter], the window, the store, the file and the serial line
    stay exactly as they are. *)
Theorem keys_ignored_when_idle (evs : list event) (w : window) :
  scanning_enabled w = false ->
  for_each evs eventFilter w = (Done tt, w).
Proof.
  intros Hoff. induction evs as [|ev evs IH]; [reflexivity|].
  rewrite (for_each_cons ev evs eventFilter w);
    rewrite (eventFilter_idle ev w Hoff); [exact IH | reflexivity].
Qed.

(** ** Scanning mode *)

Ltac wrun :=
  unfold enable_scanning, disable_scanning, toggle_scanning, refresh_ports,
    add_new_tag, remove_selected_tag, on_yes, closeEvent, serial_Serial,
    show_message_dialog, set_text, set_style, combo_addItem, wtry, wbind,
    wgets, wmodify, wraise, wret, lift, add_activity, modify, gets;
  cbv beta iota.

(** With no port selected, or with the placeholder of an empty port list
    selected, [enable_scanning] shows a message and does nothing else. *)
Lemma enable_scanning_refused (w : window) :
  (String.eqb (currentText w) "" || contains "No ports" (currentText w))
  = true ->
  enable_scanning w =
  (Done tt,
   add_call (ShowMessageDialog "No Port"
               "Please select a valid COM port first." false) w).
Proof.
  intros H. wrun. rewrite H. reflexivity.
Qed.

Lemma enable_scanning_fails (w : window) (msg : string) :
  (String.eqb (currentText w) "" || contains "No ports" (currentText w))
  = false ->
  port_fails w (before_sep " - " (currentText w)) = Some msg ->
  let port := before_sep " - " (currentText w) in
  let w' := snd (enable_scanning w) in
  fst (enable_scanning w) = Done tt
  /\ scanning_enabled w' = scanning_enabled w
  /\ buffer w' = buffer w
  /\ esp (core w') = esp (core w)
  /\ allowed_tags (core w') = allowed_tags (core w)
  /\ serial (core w') = serial (core w)
  /\ tag_list w' = tag_list w
  /\ calls w' = calls w ++
       [PortOpen port BAUD_RATE 1;
        SetText scan_label "CONNECTION FAILED";
        ShowMessageDialog "Connection Error"
          ("Failed to connect:" ++ newline ++ msg)%string true]
  /\ ui (core w') = ui (core w) ++
       [AddActivity ("❌ Connection failed: " ++ substring 0 40 msg)%string
          "error"].
Proof.
  intros Hsel Hfail port w'. subst w' port. wrun. rewrite Hsel.
  cbv beta iota. cbn [port_fails add_call set_calls]. rewrite Hfail.
  cbn. rewrite <- !app_assoc. repeat split.
Qed.

Lemma enable_scanning_opens (w : window) :
  (String.eqb (currentText w) "" || contains "No ports" (currentText w))
  = false ->
  port_fails w (before_sep " - " (currentText w)) = None ->
  let port := before_sep " - " (currentText w) in
  let w' := snd (enable_scanning w) in
  fst (enable_scanning w) = Done tt
  /\ scanning_enabled w' = true
  /\ buffer w' = buffer w
  /\ esp (core w') = Some port
  /\ allowed_tags (core w') = allowed_tags (core w)
  /\ serial (core w') = serial (core w)
  /\ tag_list w' = tag_list w
  /\ ui (core w') = ui (core w) ++
       [AddActivity "📡 Scanning started" "success"].
Proof.
  intros Hsel Hopen port w'. subst w' port. wrun. rewrite Hsel.
  cbv beta iota. cbn [port_fails add_call set_calls]. rewrite Hopen.
  cbn. repeat split.
Qed.

Lemma disable_scanning_frame (w : window) :
  let w' := snd (disable_scanning w) in
  fst (disable_scanning w) = Done tt
  /\ scanning_enabled w' = false
  /\ buffer w' = ""%string
  /\ esp (core w') = None
  /\ allowed_tags (core w') = allowed_tags (core w)
  /\ serial (core w') = serial (core w)
  /\ tag_list w' = tag_list w
  /\ calls w' = calls w ++
       match esp (core w) with
       | Some p => [PortClose p]
       | None => []
       end ++
       [SetText scan_label "READY TO SCAN"; SetText scan_icon "📱";
        SetText status_indicator "● Disconnected";
        SetStyleSheet status_indicator;
        SetText scan_control_btn "▶ Start Scanning";
        SetStyleSheet scan_control_btn; SetText tag_display ""].
Proof.
  wrun. cbn [core set_scanning_enabled].
  destruct (esp (core w)) as [p|] eqn:Hesp; cbn;
    rewrite ?Hesp, <- ?app_assoc; repeat apply conj; reflexivity.
Qed.

(** ** The port list *)

Lemma addItems_more (labels : list string) :
  forall w : window,
    port_items w <> [] ->
    for_each labels combo_addItem w =
    (Done tt, set_port_items (port_items w ++ labels) w).
Proof.
  induction labels as [|l labels IH]; intros w Hne.
  - cbn. rewrite app_nil_r. destruct w; reflexivity.
  - rewrite for_each_cons.
    + unfold combo_addItem, wmodify. cbn [snd].
      destruct (port_items w) as [|i items] eqn:Hitems; [contradiction|].
      rewrite IH by (cbn; destruct items; discriminate).
      cbn. rewrite <- app_assoc. reflexivity.
    + reflexivity.
Qed.

Lemma for_each_map {A B} (f : A -> B) (l : list A) (body : B -> W unit)
      (w : window) :
  for_each l (fun x => body (f x)) w = for_each (map f l) body w.
Proof.
  revert w. induction l as [|x l IH]; intros w; [reflexivity|].
  cbn [map for_each]. unfold wbind. destruct (body (f x) w) as [[[]|e] w1];
    [apply IH | reflexivity].
Qed.

(** [refresh_ports] rebuilds the port list from what [comports()] returns,
    with its first item current, and touches nothing else. *)
Lemma refresh_ports_eq (w : window) :
  refresh_ports w =
  (Done tt,
   set_port_enabled (match comports w with [] => false | _ => true end)
     (set_port_index 0
        (set_port_items
           (match comports w with
            | [] => ["No ports available"%string]
            | ports => map (fun p => (fst p ++ " - " ++ snd p)%string) ports
            end) w))).
Proof.
  unfold refresh_ports, wbind at 1, wmodify at 1.
  unfold wbind at 1, wgets. cbn [comports set_port_items].
  destruct (comports w) as [|p ports] eqn:Hports.
  - destruct w; reflexivity.
  - unfold wbind. rewrite for_each_map. cbn [map].
    rewrite for_each_cons by reflexivity.
    unfold combo_addItem at 2, wmodify at 1. cbn [snd port_items set_port_items].
    rewrite addItems_more by (cbn; discriminate).
    unfold wmodify. destruct w; reflexivity.
Qed.

(** ** The settings panel: adding and removing tags *)

Lemma add_new_tag_empty (w : window) :
  strip (new_tag_input w) = ""%string ->
  add_new_tag w =
  (Done tt,
   add_call (ShowMessageDialog "Empty Tag" "Please enter a tag ID." false) w).
Proof.
  intros H. unfold add_new_tag, wbind, wgets. rewrite H. reflexivity.
Qed.

Lemma add_new_tag_duplicate (w : window) :
  strip (new_tag_input w) <> ""%string ->
  In (JStr (strip (new_tag_input w))) (allowed_tags (core w)) ->
  add_new_tag w =
  (Done tt,
   add_call (ShowMessageDialog "Duplicate Tag"
               "This tag is already in the list." false)
     (set_core (core w) w)).
Proof.
  intros Hne Hin. apply String.eqb_neq in Hne. apply py_in_In in Hin.
  unfold add_new_tag, wbind, wgets, lift, gets. rewrite Hne.
  cbv beta iota. rewrite Hin. reflexivity.
Qed.

Lemma add_new_tag_added (w : window) :
  strip (new_tag_input w) <> ""%string ->
  ~ In (JStr (strip (new_tag_input w))) (allowed_tags (core w)) ->
  let tag := strip (new_tag_input w) in
  let s1 := snd (add_tag_to_json tag (core w)) in
  add_new_tag w =
  (Done tt,
   set_core (add_ui (AddActivity ("➕ Tag added: " ++ tag)%string "info") s1)
     (set_new_tag_input ""
        (set_tag_list (tag_list w ++ [tag]) (set_core s1 w)))).
Proof.
  intros Hne Hin tag s1. subst s1 tag.
  apply String.eqb_neq in Hne.
  pose proof (proj2 (py_in_not_In _ _) Hin) as Hnin.
  destruct (add_tag_keeps (strip (new_tag_input w)) (core w)) as [Hret _].
  rewrite Hnin in Hret. cbn [negb] in Hret.
  unfold add_new_tag, wbind, wgets, lift, gets. rewrite Hne.
  cbv beta iota. rewrite Hnin. cbv beta iota.
  cbn [core set_core new_tag_input].
  destruct (add_tag_to_json (strip (new_tag_input w)) (core w)) as [o s1].
  cbn [fst snd] in *. subst o. reflexivity.
Qed.

Lemma remove_selected_nothing (current : option nat) (yes : bool)
      (w : window) :
  match current with
  | Some row => nth_error (tag_list w) row = None
  | None => True
  end ->
  remove_selected_tag current yes w = (Done tt, w).
Proof.
  intros H. unfold remove_selected_tag, wbind, wgets.
  destruct current as [row|]; [rewrite H|]; reflexivity.
Qed.

Lemma remove_selected_no (row : nat) (tag : string) (w : window) :
  nth_error (tag_list w) row = Some tag ->
  remove_selected_tag (Some row) false w =
  (Done tt,
   add_call (ConfirmDialog ("Remove tag '" ++ tag ++ "'?")%string) w).
Proof.
  intros H. unfold remove_selected_tag, wbind, wgets, wmodify.
  rewrite H. reflexivity.
Qed.

Lemma remove_selected_yes (row : nat) (tag : string) (w : window) :
  nth_error (tag_list w) row = Some tag ->
  let s1 := snd (remove_tag_from_json tag (core w)) in
  let asked :=
    add_call (ConfirmDialog ("Remove tag '" ++ tag ++ "'?")%string) w in
  remove_selected_tag (Some row) true w =
  (Done tt,
   if py_in tag (allowed_tags (core w)) then
     set_core
       (add_ui (AddActivity ("🗑️ Tag removed: " ++ tag)%string "info") s1)
       (set_tag_list (take_item row (tag_list w)) (set_core s1 asked))
   else
     set_core
       (add_ui (AddActivity ("⚠️ Failed to remove: " ++ tag)%string "error")
          s1)
       (set_core s1 asked)).
Proof.
  intros H s1 asked. subst s1 asked.
  destruct (remove_tag_keeps tag (core w)) as [Hret _].
  unfold remove_selected_tag, on_yes, wtry, wbind, wgets, wmodify, lift.
  rewrite H. cbv beta iota. cbn [core add_call set_calls].
  destruct (remove_tag_from_json tag (core w)) as [o s1].
  cbn [fst snd] in *. subst o.
  destruct (py_in tag (allowed_tags (core w))); reflexivity.
Qed.

(** ** The port is open exactly while scanning *)

Lemma in_step_same (w w' : window) :
  scanning_enabled w' = scanning_enabled w -> buffer w' = buffer w ->
  esp (core w') = esp (core w) ->
  scanning_in_step w -> scanning_in_step w'.
Proof.
  unfold scanning_in_step. intros -> -> ->. exact (fun H => H).
Qed.

Lemma eventFilter_in_step (ev : event) (w : window) :
  scanning_in_step w ->
  fst (eventFilter ev w) = Done tt
  /\ scanning_in_step (snd (eventFilter ev w)).
Proof.
  intros Hstep. destruct (scanning_enabled w) eqn:Hon.
  - destruct (is_return ev) eqn:Hret.
    + destruct ev as [key text|]; [|discriminate].
      cbn [is_return] in Hret. apply Z.eqb_eq in Hret. subst key.
      rewrite (eventFilter_return text w Hon). split; [reflexivity|].
      destruct (check_tag_frame (buffer w) (core w)) as [_ [_ [Hesp _]]].
      destruct Hstep as [Hopen _]. split; cbn; intros H.
      * rewrite Hesp. now apply Hopen.
      * rewrite Hon in H. discriminate.
    + destruct (eventFilter_key ev w Hon Hret) as [Hdone [_ [Hcore Hon']]].
      split; [exact Hdone|]. destruct Hstep as [Hopen _].
      split; intros H.
      * rewrite Hcore. now apply Hopen.
      * rewrite Hon' in H. discriminate.
  - rewrite (eventFilter_idle ev w Hon). now split.
Qed.

Lemma toggle_scanning_in_step (w : window) :
  scanning_in_step w ->
  fst (toggle_scanning w) = Done tt
  /\ scanning_in_step (snd (toggle_scanning w)).
Proof.
  intros Hstep. unfold toggle_scanning, wbind, wgets.
  destruct (scanning_enabled w) eqn:Hon.
  - destruct (disable_scanning_frame w) as [Hdone [Hoff [Hbuf [Hesp _]]]].
    split; [exact Hdone|]. split; intros H.
    + rewrite Hoff in H. discriminate.
    + now split.
  - destruct (String.eqb (currentText w) ""
              || contains "No ports" (currentText w)) eqn:Hsel.
    + rewrite (enable_scanning_refused w Hsel). split; [reflexivity|].
      now apply (in_step_same w).
    + destruct (port_fails w (before_sep " - " (currentText w)))
        as [msg|] eqn:Hport.
      * destruct (enable_scanning_fails w msg Hsel Hport)
          as [Hdone [Hs [Hb [He _]]]].
        split; [exact Hdone|]. now apply (in_step_same w).
      * destruct (enable_scanning_opens w Hsel Hport)
          as [Hdone [Hs [Hb [He _]]]].
        split; [exact Hdone|]. split; intros H.
        -- rewrite He. discriminate.
        -- rewrite Hs in H. discriminate.
Qed.

Lemma add_new_tag_in_step (w : window) :
  scanning_in_step w ->
  fst (add_new_tag w) = Done tt /\ scanning_in_step (snd (add_new_tag w)).
Proof.
  intros Hstep.
  destruct (String.eqb (strip (new_tag_input w)) "") eqn:Hempty.
  - apply String.eqb_eq in Hempty. rewrite (add_new_tag_empty w Hempty).
    split; [reflexivity|]. now apply (in_step_same w).
  - apply String.eqb_neq in Hempty.
    destruct (py_in (strip (new_tag_input w)) (allowed_tags (core w)))
      eqn:Hin.
    + apply py_in_In in Hin. rewrite (add_new_tag_duplicate w Hempty Hin).
      split; [reflexivity|]. now apply (in_step_same w).
    + apply py_in_not_In in Hin. rewrite (add_new_tag_added w Hempty Hin).
      split; [reflexivity|].
      destruct (add_tag_keeps (strip (new_tag_input w)) (core w))
        as [_ [_ [He _]]].
      apply (in_step_same w); [reflexivity | reflexivity | exact He |
                               exact Hstep].
Qed.

Lemma remove_selected_in_step (current : option nat) (yes : bool)
      (w : window) :
  scanning_in_step w ->
  fst (remove_selected_tag current yes w) = Done tt
  /\ scanning_in_step (snd (remove_selected_tag current yes w)).
Proof.
  intros Hstep. destruct current as [row|].
  - destruct (nth_error (tag_list w) row) as [tag|] eqn:Hrow.
    + destruct yes.
      * rewrite (remove_selected_yes row tag w Hrow).
        split; [reflexivity|].
        destruct (remove_tag_keeps tag (core w)) as [_ [_ [_ [He _]]]].
        destruct (py_in tag (allowed_tags (core w)));
          (apply (in_step_same w);
           [reflexivity | reflexivity | exact He | exact Hstep]).
      * rewrite (remove_selected_no row tag w Hrow).
        split; [reflexivity|]. now apply (in_step_same w).
    + rewrite (remove_selected_nothing (Some row) yes w Hrow). now split.
  - rewrite (remove_selected_nothing None yes w I). now split.
Qed.

Lemma run_action_in_step (a : action) (w : window) :
  scanning_in_step w ->
  fst (run_action a w) = Done tt /\ scanning_in_step (snd (run_action a w)).
Proof.
  intros Hstep. destruct a; cbn [run_action].
  - now apply eventFilter_in_step.
  - now apply toggle_scanning_in_step.
  - rewrite refresh_ports_eq. split; [reflexivity|].
    now apply (in_step_same w).
  - now apply add_new_tag_in_step.
  - now apply remove_selected_in_step.
  - split; [reflexivity|]. now apply (in_step_same w).
  - split; [reflexivity|]. now apply (in_step_same w).
  - split; [reflexivity|]. now apply (in_step_same w).
Qed.

(** X13: whatever the user and the ports do (keys, clicks on the scan,
    refresh, add and remove buttons, edits, ports coming and going), no
    method raises, the port stays open exactly while scanning is on, and
    the buffer is empty while it is off. *)
Theorem port_open_while_scanning (acts : list action) (w : window) :
  scanning_in_step w ->
  fst (for_each acts run_action w) = Done tt
  /\ scanning_in_step (snd (for_each acts run_action w)).
Proof.
  revert w. induction acts as [|a acts IH]; intros w Hstep.
  - now split.
  - destruct (run_action_in_step a w Hstep) as [Hdone Hstep'].
    rewrite (for_each_cons a acts run_action w Hdone). now apply IH.
Qed.

(** X14: a scan opens the lock exactly for a stored tag.  While scanning,
    with the port open as it is whenever scanning is on, the digits typed
    and a Return send [open] and a newline on the serial line when the
    digits are a tag of the store, and send nothing otherwise (an empty
    scan included). *)
Theorem scan_sends_open_iff_stored (evs : list event) (text : string)
        (w : window) :
  scanning_in_step w -> scanning_enabled w = true ->
  forallb (fun ev => negb (is_return ev)) evs = true ->
  let tag := (buffer w ++ typed evs)%string in
  let run := for_each (evs ++ [KeyPress Key_Return text]) eventFilter w in
  fst run = Done tt
  /\ serial (core (snd run))
     = serial (core w) ++
       (if negb (String.eqb tag "") && py_in tag (allowed_tags (core w))
        then [SerialWrite ("open" ++ newline)%string]
        else []).
Proof.
  intros [Hopen _] Hon Hevs tag run.
  destruct (return_after_keys evs text w Hon Hevs) as [Hdone [Hcore _]].
  fold run in Hdone, Hcore. split; [exact Hdone|].
  rewrite Hcore. fold tag.
  destruct (check_tag_frame tag (core w)) as [_ [_ [_ [_ [_ Hserial]]]]].
  rewrite Hserial.
  destruct (esp (core w)) as [p|] eqn:Hesp; [reflexivity|].
  exfalso. now apply (Hopen Hon).
Qed.

(** X15: scanning starts only when the port opens.  [enable_scanning] never
    raises; it leaves the store, the serial line and the buffer alone; with
    a usable selection whose port opens, scanning is on and the open port is
    the text of the selection before its first [" - "]; in every other case
    (nothing selected, the "No ports" placeholder, a port that fails to
    open) scanning and the port are as before. *)
Theorem enable_scanning_outcome (w : window) :
  let port := before_sep " - " (currentText w) in
  let usable :=
    negb (String.eqb (currentText w) ""
          || contains "No ports" (currentText w)) in
  let w' := snd (enable_scanning w) in
  fst (enable_scanning w) = Done tt
  /\ allowed_tags (core w') = allowed_tags (core w)
  /\ serial (core w') = serial (core w)
  /\ buffer w' = buffer w
  /\ match port_fails w port with
     | None =>
         if usable
         then scanning_enabled w' = true /\ esp (core w') = Some port
         else scanning_enabled w' = scanning_enabled w
              /\ esp (core w') = esp (core w)
     | Some _ =>
         scanning_enabled w' = scanning_enabled w
         /\ esp (core w') = esp (core w)
     end.
Proof.
  intros port usable w'. subst port usable w'.
  destruct (String.eqb (currentText w) ""
            || contains "No ports" (currentText w)) eqn:Hsel.
  - rewrite (enable_scanning_refused w Hsel). cbn.
    destruct (port_fails w (before_sep " - " (currentText w)));
      repeat split.
  - destruct (port_fails w (before_sep " - " (currentText w)))
      as [msg|] eqn:Hport.
    + destruct (enable_scanning_fails w msg Hsel Hport)
        as [Hdone [Hs [Hb [He [Ha [Hser _]]]]]].
      repeat split; assumption.
    + destruct (enable_scanning_opens w Hsel Hport)
        as [Hdone [Hs [Hb [He [Ha [Hser _]]]]]].
      cbn [negb]. repeat split; assumption.
Qed.

(** X16: a port that fails to open is reported, not raised: the label
    reads CONNECTION FAILED, the activity list gets the first 40 characters
    of the message of the exception, the error dialog gets the whole
    message, and scanning stays as it was. *)
Theorem connection_failure_reported (w : window) (msg : string) :
  (String.eqb (currentText w) "" || contains "No ports" (currentText w))
  = false ->
  port_fails w (before_sep " - " (currentText w)) = Some msg ->
  let port := before_sep " - " (currentText w) in
  let w' := snd (enable_scanning w) in
  fst (enable_scanning w) = Done tt
  /\ scanning_enabled w' = scanning_enabled w
  /\ buffer w' = buffer w
  /\ esp (core w') = esp (core w)
  /\ allowed_tags (core w') = allowed_tags (core w)
  /\ serial (core w') = serial (core w)
  /\ tag_list w' = tag_list w
  /\ calls w' = calls w ++
       [PortOpen port BAUD_RATE 1;
        SetText scan_label "CONNECTION FAILED";
        ShowMessageDialog "Connection Error"
          ("Failed to connect:" ++ newline ++ msg)%string true]
  /\ ui (core w') = ui (core w) ++
       [AddActivity ("❌ Connection failed: " ++ substring 0 40 msg)%string
          "error"].
Proof.
  exact (enable_scanning_fails w msg).
Qed.

Lemma prefix_append (p r : string) : String.prefix p (p ++ r) = true.
Proof.
  induction p as [|a p IH]; cbn.
  - destruct r; reflexivity.
  - destruct (ascii_dec a a); [exact IH | contradiction].
Qed.

Lemma before_sep_eq (sep s : string) :
  before_sep sep s =
  if String.prefix sep s then ""%string
  else match s with
       | ""%string => ""%string
       | String c r => String c (before_sep sep r)
       end.
Proof. destruct s; reflexivity. Qed.

Lemma before_sep_device (dev desc : string) :
  contains " " dev = false ->
  before_sep " - " (dev ++ " - " ++ desc)%string = dev.
Proof.
  remember (" - " ++ desc)%string as tail eqn:Htail.
  induction dev as [|c dev IH]; intros Hdev.
  - rewrite before_sep_eq. cbn [append]. subst tail.
    now rewrite prefix_append.
  - cbn [contains String.prefix] in Hdev.
    rewrite before_sep_eq. cbn [append String.prefix].
    destruct (ascii_dec " " c) as [Heq|Hne].
    + destruct dev; cbn in Hdev; discriminate.
    + rewrite IH; [reflexivity|]. exact Hdev.
Qed.

(** X17: the port list and the scan button agree.  After [refresh_ports],
    [enable_scanning] opens the device of the first port that [comports()]
    listed, at 115200 baud with a timeout of 1, provided the device name
    has no space, its line in the list does not contain "No ports", and the
    port opens; and when [comports()] listed nothing, it opens nothing and
    only shows the "No Port" message. *)
Theorem refresh_then_enable (w : window) :
  let w1 := snd (refresh_ports w) in
  let w2 := snd (enable_scanning w1) in
  match comports w with
  | [] =>
      enable_scanning w1 =
      (Done tt,
       add_call (ShowMessageDialog "No Port"
                   "Please select a valid COM port first." false) w1)
  | (dev, desc) :: _ =>
      contains " " dev = false ->
      contains "No ports" (dev ++ " - " ++ desc)%string = false ->
      port_fails w dev = None ->
      scanning_enabled w2 = true
      /\ esp (core w2) = Some dev
      /\ In (PortOpen dev 115200 1) (calls w2)
  end.
Proof.
  intros w1 w2. subst w2 w1. rewrite refresh_ports_eq. cbn [snd].
  destruct (comports w) as [|[dev desc] rest] eqn:Hports.
  - apply enable_scanning_refused. reflexivity.
  - intros Hdev Hlabel Hopen.
    set (w1 := set_port_enabled _ _).
    assert (Htext : currentText w1 = (dev ++ " - " ++ desc)%string)
      by reflexivity.
    assert (Hsel : (String.eqb (currentText w1) ""
                    || contains "No ports" (currentText w1)) = false).
    { rewrite Htext, Hlabel. destruct dev; reflexivity. }
    assert (Hport : port_fails w1 (before_sep " - " (currentText w1)) = None).
    { rewrite Htext, (before_sep_device dev desc Hdev). exact Hopen. }
    destruct (enable_scanning_opens w1 Hsel Hport)
      as [_ [Hs [_ [He _]]]].
    rewrite Htext, (before_sep_device dev desc Hdev) in He.
    split; [exact Hs|]. split; [exact He|].
    unfold enable_scanning, wbind at 1, wgets at 1. rewrite Hsel.
    cbv beta iota. rewrite Htext, (before_sep_device dev desc Hdev).
    wrun. cbn [port_fails add_call set_calls].
    change (port_fails w1 dev) with (port_fails w dev). rewrite Hopen.
    cbn. rewrite <- !app_assoc. apply in_or_app. right. now left.
Qed.

(** ** The list of the settings panel *)

Lemma rstrip_nonspace (c : ascii) (r : string) :
  isspace c = false -> rstrip (String c r) = String c (rstrip r).
Proof.
  intros Hc. cbn [rstrip]. rewrite Hc. destruct (rstrip r); reflexivity.
Qed.

Lemma rstrip_idem (s : string) : rstrip (rstrip s) = rstrip s.
Proof.
  induction s as [|c s IH]; [reflexivity|].
  cbn [rstrip]. destruct (rstrip s) as [|c' r'] eqn:Hr.
  - destruct (isspace c) eqn:Hc; [reflexivity|].
    cbn [rstrip]. now rewrite Hc.
  - cbn [rstrip]. cbn [rstrip] in IH. rewrite IH. reflexivity.
Qed.

Lemma lstrip_head (s : string) :
  lstrip s = ""%string
  \/ exists c r, lstrip s = String c r /\ isspace c = false.
Proof.
  induction s as [|c s IH]; [now left|].
  cbn [lstrip]. destruct (isspace c) eqn:Hc; [exact IH|].
  right. now exists c, s.
Qed.

Lemma strip_idem (s : string) : strip (strip s) = strip s.
Proof.
  unfold strip. destruct (lstrip_head s) as [-> | [c [r [-> Hc]]]].
  - reflexivity.
  - rewrite (rstrip_nonspace c r Hc). cbn [lstrip]. rewrite Hc.
    rewrite <- (rstrip_nonspace c r Hc). apply rstrip_idem.
Qed.

Lemma strip_blank (s : string) :
  (forall c, In c (list_ascii_of_string s) -> isspace c = true) ->
  strip s = ""%string.
Proof.
  intros Hall. unfold strip.
  assert (H : lstrip s = ""%string).
  { induction s as [|c s IH]; [reflexivity|].
    cbn [lstrip]. rewrite (Hall c) by now left.
    apply IH. intros c' Hc'. apply Hall. now right. }
  now rewrite H.
Qed.

Lemma In_take_item {A} (y : A) (row : nat) (items : list A) :
  In y (take_item row items) -> In y items.
Proof.
  revert row. induction items as [|x items IH]; intros row H;
    [destruct row; exact H|].
  destruct row as [|k]; cbn [take_item] in H.
  - now right.
  - destruct H as [H | H]; [now left | right; now apply (IH k)].
Qed.

(** Taking a row out of a duplicate-free list of tags is removing its tag
    from the store that the list shows. *)
Lemma remove_row (l : list string) :
  forall (row : nat) (t : string),
    NoDup l -> nth_error l row = Some t ->
    list_remove t (map JStr l) = Some (map JStr (take_item row l))
    /\ NoDup (take_item row l) /\ ~ In t (take_item row l).
Proof.
  induction l as [|x l IH]; intros row t Hnd Hrow.
  - destruct row; discriminate.
  - inversion Hnd as [|x' l' Hx Hl]; subst.
    destruct row as [|k]; cbn [nth_error] in Hrow.
    + injection Hrow as ->. cbn [map list_remove eq_str take_item].
      rewrite String.eqb_refl. repeat split; assumption.
    + assert (Hin : In t l) by (eapply nth_error_In; eassumption).
      assert (Hne : x <> t) by (intros ->; contradiction).
      destruct (IH k t Hl Hrow) as [Hrem [Hnd' Hnot]].
      cbn [map list_remove eq_str take_item].
      rewrite (proj2 (String.eqb_neq x t) Hne), Hrem.
      repeat split.
      * constructor; [|exact Hnd'].
        intros H. apply Hx. now apply (In_take_item x k l).
      * intros [H | H]; [now apply Hne | now apply Hnot].
Qed.

(** X18: [add_new_tag] strips the text of the input and never raises.  An
    empty result (the input was empty or blank) and a tag already in the
    store each get their message and change nothing; otherwise the stripped
    tag goes to the end of the store and of the list and the input is
    cleared.  The message "Failed to add tag to storage." is never shown,
    and a stored tag has no white space at either end. *)
Theorem add_new_tag_spec (w : window) :
  let tag := strip (new_tag_input w) in
  let w' := snd (add_new_tag w) in
  fst (add_new_tag w) = Done tt
  /\ strip tag = tag
  /\ ((forall c, In c (list_ascii_of_string (new_tag_input w)) ->
                 isspace c = true) -> tag = ""%string)
  /\ (if String.eqb tag "" then
        allowed_tags (core w') = allowed_tags (core w)
        /\ tags_file (core w') = tags_file (core w)
        /\ tag_list w' = tag_list w
        /\ new_tag_input w' = new_tag_input w
        /\ calls w' = calls w ++
             [ShowMessageDialog "Empty Tag" "Please enter a tag ID." false]
      else if py_in tag (allowed_tags (core w)) then
        allowed_tags (core w') = allowed_tags (core w)
        /\ tags_file (core w') = tags_file (core w)
        /\ tag_list w' = tag_list w
        /\ new_tag_input w' = new_tag_input w
        /\ calls w' = calls w ++
             [ShowMessageDialog "Duplicate Tag"
                "This tag is already in the list." false]
      else
        allowed_tags (core w') = allowed_tags (core w) ++ [JStr tag]
        /\ tag_list w' = tag_list w ++ [tag]
        /\ new_tag_input w' = ""%string
        /\ calls w' = calls w
        /\ ui (core w') = ui (core w) ++
             [AddActivity ("➕ Tag added: " ++ tag)%string "info"]).
Proof.
  intros tag w'. subst w'.
  split; [|split; [apply strip_idem | split; [apply strip_blank|]]].
  - destruct (String.eqb tag "") eqn:Hempty.
    + apply String.eqb_eq in Hempty.
      now rewrite (add_new_tag_empty w Hempty).
    + apply String.eqb_neq in Hempty.
      destruct (py_in tag (allowed_tags (core w))) eqn:Hin.
      * apply py_in_In in Hin.
        now rewrite (add_new_tag_duplicate w Hempty Hin).
      * apply py_in_not_In in Hin.
        now rewrite (add_new_tag_added w Hempty Hin).
  - destruct (String.eqb tag "") eqn:Hempty.
    + apply String.eqb_eq in Hempty.
      rewrite (add_new_tag_empty w Hempty). repeat split.
    + apply String.eqb_neq in Hempty.
      destruct (py_in tag (allowed_tags (core w))) eqn:Hin.
      * apply py_in_In in Hin.
        rewrite (add_new_tag_duplicate w Hempty Hin). repeat split.
      * pose proof (proj1 (py_in_not_In _ _) Hin) as Hnot.
        rewrite (add_new_tag_added w Hempty Hnot).
        destruct (add_tag_keeps tag (core w))
          as [_ [Hstore [_ [_ [Hu _]]]]].
        rewrite Hin in Hstore.
        cbn [fst snd core set_core add_ui allowed_tags tag_list ui calls
             new_tag_input set_new_tag_input set_tag_list].
        fold tag. rewrite Hstore, Hu. repeat split.
Qed.

(** X19: removing the selected tag.  With the list showing a
    duplicate-free store: answering NO changes nothing (the dialog was
    shown); answering YES never raises, takes the selected row out of the
    list and its tag out of the store, and the list still shows the store,
    which no longer holds the tag.  With no item selected nothing happens
    at all. *)
Theorem remove_selected_tag_spec (row : nat) (tag : string) (w : window) :
  list_shows_store w -> NoDup (tag_list w) ->
  nth_error (tag_list w) row = Some tag ->
  let w' := snd (remove_selected_tag (Some row) true w) in
  remove_selected_tag None true w = (Done tt, w)
  /\ remove_selected_tag (Some row) false w =
     (Done tt,
      add_call (ConfirmDialog ("Remove tag '" ++ tag ++ "'?")%string) w)
  /\ fst (remove_selected_tag (Some row) true w) = Done tt
  /\ tag_list w' = take_item row (tag_list w)
  /\ list_shows_store w'
  /\ ~ In (JStr tag) (allowed_tags (core w'))
  /\ ui (core w') = ui (core w) ++
       [AddActivity ("🗑️ Tag removed: " ++ tag)%string "info"].
Proof.
  intros Hshow Hnd Hrow w'. subst w'.
  split; [now apply remove_selected_nothing|].
  split; [now apply remove_selected_no|].
  rewrite (remove_selected_yes row tag w Hrow).
  destruct (remove_row (tag_list w) row tag Hnd Hrow) as [Hrem [_ Hnot]].
  destruct (remove_tag_keeps tag (core w)) as [_ [Hrem' [_ [_ [_ [Hu _]]]]]].
  unfold list_shows_store in Hshow.
  assert (Hin : py_in tag (allowed_tags (core w)) = true).
  { apply py_in_In. rewrite Hshow, In_map_JStr.
    eapply nth_error_In; eassumption. }
  rewrite Hin in *. rewrite Hshow, Hrem in Hrem'. injection Hrem' as Hs1.
  unfold list_shows_store.
  cbn [fst snd core set_core add_ui allowed_tags tag_list ui calls
       set_tag_list add_call set_calls].
  rewrite <- Hs1, Hu. repeat split. now rewrite In_map_JStr.
Qed.

Lemma eventFilter_list (ev : event) (w : window) :
  let w' := snd (eventFilter ev w) in
  allowed_tags (core w') = allowed_tags (core w)
  /\ tag_list w' = tag_list w.
Proof.
  destruct (scanning_enabled w) eqn:Hon.
  - destruct (is_return ev) eqn:Hret.
    + destruct ev as [key text|]; [|discriminate].
      cbn [is_return] in Hret. apply Z.eqb_eq in Hret. subst key.
      rewrite (eventFilter_return text w Hon).
      destruct (check_tag_frame (buffer w) (core w)) as [_ [Ha _]].
      split; [exact Ha | reflexivity].
    + unfold eventFilter, wbind, wgets. rewrite Hon.
      destruct ev as [key text|]; [|now split].
      cbn [is_return] in Hret. rewrite Hret.
      destruct ((Key_0 <=? key)%Z && (key <=? Key_9)%Z); now split.
  - rewrite (eventFilter_idle ev w Hon). now split.
Qed.

Lemma shows_same (w w' : window) :
  allowed_tags (core w') = allowed_tags (core w) ->
  tag_list w' = tag_list w ->
  list_shows_store w /\ NoDup (tag_list w) ->
  list_shows_store w' /\ NoDup (tag_list w').
Proof.
  unfold list_shows_store. intros -> ->. exact (fun H => H).
Qed.

Lemma run_action_shows (a : action) (w : window) :
  list_shows_store w /\ NoDup (tag_list w) ->
  list_shows_store (snd (run_action a w))
  /\ NoDup (tag_list (snd (run_action a w))).
Proof.
  intros Hinv. destruct a; cbn [run_action].
  - destruct (eventFilter_list ev w) as [Ha Hl].
    now apply (shows_same w).
  - unfold toggle_scanning, wbind, wgets.
    destruct (scanning_enabled w).
    + destruct (disable_scanning_frame w)
        as [_ [_ [_ [_ [Ha [_ [Hl _]]]]]]].
      now apply (shows_same w).
    + destruct (String.eqb (currentText w) ""
                || contains "No ports" (currentText w)) eqn:Hsel.
      * rewrite (enable_scanning_refused w Hsel).
        now apply (shows_same w).
      * destruct (port_fails w (before_sep " - " (currentText w)))
          as [msg|] eqn:Hport.
        -- destruct (enable_scanning_fails w msg Hsel Hport)
             as [_ [_ [_ [_ [Ha [_ [Hl _]]]]]]].
           now apply (shows_same w).
        -- destruct (enable_scanning_opens w Hsel Hport)
             as [_ [_ [_ [_ [Ha [_ [Hl _]]]]]]].
           now apply (shows_same w).
  - rewrite refresh_ports_eq. now apply (shows_same w).
  - destruct (String.eqb (strip (new_tag_input w)) "") eqn:Hempty.
    + apply String.eqb_eq in Hempty. rewrite (add_new_tag_empty w Hempty).
      now apply (shows_same w).
    + apply String.eqb_neq in Hempty.
      destruct (py_in (strip (new_tag_input w)) (allowed_tags (core w)))
        eqn:Hin.
      * apply py_in_In in Hin. rewrite (add_new_tag_duplicate w Hempty Hin).
        now apply (shows_same w).
      * pose proof (proj1 (py_in_not_In _ _) Hin) as Hnot.
        rewrite (add_new_tag_added w Hempty Hnot).
        destruct (add_tag_keeps (strip (new_tag_input w)) (core w))
          as [_ [Hstore _]].
        rewrite Hin in Hstore. destruct Hinv as [Hshow Hnd].
        unfold list_shows_store in *.
        cbn [snd core set_core add_ui allowed_tags tag_list
             set_new_tag_input set_tag_list].
        rewrite Hstore, Hshow, map_app. split; [reflexivity|].
        apply NoDup_snoc; [exact Hnd|].
        rewrite Hshow, In_map_JStr in Hnot. exact Hnot.
  - destruct current as [row|].
    + destruct (nth_error (tag_list w) row) as [tag|] eqn:Hrow.
      * destruct yes.
        -- rewrite (remove_selected_yes row tag w Hrow).
           destruct Hinv as [Hshow Hnd].
           destruct (remove_row (tag_list w) row tag Hnd Hrow)
             as [Hrem [Hnd' _]].
           destruct (remove_tag_keeps tag (core w)) as [_ [Hrem' _]].
           unfold list_shows_store in *.
           assert (Hin : py_in tag (allowed_tags (core w)) = true).
           { apply py_in_In. rewrite Hshow, In_map_JStr.
             eapply nth_error_In; eassumption. }
           rewrite Hin in *. rewrite Hshow, Hrem in Hrem'.
           injection Hrem' as Hs1.
           cbn [snd core set_core add_ui allowed_tags tag_list
                set_tag_list add_call set_calls].
           rewrite <- Hs1. now split.
        -- rewrite (remove_selected_no row tag w Hrow).
           now apply (shows_same w).
      * now rewrite (remove_selected_nothing (Some row) yes w Hrow).
    + now rewrite (remove_selected_nothing None yes w I).
  - now apply (shows_same w).
  - now apply (shows_same w).
  - now apply (shows_same w).
Qed.

Lemma NoDup_map_JStr (l : list string) : NoDup l -> NoDup (map JStr l).
Proof.
  induction 1 as [|x l Hx Hl IH]; cbn [map]; constructor;
    [now rewrite In_map_JStr | exact IH].
Qed.

(** X20: the list of the settings panel keeps showing the store.  If the
    list shows a duplicate-free store, then after any run of keys, clicks,
    edits and port changes it still does: same tags, same order, no
    duplicates. *)
Theorem list_keeps_showing_store (acts : list action) (w : window) :
  list_shows_store w -> NoDup (tag_list w) ->
  let w' := snd (for_each acts run_action w) in
  list_shows_store w' /\ NoDup (tag_list w')
  /\ NoDup (allowed_tags (core w')).
Proof.
  intros Hshow Hnd w'. subst w'.
  assert (H : list_shows_store (snd (for_each acts run_action w))
              /\ NoDup (tag_list (snd (for_each acts run_action w)))).
  { revert w Hshow Hnd.
    induction acts as [|a acts IH]; intros w Hshow Hnd; [now split|].
    pose proof (run_action_shows a w (conj Hshow Hnd)) as Hnext.
    cbn [for_each]. unfold wbind.
    destruct (run_action a w) as [[[]|e] w1]; cbn [snd] in *.
    - now apply IH.
    - exact Hnext. }
  destruct H as [Hshow' Hnd']. split; [exact Hshow'|].
  split; [exact Hnd'|]. rewrite Hshow'. now apply NoDup_map_JStr.
Qed.

End WindowFacts.

(* ------------------------------------------------------------------ *)
(** * The activity list and the result labels *)

Lemma keep_six {A} (l : list A) :
  List.length l <= 7 ->
  (if Nat.ltb 6 (List.length l) then take_item 6 l else l) = firstn 6 l.
Proof.
  intros Hlen.
  do 7 (destruct l as [|? l]; [reflexivity|]).
  destruct l; [reflexivity | cbn in Hlen; lia].
Qed.

Lemma firstn_six_cons {A} (x : A) (l : list A) :
  firstn 6 (x :: firstn 6 l) = firstn 6 (x :: l).
Proof.
  do 6 (destruct l as [|? l]; [reflexivity|]). reflexivity.
Qed.

(** X21: the activity list holds the six latest entries, newest first.
    Adding to a list of at most six items puts the new item on top and
    keeps the first six; so after any number of additions to the empty
    list, the list is the last six entries, latest first, and never longer
    than six. *)
Theorem activity_list_keeps_six :
  (forall timestamp message type_ items,
      List.length items <= 6 ->
      activity_list_add timestamp message type_ items
      = firstn 6 (("[" ++ timestamp ++ "] " ++ message, activity_color type_)
                    :: items)%string)
  /\ (forall entries : list (string * string * string),
         let items :=
           fold_left
             (fun items e =>
                activity_list_add (fst (fst e)) (snd (fst e)) (snd e) items)
             entries [] in
         items
         = firstn 6
             (rev (map (fun e =>
                          (("[" ++ fst (fst e) ++ "] " ++ snd (fst e))%string,
                           activity_color (snd e))) entries))
         /\ List.length items <= 6).
Proof.
  assert (Hadd : forall timestamp message type_ items,
             List.length items <= 6 ->
             activity_list_add timestamp message type_ items
             = firstn 6 (("[" ++ timestamp ++ "] " ++ message,
                          activity_color type_) :: items)%string).
  { intros timestamp message type_ items Hlen. unfold activity_list_add.
    apply keep_six. cbn [List.length]. lia. }
  split; [exact Hadd|].
  intros entries items. subst items.
  induction entries as [|e entries IH] using rev_ind.
  - cbn. split; [reflexivity | lia].
  - rewrite fold_left_app. cbn [fold_left].
    destruct IH as [IH Hlen]. rewrite Hadd by exact Hlen.
    rewrite IH, firstn_six_cons, map_app, rev_app_distr.
    split; [reflexivity|]. apply firstn_le_length.
Qed.

Lemma prefix_empty (s : string) : String.prefix "" s = true.
Proof. destruct s; reflexivity. Qed.

Lemma contains_newline_cons (c : ascii) (s : string) :
  contains newline (String c s)
  = (Ascii.eqb c "010" || contains newline s).
Proof.
  unfold newline. cbn [contains String.prefix]. rewrite prefix_empty.
  destruct (ascii_dec "010" c) as [<- | Hne].
  - reflexivity.
  - destruct (Ascii.eqb_spec c "010"); [congruence | reflexivity].
Qed.

Lemma split_char_head (s : string) :
  exists rest,
    split_char "010" s = before_sep newline s :: rest
    /\ (contains newline s = true -> rest <> []).
Proof.
  induction s as [|c s [rest [IH Hrest]]].
  - exists []. split; [reflexivity | discriminate].
  - rewrite contains_newline_cons, before_sep_eq.
    unfold newline at 1. cbn [split_char String.prefix].
    rewrite prefix_empty.
    destruct (Ascii.eqb_spec c "010") as [-> | Hne].
    + destruct (ascii_dec "010" "010"); [|contradiction].
      exists (split_char "010" s). split; [reflexivity|].
      intros _. rewrite IH. discriminate.
    + destruct (ascii_dec "010" c); [congruence|].
      rewrite IH. exists rest. split; [reflexivity | exact Hrest].
Qed.

Lemma contains_newline_middle (head tag : string) :
  contains newline (head ++ newline ++ tag) = true.
Proof.
  induction head as [|c head IH].
  - cbn [append]. unfold newline at 2. cbn [append].
    rewrite contains_newline_cons. reflexivity.
  - cbn [append]. rewrite contains_newline_cons, IH. apply orb_true_r.
Qed.

Lemma split_char_middle (head tag : string) :
  contains newline head = false ->
  split_char "010" (head ++ newline ++ tag)
  = head :: split_char "010" tag.
Proof.
  induction head as [|c head IH]; intros Hhead.
  - unfold newline. reflexivity.
  - rewrite contains_newline_cons in Hhead.
    apply orb_false_iff in Hhead. destruct Hhead as [Hc Hhead].
    cbn [append split_char]. rewrite Hc, (IH Hhead). reflexivity.
Qed.

(** X22: what the result labels show.  [show_tag_result] never fails on
    its [split('\n')[1]]; the status label reads ACCESS GRANTED or ACCESS
    DENIED by [success] alone, so the words EMPTY TAG never reach the
    screen: an empty scan shows ACCESS DENIED with no tag; and for the text
    of a grant or a denial the tag label shows the tag up to its first
    newline, the whole tag when it has none. *)
Theorem result_labels (text : string) (success : bool) :
  (exists tag_id,
      show_tag_result_labels text success =
      Some (mkTagResult
              (if success then "ACCESS GRANTED" else "ACCESS DENIED")
              (if success then "#1dd1a1" else "#ff4757")
              (if success then "✅" else "❌") tag_id))
  /\ (contains newline text = false ->
      show_tag_result_labels text false =
      Some (mkTagResult "ACCESS DENIED" "#ff4757" "❌" ""))
  /\ (forall head tag,
         text = (head ++ newline ++ tag)%string ->
         contains newline head = false ->
         show_tag_result_labels text success =
         Some (mkTagResult
                 (if success then "ACCESS GRANTED" else "ACCESS DENIED")
                 (if success then "#1dd1a1" else "#ff4757")
                 (if success then "✅" else "❌")
                 (before_sep newline tag))).
Proof.
  split; [|split].
  - unfold show_tag_result_labels.
    destruct (contains newline text) eqn:Hnl; [|eauto].
    destruct (split_char_head text) as [rest [Hsplit Hrest]].
    rewrite Hsplit. destruct rest as [|tag_id rest]; [now elim (Hrest Hnl)|].
    cbn [nth_error]. eauto.
  - intros Hnl. unfold show_tag_result_labels. now rewrite Hnl.
  - intros head tag -> Hhead. unfold show_tag_result_labels.
    rewrite contains_newline_middle, (split_char_middle head tag Hhead).
    destruct (split_char_head tag) as [rest [Hsplit _]].
    rewrite Hsplit. reflexivity.
Qed.

(* ------------------------------------------------------------------ *)
(** * Opening the settings panel, and start-up *)

Section PanelFacts.
Context {J : JsonLib}.
Variable addItem_other : json -> W unit.

Lemma set_tag_list_twice (l1 l2 : list string) (w : window) :
  set_tag_list l2 (set_tag_list l1 w) = set_tag_list l2 w.
Proof. reflexivity. Qed.

(** Adding strings to the list puts them at its end, in order. *)
Lemma addItem_strings (l : list string) :
  forall w : window,
    for_each (map JStr l) (list_addItem addItem_other) w =
    (Done tt, set_tag_list (tag_list w ++ l) w).
Proof.
  induction l as [|x l IH]; intros w.
  - cbn. rewrite app_nil_r. destruct w; reflexivity.
  - cbn [map]. rewrite for_each_cons by reflexivity.
    rewrite IH. cbn. rewrite <- app_assoc. reflexivity.
Qed.

(** [load_tags] on a store of strings: the list is the store. *)
Lemma load_tags_strings (l : list string) (w : window) :
  allowed_tags (core w) = map JStr l ->
  load_tags addItem_other w = (Done tt, set_tag_list l w).
Proof.
  intros Hstore. unfold load_tags, wbind, wmodify, lift, gets.
  cbn [core set_tag_list fst snd]. rewrite Hstore.
  replace (set_core (core w) (set_tag_list [] w)) with (set_tag_list [] w)
    by (destruct w; reflexivity).
  rewrite addItem_strings. reflexivity.
Qed.

(** What [load_tags_from_json] returns from a file of strings is a list of
    strings, and it leaves the port and the calls on the widgets alone. *)
Lemma load_strings (s : state) :
  file_of_strings s -> file_is_handled s ->
  exists l : list string,
    fst (load_tags_from_json s) = Return (map JStr l)
    /\ ui (snd (load_tags_from_json s)) = ui s
    /\ serial (snd (load_tags_from_json s)) = serial s.
Proof.
  intros Hfile Hok.
  assert (Hsave : forall s0,
             ui s0 = ui s -> serial s0 = serial s ->
             exists l : list string,
               Return default_tags = Return (map JStr l)
               /\ ui (snd (save_tags_to_json default_tags s0)) = ui s
               /\ serial (snd (save_tags_to_json default_tags s0))
                  = serial s).
  { intros s0 Hu0 Hs0.
    exists ["0001234567"; "0009876543"; "0005555555"; "12345";
            "67890"]%string.
    destruct (save_keeps default_tags s0) as [_ [_ [_ [Hs [Hu _]]]]].
    split; [reflexivity|]. split; [now rewrite Hu | now rewrite Hs]. }
  destruct (tags_file s) as [text|] eqn:Htext.
  - destruct (can_read s) eqn:Hread.
    + destruct (json_loads text) as [v|] eqn:Hjson.
      * destruct v as [|b|n|lit|str|items|members];
          try (rewrite (load_not_array s text _ Htext Hread Hjson)
                 by discriminate;
               cbn [fst snd]; now apply Hsave).
        destruct (Hfile text items Htext Hread Hjson) as [l ->].
        rewrite (load_array s text _ Htext Hread Hjson).
        exists l. now repeat split.
      * rewrite (load_json_raises s text Htext Hread Hjson).
        rewrite (Hok text Htext Hread Hjson).
        cbn [fst snd]. now apply Hsave.
    + rewrite (load_unreadable s text Htext Hread).
      cbn [fst snd]. now apply Hsave.
  - rewrite (load_missing s Htext).
    cbn [fst snd]. now apply Hsave.
Qed.

(** [initUI] on a store of strings. *)
Lemma initUI_eq (l : list string) (w : window) :
  allowed_tags (core w) = map JStr l ->
  initUI addItem_other w =
  (Done tt,
   set_new_tag_input ""
     (set_tag_list l
        (set_port_enabled (match comports w with [] => false | _ => true end)
           (set_port_index 0
              (set_port_items
                 (match comports w with
                  | [] => ["No ports available"%string]
                  | ports =>
                      map (fun p => (fst p ++ " - " ++ snd p)%string) ports
                  end) w))))).
Proof.
  intros Hstore. unfold initUI, wbind, wmodify.
  rewrite refresh_ports_eq.
  rewrite (load_tags_strings l) by exact Hstore.
  destruct w; reflexivity.
Qed.

(** X23: opening the settings panel makes the list show the store.  With a
    store of strings, [open_settings_panel] never raises; whatever the list
    held before, its items are then the tags of the store, in order; the
    port list is rebuilt as by [refresh_ports]; and the store, the file, the
    port, the scanning mode, the buffer and the tag input stay as they
    are. *)
Theorem open_settings_panel_shows_store (l : list string) (w : window) :
  allowed_tags (core w) = map JStr l ->
  let w' := snd (open_settings_panel addItem_other w) in
  fst (open_settings_panel addItem_other w) = Done tt
  /\ tag_list w' = l
  /\ list_shows_store w'
  /\ port_items w' = port_items (snd (refresh_ports w))
  /\ port_index w' = 0
  /\ core w' = core w
  /\ scanning_enabled w' = scanning_enabled w
  /\ buffer w' = buffer w
  /\ new_tag_input w' = new_tag_input w
  /\ calls w' = calls w.
Proof.
  intros Hstore. unfold open_settings_panel, wbind.
  rewrite refresh_ports_eq.
  rewrite (load_tags_strings l) by exact Hstore.
  cbn [fst snd]. unfold list_shows_store.
  split; [reflexivity|]. split; [reflexivity|]. split; [exact Hstore|].
  now repeat split.
Qed.

(** X24: start-up.  When [load_tags_from_json] raises (an exception of
    [json.load] that it does not catch), [__init__] raises it and no window
    is built.  Otherwise, with a file that is missing, cannot be read, is
    not JSON, is not a list, or holds a list of strings, [__init__] does not
    raise; the store is what [load_tags_from_json] returned; scanning is off
    with no port and an empty buffer, so the port and the scanning mode are
    in step; the list shows the store; the port list is the one of
    [refresh_ports]; and no access result was shown and nothing was sent to
    the lock. *)
Theorem start_up (w : window) :
  file_of_strings (core w) ->
  (forall e, fst (load_tags_from_json (core w)) = Raise e ->
             fst (__init__ addItem_other w) = Fail (PyExn e))
  /\ (file_is_handled (core w) ->
      let w' := snd (__init__ addItem_other w) in
      fst (__init__ addItem_other w) = Done tt
      /\ Return (allowed_tags (core w')) = fst (load_tags_from_json (core w))
      /\ scanning_enabled w' = false
      /\ buffer w' = ""%string
      /\ esp (core w') = None
      /\ scanning_in_step w'
      /\ list_shows_store w'
      /\ new_tag_input w' = ""%string
      /\ port_items w' = port_items (snd (refresh_ports w))
      /\ currentText w' = nth 0 (port_items (snd (refresh_ports w))) ""%string
      /\ ui (core w') = ui (core w)
      /\ serial (core w') = serial (core w)
      /\ calls w' = calls w).
Proof.
  intros Hfile. split.
  { intros e Hraise. unfold __init__, wbind, lift.
    destruct (load_tags_from_json (core w)) as [[tags|e'] s1];
      cbn [fst] in Hraise; [discriminate|].
    injection Hraise as ->. reflexivity. }
  intros Hok. cbv zeta.
  destruct (load_strings (core w) Hfile Hok) as [l [Hret [Hui Hserial]]].
  unfold __init__, wbind, lift, modify, wmodify.
  destruct (load_tags_from_json (core w)) as [[tags|e] s1] eqn:Hload;
    cbn [fst snd] in Hret, Hui, Hserial; [|discriminate].
  injection Hret as ->.
  cbn [core set_core set_scanning_enabled set_buffer fst snd].
  rewrite (initUI_eq l) by reflexivity.
  rewrite refresh_ports_eq.
  cbn [fst snd]. unfold scanning_in_step, list_shows_store, currentText.
  cbn.
  split; [reflexivity|]. split; [reflexivity|]. split; [reflexivity|].
  split; [reflexivity|]. split; [reflexivity|].
  split; [split; [discriminate | now split]|].
  split; [reflexivity|]. split; [reflexivity|]. split; [reflexivity|].
  split; [reflexivity|]. split; [exact Hui|]. split; [exact Hserial|].
  reflexivity.
Qed.

End PanelFacts.

(* ------------------------------------------------------------------ *)
(** * The further theorems at work *)

Lemma load_unreadable_file_witness :
  let s := start [] None (Some "[]"%string) false None in
  tags_file s = Some "[]"%string /\ can_read s = false
  /\ fst (load_tags_from_json s) = Return default_tags
  /\ stdout (snd (load_tags_from_json s)) = [ErrorLoadingTags IOError]
  /\ tags_file (snd (load_tags_from_json s))
     = Some (json_dumps (JArr default_tags)).
Proof.
  intros s.
  destruct (load_unreadable_file s "[]" eq_refl eq_refl)
    as [Hret [Hout Hfile]].
  repeat apply conj;
    [reflexivity | reflexivity | exact Hret | exact Hout
    | exact (Hfile eq_refl)].
Defined.

Lemma load_twice_witness :
  let s := start [] None (Some "{}"%string) true None in
  let s1 := snd (load_tags_from_json s) in
  can_read s = true /\ on_write s = None
  /\ load_tags_from_json s1 = (fst (load_tags_from_json s), s1).
Proof.
  intros s s1.
  split; [reflexivity|]. split; [reflexivity|].
  exact (load_twice s eq_refl eq_refl).
Defined.

Lemma add_then_remove_witness :
  let s := start default_tags None None true None in
  let s1 := snd (add_tag_to_json "424242" s) in
  let s2 := snd (remove_tag_from_json "424242" s1) in
  ~ In (JStr "424242") (allowed_tags s)
  /\ fst (remove_tag_from_json "424242" s1) = Return true
  /\ allowed_tags s2 = default_tags
  /\ tags_file s2 = Some (json_dumps (JArr default_tags)).
Proof.
  intros s s1 s2.
  assert (Hnot : ~ In (JStr "424242") (allowed_tags s))
    by (simpl; intuition discriminate).
  destruct (add_then_remove "424242" s Hnot) as [_ [Hret [Hstore Hfile]]].
  repeat apply conj;
    [exact Hnot | exact Hret | exact Hstore | exact (Hfile eq_refl)].
Defined.

Lemma added_tag_is_granted_witness :
  let s := start [] (Some "COM3"%string) None true (Some OpenRefused) in
  let s1 := snd (add_tag_to_json "424242" s) in
  "424242"%string <> ""%string /\ esp s = Some "COM3"%string
  /\ In (JStr "424242") (allowed_tags s1)
  /\ serial (snd (check_tag "424242" s1))
     = [SerialWrite ("open" ++ newline)%string].
Proof.
  intros s s1.
  assert (Hne : "424242"%string <> ""%string) by discriminate.
  destruct (added_tag_is_granted "424242" "COM3" s Hne eq_refl)
    as [Hin [_ Hserial]].
  repeat apply conj; [exact Hne | reflexivity | exact Hin | exact Hserial].
Defined.

Lemma removed_tag_is_denied_witness :
  let s := start default_tags (Some "COM3"%string) None true None in
  let s1 := snd (remove_tag_from_json "12345" s) in
  "12345"%string <> ""%string /\ NoDup (allowed_tags s)
  /\ ~ In (JStr "12345") (allowed_tags s1)
  /\ serial (snd (check_tag "12345" s1)) = [].
Proof.
  intros s s1.
  assert (Hne : "12345"%string <> ""%string) by discriminate.
  destruct (removed_tag_is_denied "12345" s Hne NoDup_default_tags)
    as [Hnot [_ Hserial]].
  repeat apply conj;
    [exact Hne | exact NoDup_default_tags | exact Hnot | exact Hserial].
Defined.

Lemma remove_leaves_second_copy_witness :
  let s := start [JStr "12345"; JStr "67890"; JStr "12345"] None None true
             None in
  let s1 := snd (remove_tag_from_json "12345" s) in
  allowed_tags s = [] ++ JStr "12345" :: [JStr "67890"; JStr "12345"]
  /\ In (JStr "12345") [JStr "67890"; JStr "12345"]
  /\ fst (remove_tag_from_json "12345" s) = Return true
  /\ In (JStr "12345") (allowed_tags s1)
  /\ List.length (allowed_tags s1) + 1 = 3.
Proof.
  intros s s1.
  assert (Hne : "12345"%string <> ""%string) by discriminate.
  assert (Hin : In (JStr "12345") [JStr "67890"; JStr "12345"])
    by (right; left; reflexivity).
  destruct (remove_leaves_second_copy "12345" s [] _ Hne eq_refl Hin)
    as [Hret [Hstill [Hlen _]]].
  repeat apply conj;
    [reflexivity | exact Hin | exact Hret | exact Hstill | exact Hlen].
Defined.

Lemma run_ops_file_in_step_witness :
  let s := start [] None (Some "[]"%string) true None in
  let ops := [OpAdd "111"; OpAdd "222"; OpRemove "111"; OpRemove "333";
              OpAdd "222"]%string in
  let s' := snd (run_ops ops s) in
  file_holds_store s
  /\ fst (run_ops ops s) = Return tt
  /\ file_holds_store s'
  /\ load_tags_from_json s' = (Return (allowed_tags s'), s').
Proof.
  intros s ops s'.
  assert (Hfile : file_holds_store s).
  { exists "[]"%string. split; reflexivity. }
  destruct (run_ops_file_in_step ops [] s eq_refl eq_refl Hfile)
    as [Hret [_ [Hfile' Hload]]].
  repeat apply conj;
    [exact Hfile | exact Hret | exact Hfile' | exact (Hload eq_refl)].
Defined.

Lemma later_save_makes_up_witness :
  let s := start [JStr "111"] None (Some "[]"%string) true None in
  let s1 := snd (add_tag_to_json "222" (set_on_write (Some (WriteCut 3)) s)) in
  let s2 := snd (add_tag_to_json "333" (set_on_write None s1)) in
  "222"%string <> "333"%string
  /\ allowed_tags s2 = [JStr "111"; JStr "222"; JStr "333"]
  /\ tags_file s2
     = Some (json_dumps (JArr [JStr "111"; JStr "222"; JStr "333"])).
Proof.
  intros s s1 s2.
  assert (H1 : ~ In (JStr "222") (allowed_tags s))
    by (simpl; intuition discriminate).
  assert (H2 : ~ In (JStr "333") (allowed_tags s))
    by (simpl; intuition discriminate).
  assert (Hne : "222"%string <> "333"%string) by discriminate.
  destruct (later_save_makes_up (WriteCut 3) "222" "333" s H1 H2 Hne)
    as [_ [_ [Hstore Hfile]]].
  repeat apply conj; [exact Hne | exact Hstore | exact Hfile].
Defined.

Lemma keys_then_return_witness :
  let w := example_window true (Some "COM3"%string) "" in
  let run := for_each (OtherEvent :: KeyPress 65 "a" :: keys_12345
                         ++ [KeyPress Key_Return ""]) eventFilter w in
  scanning_enabled w = true
  /\ fst run = Done tt
  /\ core (snd run) = snd (check_tag "12345" (core w))
  /\ buffer (snd run) = ""%string.
Proof.
  intros w run.
  destruct (keys_then_return (OtherEvent :: KeyPress 65 "a" :: keys_12345)
              "" w eq_refl eq_refl) as [Hdone [Hcore [Hbuf _]]].
  repeat apply conj; [reflexivity | exact Hdone | exact Hcore | exact Hbuf].
Defined.

Lemma keys_ignored_when_idle_witness :
  let w := example_window false None "" in
  scanning_enabled w = false
  /\ for_each (keys_12345 ++ [KeyPress Key_Return ""]) eventFilter w
     = (Done tt, w).
Proof.
  intros w. split; [reflexivity|].
  exact (keys_ignored_when_idle (keys_12345 ++ [KeyPress Key_Return ""])
           w eq_refl).
Defined.

Lemma idle_in_step : scanning_in_step (example_window false None "").
Proof.
  split; intros H; [discriminate | now split].
Defined.

Lemma scanning_started_in_step :
  scanning_in_step (example_window true (Some "COM3"%string) "").
Proof.
  split; intros H; [discriminate | discriminate].
Defined.

Lemma port_open_while_scanning_witness :
  let w := example_window false None "" in
  let acts := [Filter (KeyPress 49 "1"); ClickScanControl;
               Filter (KeyPress 49 "1"); ClickAdd; EditTagInput " 777 ";
               ClickAdd; ClickRemove (Some 0) true; ClickScanControl;
               PortsChange [] (fun _ => Some "gone"%string); ClickRefresh;
               ClickScanControl]%string in
  scanning_in_step w
  /\ fst (for_each acts run_action w) = Done tt
  /\ scanning_in_step (snd (for_each acts run_action w)).
Proof.
  intros w acts. split; [exact idle_in_step|].
  exact (port_open_while_scanning acts w idle_in_step).
Defined.

Lemma scan_sends_open_iff_stored_witness :
  let w := example_window true (Some "COM3"%string) "" in
  let run := for_each (keys_12345 ++ [KeyPress Key_Return ""]) eventFilter w in
  scanning_in_step w /\ scanning_enabled w = true
  /\ fst run = Done tt
  /\ serial (core (snd run)) = [SerialWrite ("open" ++ newline)%string].
Proof.
  intros w run.
  destruct (scan_sends_open_iff_stored keys_12345 "" w
              scanning_started_in_step eq_refl eq_refl) as [Hdone Hserial].
  split; [exact scanning_started_in_step|]. split; [reflexivity|].
  split; [exact Hdone | exact Hserial].
Defined.

Lemma connection_failure_reported_witness :
  let w := set_ports [("COM3", "USB Serial")]%string
             (fun _ => Some "could not open port 'COM3': Access is denied."
                         %string)
             (example_window false None "") in
  let w' := snd (enable_scanning w) in
  port_fails w (before_sep " - " (currentText w))
  = Some "could not open port 'COM3': Access is denied."%string
  /\ fst (enable_scanning w) = Done tt
  /\ scanning_enabled w' = false
  /\ esp (core w') = None
  /\ ui (core w')
     = [AddActivity
          "❌ Connection failed: could not open port 'COM3': Access is de"
          "error"].
Proof.
  intros w w'.
  destruct (connection_failure_reported w
              "could not open port 'COM3': Access is denied."
              eq_refl eq_refl)
    as [Hdone [Hs [_ [He [_ [_ [_ [_ Hui]]]]]]]].
  repeat apply conj;
    [reflexivity | exact Hdone | exact Hs | exact He | exact Hui].
Defined.

Lemma remove_selected_tag_spec_witness :
  let w := example_window false None "" in
  let w' := snd (remove_selected_tag (Some 3) true w) in
  list_shows_store w /\ NoDup (tag_list w)
  /\ nth_error (tag_list w) 3 = Some "12345"%string
  /\ fst (remove_selected_tag (Some 3) true w) = Done tt
  /\ tag_list w'
     = ["0001234567"; "0009876543"; "0005555555"; "67890"]%string
  /\ list_shows_store w'
  /\ ~ In (JStr "12345") (allowed_tags (core w')).
Proof.
  intros w w'.
  assert (Hshow : list_shows_store w) by reflexivity.
  assert (Hnd : NoDup (tag_list w)).
  { repeat (constructor; [simpl; intuition discriminate|]). constructor. }
  destruct (remove_selected_tag_spec 3 "12345" w Hshow Hnd eq_refl)
    as [_ [_ [Hdone [Hlist [Hshow' [Hnot _]]]]]].
  repeat apply conj;
    [exact Hshow | exact Hnd | reflexivity | exact Hdone | exact Hlist
    | exact Hshow' | exact Hnot].
Defined.

Lemma list_keeps_showing_store_witness :
  let w := example_window false None "" in
  let acts := [EditTagInput " 777 "; ClickAdd; ClickAdd;
               ClickRemove (Some 0) true; ClickRemove (Some 9) true;
               ClickRemove (Some 1) false; ClickScanControl;
               Filter (KeyPress 49 "1")]%string in
  let w' := snd (for_each acts run_action w) in
  list_shows_store w /\ NoDup (tag_list w)
  /\ list_shows_store w' /\ NoDup (tag_list w').
Proof.
  intros w acts w'.
  assert (Hshow : list_shows_store w) by reflexivity.
  assert (Hnd : NoDup (tag_list w)).
  { repeat (constructor; [simpl; intuition discriminate|]). constructor. }
  destruct (list_keeps_showing_store acts w Hshow Hnd) as [Hshow' [Hnd' _]].
  repeat apply conj; [exact Hshow | exact Hnd | exact Hshow' | exact Hnd'].
Defined.

Lemma refresh_then_enable_witness :
  let w := example_window false None "" in
  let w2 := snd (enable_scanning (snd (refresh_ports w))) in
  comports w = [("COM3", "USB Serial")]%string
  /\ scanning_enabled w2 = true
  /\ esp (core w2) = Some "COM3"%string
  /\ In (PortOpen "COM3" 115200 1) (calls w2).
Proof.
  intros w w2.
  split; [reflexivity|].
  exact (refresh_then_enable w eq_refl eq_refl eq_refl).
Defined.

Lemma open_settings_panel_shows_store_witness :
  let refuse := fun _ : json => @wraise unit TypeError in
  let w := set_tag_list ["1"; "2"]%string
             (example_window true (Some "COM3"%string) "12") in
  let w' := snd (open_settings_panel refuse w) in
  allowed_tags (core w)
  = map JStr ["0001234567"; "0009876543"; "0005555555"; "12345";
              "67890"]%string
  /\ fst (open_settings_panel refuse w) = Done tt
  /\ tag_list w'
     = ["0001234567"; "0009876543"; "0005555555"; "12345"; "67890"]%string
  /\ buffer w' = "12"%string.
Proof.
  intros refuse w w'.
  destruct (open_settings_panel_shows_store refuse
              ["0001234567"; "0009876543"; "0005555555"; "12345";
               "67890"]%string w eq_refl)
    as [Hdone [Hlist [_ [_ [_ [_ [_ [Hbuf _]]]]]]]].
  repeat apply conj; [reflexivity | exact Hdone | exact Hlist | exact Hbuf].
Defined.

Lemma start_up_witness :
  let refuse := fun _ : json => @wraise unit TypeError in
  let w := before_start (Some ("[" ++ quoted "424242" ++ "]")%string) true
             None [("COM3", "USB Serial")]%string (fun _ => None) in
  let w' := snd (__init__ refuse w) in
  let huge := before_start (Some (string_times "1" 4301)) true None []
                (fun _ => None) in
  file_of_strings (core w) /\ file_is_handled (core w)
  /\ fst (__init__ refuse w) = Done tt
  /\ allowed_tags (core w') = [JStr "424242"]
  /\ tag_list w' = ["424242"]%string
  /\ scanning_in_step w'
  /\ currentText w' = "COM3 - USB Serial"%string
  /\ file_of_strings (core huge)
  /\ fst (__init__ refuse huge) = Fail (PyExn ValueError).
Proof.
  intros refuse w w' huge.
  assert (Hfile : file_of_strings (core w)).
  { intros text items Htext _ Hjson.
    injection Htext as <-. vm_compute in Hjson. injection Hjson as <-.
    now exists ["424242"%string]. }
  assert (Hok : file_is_handled (core w)).
  { intros text Htext _ Hjson.
    injection Htext as <-. vm_compute in Hjson. discriminate Hjson. }
  assert (Hhuge : file_of_strings (core huge)).
  { intros text items Htext _ Hjson.
    injection Htext as <-. vm_compute in Hjson. discriminate Hjson. }
  destruct (start_up refuse w Hfile) as [_ Hstart].
  destruct (Hstart Hok)
    as [Hdone [_ [_ [_ [_ [Hstep [_ [_ [_ [Hcur _]]]]]]]]]].
  destruct (start_up refuse huge Hhuge) as [Hraise _].
  split; [exact Hfile|]. split; [exact Hok|]. split; [exact Hdone|].
  split; [vm_compute; reflexivity|]. split; [vm_compute; reflexivity|].
  split; [exact Hstep|]. split; [exact Hcur|]. split; [exact Hhuge|].
  apply Hraise. vm_compute. reflexivity.
Defined.
